(** * pyoifits: table verification and merge engine

    A shallow embedding of [pyoifits/hdu/table.py], [pyoifits/hdu/flux.py] and
    [oifits/hdu/target.py], with the properties of the verification engine,
    the cross-match helper and the merge engine stated over it.

    Conventions.
    - A Python exception is a value of [exn]; a function that may raise
      returns a [result].
    - A FITS record array ([FITS_rec]) is a [fits_rec]: the field names and
      the rows, each row a mapping from field name to value.
    - A Python [dict] whose iteration order is observed is an association
      list in insertion order ([dict]). *)

From Stdlib Require Import String Ascii DecimalString ZArith Bool Arith Lia List.
From Stdlib Require FinFun DecimalNat Sorted.
Import ListNotations.
Local Open Scope string_scope.
Local Open Scope nat_scope.
Local Open Scope list_scope.

Set Implicit Arguments.

(** ** Exceptions and results *)

Inductive exn : Type :=
| IndexError
| KeyError
| AttributeError
| TypeError
| ValueError
| VerifyError.

Inductive result (A : Type) : Type :=
| Ok (a : A)
| Raise (e : exn).

Arguments Ok {A} a.
Arguments Raise {A} e.

Definition bind {A B : Type} (c : result A) (k : A -> result B) : result B :=
  match c with
  | Ok a => k a
  | Raise e => Raise e
  end.

Notation "x <- c ;; k" := (bind c (fun x => k))
  (at level 61, c at next level, right associativity).
Notation "' p <- c ;; k" := (bind c (fun x => let p := x in k))
  (at level 61, p pattern, c at next level, right associativity).

Fixpoint mapM {A B : Type} (f : A -> result B) (l : list A) : result (list B) :=
  match l with
  | [] => Ok []
  | a :: l' => b <- f a ;; bs <- mapM f l' ;; Ok (b :: bs)
  end.

Fixpoint foldM {A S : Type} (f : S -> A -> result S) (l : list A) (s : S)
  : result S :=
  match l with
  | [] => Ok s
  | a :: l' => s' <- f s a ;; foldM f l' s'
  end.

Definition is_ok {A : Type} (r : result A) : bool :=
  match r with Ok _ => true | Raise _ => false end.

(** ** Cells, rows and record arrays *)

(** The value of one field of one row.  Identifier columns hold [CInt]. *)
Inductive cell : Type :=
| CInt (z : Z)
| CStr (s : string).

Definition cell_eqb (a b : cell) : bool :=
  match a, b with
  | CInt x, CInt y => Z.eqb x y
  | CStr s, CStr t => String.eqb s t
  | _, _ => false
  end.

Definition row := list (string * cell).

Record fits_rec : Type := {
  rec_names : list string;
  rec_rows : list row
}.

Fixpoint field (name : string) (r : row) : option cell :=
  match r with
  | [] => None
  | (n, c) :: r' => if String.eqb n name then Some c else field name r'
  end.

Fixpoint set_field (name : string) (v : cell) (r : row) : row :=
  match r with
  | [] => []
  | (n, c) :: r' =>
      if String.eqb n name then (n, v) :: r' else (n, c) :: set_field name v r'
  end.

Definition has_name (name : string) (names : list string) : bool :=
  existsb (String.eqb name) names.

(** [data[name]]: the column of a record array. *)
Definition column (name : string) (data : fits_rec) : result (list cell) :=
  if has_name name (rec_names data) then
    mapM (fun r => match field name r with
                   | Some c => Ok c
                   | None => Raise KeyError
                   end) (rec_rows data)
  else Raise KeyError.

(** [data[lines]]: selection of rows by a list of indices. *)
Definition select_rows (l : list row) (lines : list nat) : list row :=
  flat_map (fun j => match nth_error l j with
                     | Some r => [r]
                     | None => []
                     end) lines.

Fixpoint enumerate_from {A : Type} (start : nat) (l : list A) : list (nat * A) :=
  match l with
  | [] => []
  | a :: l' => (start, a) :: enumerate_from (S start) l'
  end.

Definition enumerate {A : Type} (l : list A) : list (nat * A) :=
  enumerate_from 0 l.

(** ** Python dictionaries in insertion order *)

Section Assoc.

Variables K V : Type.
Variable eqb : K -> K -> bool.

(** [d.get(k)] *)
Fixpoint assoc_get (k : K) (d : list (K * V)) : option V :=
  match d with
  | [] => None
  | (k', v) :: d' => if eqb k k' then Some v else assoc_get k d'
  end.

(** [d[k] = v]: an existing key keeps its position. *)
Fixpoint assoc_set (k : K) (v : V) (d : list (K * V)) : list (K * V) :=
  match d with
  | [] => [(k, v)]
  | (k', v') :: d' =>
      if eqb k k' then (k', v) :: d' else (k', v') :: assoc_set k v d'
  end.

(** [del d[k]] *)
Fixpoint assoc_del (k : K) (d : list (K * V)) : list (K * V) :=
  match d with
  | [] => []
  | (k', v') :: d' => if eqb k k' then d' else (k', v') :: assoc_del k d'
  end.

(** [dict(pairs)]: a later pair overrides an earlier one with its key. *)
Definition assoc_of_pairs (pairs : list (K * V)) : list (K * V) :=
  fold_left (fun d kv => assoc_set (fst kv) (snd kv) d) pairs [].

End Assoc.

Arguments assoc_get {K V} eqb k d.
Arguments assoc_set {K V} eqb k v d.
Arguments assoc_del {K V} eqb k d.
Arguments assoc_of_pairs {K V} eqb pairs.

(** A dictionary from identifiers to identifiers. *)
Definition dict := list (cell * cell).

Abbreviation dict_get := (assoc_get cell_eqb).
Abbreviation dict_set := (assoc_set cell_eqb).

(** [d.get(i, i)] *)
Definition dict_get_default (d : dict) (i : cell) : cell :=
  match dict_get i d with
  | Some n => n
  | None => i
  end.

Definition mem (c : cell) (l : list cell) : bool := existsb (cell_eqb c) l.

(** ** [_merge_fits_rows] *)

Module MergeRows.

Section Rows.

(** The caller-supplied row equality, as a truth value. *)
Variable equality : row -> row -> bool.

(** [sorted(set(range(1, 1 + len(id1) + len(id2))) - set([*id1, *id2]))] *)
Definition candidate_ids (id1 id2 : list cell) : list cell :=
  filter (fun c => negb (mem c (id1 ++ id2)))
         (map (fun n => CInt (Z.of_nat n))
              (seq 1 (length id1 + length id2))).

(** The state of the loop over the rows of one input. *)
Record loop_state : Type := {
  st_id1 : list cell;
  st_candidate_id2 : list cell;
  st_index_map : dict;
  st_kept_lines : list nat
}.

(** [_np.argwhere(equal)[0, 0]] when there is one. *)
Fixpoint first_true (l : list bool) : option nat :=
  match l with
  | [] => None
  | b :: l' => if b then Some 0
               else match first_true l' with
                    | Some i => Some (S i)
                    | None => None
                    end
  end.

(** One iteration of [for j, row2 in enumerate(rows2)]; [i2] is [id2[j]]. *)
Definition row_step (kept : list fits_rec) (st : loop_state)
           (jr : nat * (cell * row)) : result loop_state :=
  let '(j, (i2, row2)) := jr in
  let equal := map (equality row2) (flat_map rec_rows kept) in
  match first_true equal with
  | Some i =>
      match nth_error (st_id1 st) i with
      | Some v =>
          Ok {| st_id1 := st_id1 st;
                st_candidate_id2 := st_candidate_id2 st;
                st_index_map := dict_set i2 v (st_index_map st);
                st_kept_lines := st_kept_lines st |}
      | None => Raise IndexError
      end
  | None =>
      if mem i2 (st_id1 st) then
        match st_candidate_id2 st with
        | value :: rest =>
            Ok {| st_id1 := st_id1 st ++ [value];
                  st_candidate_id2 := rest;
                  st_index_map := dict_set i2 value (st_index_map st);
                  st_kept_lines := st_kept_lines st ++ [j] |}
        | [] => Raise IndexError
        end
      else
        Ok {| st_id1 := st_id1 st ++ [i2];
              st_candidate_id2 := st_candidate_id2 st;
              st_index_map := dict_set i2 i2 (st_index_map st);
              st_kept_lines := st_kept_lines st ++ [j] |}
  end.

(** [{o: n for o, n in index_map.items() if o != n}] *)
Definition changed_entries (d : dict) : dict :=
  filter (fun on => negb (cell_eqb (fst on) (snd on))) d.

(** The accumulators of the loop over [rows[1:]]. *)
Record merge_state : Type := {
  ms_id1 : list cell;
  ms_kept : list fits_rec;
  ms_maps : list dict
}.

(** The body of [for rows2 in rows[1:]]. *)
Definition input_step (id_name : string) (ms : merge_state)
           (rows2 : fits_rec) : result merge_state :=
  id2 <- column id_name rows2 ;;
  let st0 := {| st_id1 := ms_id1 ms;
                st_candidate_id2 := candidate_ids (ms_id1 ms) id2;
                st_index_map := [];
                st_kept_lines := [] |} in
  st <- foldM (row_step (ms_kept ms))
              (enumerate (combine id2 (rec_rows rows2))) st0 ;;
  let kept2 := {| rec_names := rec_names rows2;
                  rec_rows := select_rows (rec_rows rows2)
                                          (st_kept_lines st) |} in
  Ok {| ms_id1 := st_id1 st;
        ms_kept := ms_kept ms ++ [kept2];
        ms_maps := ms_maps ms ++ [changed_entries (st_index_map st)] |}.

Definition _merge_fits_rows (rows : list fits_rec) (id_name : option string)
  : result (list fits_rec * list dict) :=
  match id_name with
  | None => Ok (rows, [[]])
  | Some idn =>
      match rows with
      | [] => Raise IndexError
      | rows1 :: others =>
          id1 <- column idn rows1 ;;
          ms <- foldM (input_step idn) others
                      {| ms_id1 := id1; ms_kept := [rows1]; ms_maps := [[]] |} ;;
          Ok (ms_kept ms, ms_maps ms)
      end
  end.

End Rows.

End MergeRows.

(** ** Data types: [_dtype_descr] and [_dtype_to_fits] *)

Module DType.

Definition string_of_nat (n : nat) : string :=
  DecimalString.NilZero.string_of_uint (Nat.to_uint n).

(** [int(s)] for a string of decimal digits; any other string raises. *)
Definition int_of_string (s : string) : result nat :=
  match DecimalString.NilZero.uint_of_string s with
  | Some u => Ok (Nat.of_uint u)
  | None => Raise ValueError
  end.

Definition in_chars (c : ascii) (chars : string) : bool :=
  existsb (Ascii.eqb c) (list_ascii_of_string chars).

Fixpoint lstrip (chars : string) (l : list ascii) : list ascii :=
  match l with
  | [] => []
  | c :: l' => if in_chars c chars then lstrip chars l' else l
  end.

(** [t.strip(chars)] *)
Definition strip (chars : string) (t : string) : string :=
  string_of_list_ascii
    (rev (lstrip chars (rev (lstrip chars (list_ascii_of_string t))))).

Definition _fits_types : list (string * string) :=
  [ ("i2", "2-bytes int"); ("i4", "4-bytes int");
    ("f4", "4-bytes float"); ("f8", "8-bytes float");
    ("c8", "8-bytes complex"); ("c16", "16-bytes complex");
    ("i1", "boolean"); ("b1", "boolean") ].

Definition _fits_formats : list (string * string) :=
  [ ("i2", "I"); ("i4", "J");
    ("f4", "E"); ("f8", "D");
    ("c8", "C"); ("c16", "M");
    ("i1", "L"); ("b1", "L") ].

Definition lookup (k : string) (d : list (string * string)) : option string :=
  assoc_get String.eqb k d.

Definition is_digit (c : ascii) : bool := in_chars c "0123456789".

Fixpoint take_digits (l : list ascii) : list ascii :=
  match l with
  | [] => []
  | c :: l' => if is_digit c then c :: take_digits l' else []
  end.

(** One alternative of [re.match('(int|float|complex)([0-9]+)', t)]: the
    digits matched after the word, when the word is a prefix of [t] and a
    digit follows. *)
Definition match_word (word t : string) : option string :=
  if String.prefix word t then
    match take_digits (list_ascii_of_string
                         (substring (String.length word)
                                    (String.length t - String.length word) t))
    with
    | [] => None
    | ds => Some (string_of_list_ascii ds)
    end
  else None.

Fixpoint re_match (words : list string) (t : string)
  : option (string * string) :=
  match words with
  | [] => None
  | w :: ws => match match_word w t with
               | Some ds => Some (w, ds)
               | None => re_match ws t
               end
  end.

Definition plural (len_ : nat) : string :=
  if 1 <? len_ then "s" else "".

Definition _dtype_descr (t : string) : result string :=
  let t := strip "|<>" t in
  match t with
  | EmptyString => Raise IndexError
  | String c rest =>
      if in_chars c "SU" then
        len_ <- int_of_string rest ;;
        Ok (string_of_nat len_ ++ "-byte" ++ plural len_ ++ " " ++ "string")%string
      else
        match re_match ["int"; "float"; "complex"] t with
        | Some (type_, digits) =>
            n <- int_of_string digits ;;
            let len_ := Nat.div n 8 in
            Ok (string_of_nat len_ ++ "-byte" ++ plural len_ ++ " " ++ type_)%string
        | None =>
            Ok (match lookup t _fits_types with
                | Some d => d
                | None => ""
                end)
        end
  end.

(** [int(_np.prod(shape[1:]))] *)
Definition prod_tail (shape : list nat) : nat :=
  fold_left Nat.mul (tl shape) 1.

Definition _dtype_to_fits (t : string) (shape : list nat) : result string :=
  let t := strip "|<>" t in
  match t with
  | EmptyString => Raise IndexError
  | String c rest =>
      '(len_, fmt) <-
        (if in_chars c "SU" then
           n <- int_of_string rest ;; Ok (n, "A")
         else
           match lookup t _fits_formats with
           | Some f => Ok (1, f)
           | None => Raise KeyError
           end) ;;
      Ok (string_of_nat (len_ * prod_tail shape) ++ fmt)%string
  end.

End DType.

(** ** Schema descriptors and FITS columns *)

(** A dimension of a declared shape: a size, or the token [_u.NW]. *)
Inductive dim : Type :=
| Dim (n : nat)
| NW.

(** One entry of a class's [_COLUMNS]. *)
Record coldesc : Type := {
  cd_name : string;
  cd_required : bool;
  cd_type : string;
  cd_shape : list dim;
  cd_test : option (cell -> bool);
  cd_default : option cell;
  cd_unit : option string;
  cd_comment : string
}.

(** A numpy array: [dtype.str], [shape] and the elements in iteration
    order. *)
Record ndarray : Type := {
  arr_dtype : string;
  arr_shape : list nat;
  arr_values : list cell
}.

(** An astropy [Column].  [col_dim] is the tuple whose [str] is the [dim]
    argument; a column built without data has no array. *)
Record fcolumn : Type := {
  col_name : string;
  col_format : string;
  col_unit : option string;
  col_null : option Z;
  col_dim : option (list nat);
  col_array : option ndarray
}.

(** [_np.shape(c.array)] *)
Definition array_shape (a : option ndarray) : list nat :=
  match a with
  | Some arr => arr_shape arr
  | None => []
  end.

(** [cls._get_oi_columns(required)] and [cls._get_oi_colnames(required)] *)
Definition _get_oi_columns (COLUMNS : list coldesc) (required : bool)
  : list coldesc :=
  if required then filter cd_required COLUMNS else COLUMNS.

Definition _get_oi_colnames (COLUMNS : list coldesc) (required : bool)
  : list string :=
  map cd_name (_get_oi_columns COLUMNS required).

(** [colsdesc[colsdesc['name'] == name]], first entry when there is one. *)
Definition find_coldesc (name : string) (colsdesc : list coldesc)
  : option coldesc :=
  find (fun cd => String.eqb (cd_name cd) name) colsdesc.

Module Columns.

Definition last_char (s : string) : option ascii :=
  last (map Some (list_ascii_of_string s)) None.

Definition drop_last (s : string) : string :=
  string_of_list_ascii (removelast (list_ascii_of_string s)).

Section Minimal.

(** [_np.ndarray(shape, dtype=dtype)]: an array that is not initialised;
    numpy raises on a type or a size it refuses. *)
Variable np_ndarray : list nat -> string -> result ndarray.
(** [_fits.Column(name=name, format=fmt, dim=dim, unit=unit)]: a column
    without data.  [dim] is the tuple whose [str] is passed; astropy
    raises when it refuses the format or the dimensions. *)
Variable fits_Column :
  string -> string -> option (list nat) -> option string -> result fcolumn.

Definition _minimal_fits_column (cd : coldesc) (shape : list nat)
           (null : option Z) : result fcolumn :=
  let name := cd_name cd in
  let dtype := cd_type cd in
  let unit := cd_unit cd in
  fmt <- DType._dtype_to_fits dtype shape ;;
  dim <- (if 1 <=? length shape then
            let dim := tl shape in
            match last_char fmt with
            | Some "A"%char =>
                n <- DType.int_of_string (drop_last fmt) ;;
                Ok (Some (n :: dim))
            | _ => Ok (Some dim)
            end
          else Ok None) ;;
  array <- np_ndarray shape dtype ;;
  col <- fits_Column name fmt dim unit ;;
  Ok col.

(** The accumulators [columns] and [colnames] of [_merge_fits_columns]. *)
Definition merge_column (oicolumns : list coldesc)
           (acc : list fcolumn * list string) (c : fcolumn)
  : result (list fcolumn * list string) :=
  let '(columns, colnames) := acc in
  let name := col_name c in
  if has_name name colnames then Ok acc
  else
    let colnames := colnames ++ [name] in
    col <- match find_coldesc name oicolumns with
           | Some cd =>
               let shape := tl (array_shape (col_array c)) in
               let null := col_null c in
               _minimal_fits_column cd shape null
           | None => Ok c
           end ;;
    Ok (columns ++ [c], colnames).

(** [hdus] is given by the [columns] of each HDU. *)
Definition _merge_fits_columns (oicolumns : list coldesc)
           (hdus : list (list fcolumn)) : result (list fcolumn) :=
  acc <- foldM (fun acc hdu_columns =>
                  foldM (merge_column oicolumns) hdu_columns acc)
               hdus ([], []) ;;
  Ok (fst acc).

End Minimal.

Section Cast.

(** [_fits.Column(array=a, format=fmt, ...).array]: the data as astropy
    stores them under a format; it raises when they do not fit. *)
Variable Column_array : string -> ndarray -> result ndarray.

Definition _cast_column (col : fcolumn) (cd : coldesc) : result fcolumn :=
  let val := col_array col in
  fmt <- DType._dtype_to_fits (cd_type cd) (array_shape val) ;;
  arr <- match val with
         | Some a => a' <- Column_array fmt a ;; Ok (Some a')
         | None => Ok None
         end ;;
  Ok {| col_name := col_name col; col_format := fmt;
        col_unit := cd_unit cd; col_null := col_null col;
        col_dim := col_dim col; col_array := arr |}.

Definition cast_one (colsdesc : list coldesc) (col : fcolumn)
  : result fcolumn :=
  match find_coldesc (col_name col) colsdesc with
  | Some cd =>
      spec <- DType._dtype_to_fits (cd_type cd)
                                   (array_shape (col_array col)) ;;
      let real := col_format col in
      if negb (String.eqb spec real) then
        match _cast_column col cd with
        | Ok col' => Ok col'
        | Raise _ => Ok col
        end
      else Ok col
  | None => Ok col
  end.

Definition _cast_columns (cols : list fcolumn) (colsdesc : list coldesc)
  : result (list fcolumn) :=
  mapM (cast_one colsdesc) cols.

End Cast.

End Columns.

(** ** The verification engine: [_OITableHDU._verify] *)

Module Verify.

(** A table HDU as verification sees it: its columns, each carrying the
    data of its field, so that [self.columns] and [self.data] share the
    arrays as they do in astropy. *)
Definition table := list fcolumn.

(** What [run_option] returns: [(fixable, text)]. *)
Definition finding := (bool * string)%type.

Definition names (t : table) : list string := map col_name t.

Fixpoint find_column (name : string) (t : table) : option fcolumn :=
  match t with
  | [] => None
  | c :: t' => if String.eqb (col_name c) name then Some c
               else find_column name t'
  end.

Fixpoint update_column (name : string) (f : fcolumn -> fcolumn) (t : table)
  : table :=
  match t with
  | [] => []
  | c :: t' => if String.eqb (col_name c) name then f c :: t'
               else c :: update_column name f t'
  end.

(** [self.data[name]] *)
Definition data_field (name : string) (t : table) : result ndarray :=
  match find_column name t with
  | Some c => match col_array c with
              | Some a => Ok a
              | None => Raise KeyError
              end
  | None => Raise KeyError
  end.

Definition set_unit (u : option string) (c : fcolumn) : fcolumn :=
  {| col_name := col_name c; col_format := col_format c; col_unit := u;
     col_null := col_null c; col_dim := col_dim c;
     col_array := col_array c |}.

Definition set_name (n : string) (c : fcolumn) : fcolumn :=
  {| col_name := n; col_format := col_format c; col_unit := col_unit c;
     col_null := col_null c; col_dim := col_dim c;
     col_array := col_array c |}.

Definition set_values (vs : list cell) (c : fcolumn) : fcolumn :=
  {| col_name := col_name c; col_format := col_format c;
     col_unit := col_unit c; col_null := col_null c; col_dim := col_dim c;
     col_array := match col_array c with
                  | Some a => Some {| arr_dtype := arr_dtype a;
                                      arr_shape := arr_shape a;
                                      arr_values := vs |}
                  | None => None
                  end |}.

(** astropy's [_Verify.run_option]: in the modes [warn] and [exception]
    nothing is fixed and nothing is marked fixable. *)
Definition reports_only (opt : string) : bool :=
  String.eqb opt "warn" || String.eqb opt "exception".

Definition run_option (opt err_text fix_text : string)
           (fix_ : option (table -> result table)) (fixable : bool)
           (t : table) : result (finding * table) :=
  if reports_only opt then Ok ((false, err_text), t)
  else if negb fixable then
    Ok ((false, "Unfixable error: " ++ err_text)%string, t)
  else
    t' <- match fix_ with
          | Some f => f t
          | None => Ok t
          end ;;
    Ok ((true, err_text ++ "  " ++ fix_text)%string, t').

(** Texts of f-strings. *)
Definition show_unit (u : option string) : string :=
  match u with
  | Some s => s
  | None => "None"
  end.

Definition show_int (z : Z) : string :=
  DecimalString.NilZero.string_of_int (Z.to_int z).

Definition show_cell (c : cell) : string :=
  match c with
  | CInt z => show_int z
  | CStr s => s
  end.

Definition show_tuple (l : list nat) : string :=
  match l with
  | [] => "()"
  | [n] => ("(" ++ DType.string_of_nat n ++ ",)")%string
  | _ => ("(" ++ String.concat ", " (map DType.string_of_nat l) ++ ")")%string
  end.

Definition unit_eqb (a b : option string) : bool :=
  match a, b with
  | Some x, Some y => String.eqb x y
  | None, None => true
  | _, _ => false
  end.

Definition dim_eqb (a b : dim) : bool :=
  match a, b with
  | Dim x, Dim y => Nat.eqb x y
  | NW, NW => true
  | _, _ => false
  end.

(** [tuple(nwave if d == _u.NW else d for d in shape)] when [_u.NW in
    shape]; the declared sizes otherwise. *)
Definition resolve_shape (nwave : nat) (shape : list dim) : list nat :=
  map (fun d => match d with Dim n => n | NW => nwave end) shape.

Fixpoint list_eqb {A : Type} (eqb : A -> A -> bool) (l1 l2 : list A) : bool :=
  match l1, l2 with
  | [], [] => true
  | a :: l1', b :: l2' => eqb a b && list_eqb eqb l1' l2'
  | _, _ => false
  end.

(** ['_' in name] *)
Definition has_underscore (name : string) : bool :=
  existsb (Ascii.eqb "_"%char) (list_ascii_of_string name).

(** [values[invalid] = default] *)
Definition replace_invalid (test : cell -> bool) (default : cell)
           (vs : list cell) : list cell :=
  map (fun v => if test v then v else default) vs.

(** [rename_columns], called with the substitution as keyword arguments. *)
Definition rename_columns (subst : list (string * string)) (t : table)
  : table :=
  map (fun c => match find (fun on => String.eqb (fst on) (col_name c)) subst
                with
                | Some on => set_name (snd on) c
                | None => c
                end) t.

Record vstate : Type := {
  vs_table : table;
  vs_errors : list finding;
  vs_column_casts : list string
}.

Section Engine.

(** [_fits.Column(array=a, format=fmt, ...).array] *)
Variable Column_array : string -> ndarray -> result ndarray.
(** [_np.array(default, dtype=dtype)] *)
Variable np_array : cell -> string -> result cell.
(** [self.get_nwaves()] *)
Variable get_nwaves : nat.
(** The class's [_COLUMNS] and its name. *)
Variable COLUMNS : list coldesc.
Variable class_name : string.

(** Check all required columns are present. *)
Definition check_required (opt : string) (st : vstate) (c : string)
  : result vstate :=
  if negb (has_name c (names (vs_table st))) then
    let err_text :=
      ("Missing column '" ++ c ++ "' in " ++ class_name ++ " object")%string
    in
    '(err, t) <- run_option opt err_text "Fixed." None false
                            (vs_table st) ;;
    Ok {| vs_table := t; vs_errors := vs_errors st ++ [err];
          vs_column_casts := vs_column_casts st |}
  else Ok st.

Definition check_type (opt : string) (cd : coldesc) (st : vstate)
  : result vstate :=
  let name := cd_name cd in
  a <- data_field name (vs_table st) ;;
  spec <- DType._dtype_descr (cd_type cd) ;;
  real <- DType._dtype_descr (arr_dtype a) ;;
  if negb (String.eqb spec real) then
    let err_txt := ("Column " ++ name ++ ": type must be " ++ spec
                    ++ " but is " ++ real ++ ".")%string in
    '(err, t) <- run_option opt err_txt "Will try to fix."
                            (Some (fun t => Ok t)) true (vs_table st) ;;
    Ok {| vs_table := t; vs_errors := vs_errors st ++ [err];
          vs_column_casts := vs_column_casts st ++ [name] |}
  else Ok st.

Definition check_unit (opt : string) (cd : coldesc) (st : vstate)
  : result vstate :=
  let name := cd_name cd in
  match find_column name (vs_table st) with
  | None => Raise KeyError
  | Some c =>
      let real := col_unit c in
      let spec := cd_unit cd in
      if negb (unit_eqb real spec) then
        let err_txt := ("Column " ++ name ++ ": unit must be "
                        ++ show_unit spec ++ " but is " ++ show_unit real
                        ++ ".")%string in
        '(err, t) <- run_option opt err_txt "Fixed."
                       (Some (fun t => Ok (update_column name
                                             (set_unit spec) t)))
                       true (vs_table st) ;;
        Ok {| vs_table := t; vs_errors := vs_errors st ++ [err];
              vs_column_casts := vs_column_casts st |}
      else Ok st
  end.

Definition check_shape (opt : string) (cd : coldesc) (st : vstate)
  : result vstate :=
  let name := cd_name cd in
  a <- data_field name (vs_table st) ;;
  let dshape := tl (arr_shape a) in
  let shape := resolve_shape get_nwaves (cd_shape cd) in
  if negb (list_eqb Nat.eqb shape dshape) then
    let err_txt := ("Column " ++ name ++ ": shape is " ++ show_tuple dshape
                    ++ ", should be " ++ show_tuple shape)%string in
    '(err, t) <- run_option opt err_txt "Fixed." None false
                            (vs_table st) ;;
    Ok {| vs_table := t; vs_errors := vs_errors st ++ [err];
          vs_column_casts := vs_column_casts st |}
  else Ok st.

(** Check values.  The finding [err] is not appended to [errors]. *)
Definition check_values (opt : string) (cd : coldesc) (st : vstate)
  : result vstate :=
  let name := cd_name cd in
  match cd_test cd with
  | None => Ok st
  | Some test =>
      values <- data_field name (vs_table st) ;;
      let invalid := map (fun v => negb (test v)) (arr_values values) in
      if existsb (fun b => b) invalid then
        let '(fix_, fixable) :=
          match cd_default cd with
          | Some default =>
              match np_array default (arr_dtype values) with
              | Ok default =>
                  (Some (fun t : table =>
                           Ok (update_column name
                                 (set_values
                                    (replace_invalid test default
                                       (arr_values values))) t)),
                   true)
              | Raise _ => (None, false)
              end
          | None => (None, false)
          end in
        let val1 :=
          hd (CStr "") (filter (fun v => negb (test v))
                               (arr_values values)) in
        let err_text := ("Column '" ++ name
                         ++ "' has incorrect values. First encountered  '"
                         ++ show_cell val1 ++ "'.")%string in
        '(err, t) <- run_option opt err_text
                       "Replaced by default value" fix_ fixable
                       (vs_table st) ;;
        Ok {| vs_table := t; vs_errors := vs_errors st;
              vs_column_casts := vs_column_casts st |}
      else Ok st
  end.

(** The body of [for coldesc in OI_COLUMNS]. *)
Definition check_column (opt : string) (st : vstate) (cd : coldesc)
  : result vstate :=
  if negb (has_name (cd_name cd) (names (vs_table st))) then Ok st
  else
    st <- check_type opt cd st ;;
    st <- check_unit opt cd st ;;
    st <- check_shape opt cd st ;;
    check_values opt cd st.

(** [{name: f"NS_{name}" for name in colnames
      if name not in oi_colnames and '_' not in name}] *)
Definition non_standard (oi_colnames : list string) (colnames : list string)
  : list (string * string) :=
  fold_left (fun d name =>
               if negb (has_name name oi_colnames)
                  && negb (has_underscore name)
               then assoc_set String.eqb name ("NS_" ++ name)%string d
               else d)
            colnames [].

Definition check_names (opt : string) (st : vstate) : result vstate :=
  let colnames := names (vs_table st) in
  let oi_colnames := _get_oi_colnames COLUMNS false in
  let subst := non_standard oi_colnames colnames in
  match subst with
  | [] => Ok st
  | _ =>
      let nonstd :=
        String.concat ", "
          (map (fun on => ("'" ++ fst on ++ "'")%string) subst) in
      let err_text := ("Column name(s) should start with prefix_ :'"
                       ++ nonstd ++ "'.")%string in
      '(err, t) <- run_option opt err_text
                     "NS_ has been prefixed to column name(s)"
                     (Some (fun t => Ok (rename_columns subst t))) true
                     (vs_table st) ;;
      Ok {| vs_table := t; vs_errors := vs_errors st ++ [err];
            vs_column_casts := vs_column_casts st |}
  end.

Definition apply_casts (st : vstate) : result vstate :=
  match vs_column_casts st with
  | [] => Ok st
  | _ =>
      columns <- Columns._cast_columns Column_array (vs_table st)
                                       COLUMNS ;;
      Ok {| vs_table := columns; vs_errors := vs_errors st;
            vs_column_casts := vs_column_casts st |}
  end.

(** [_OITableHDU._verify]; [errors] is what [super()._verify(option)]
    returned.  The result is the returned list and the table as the
    pass leaves it. *)
Definition _verify (errors : list finding) (opt : string) (t : table)
  : result (list finding * table) :=
  let OI_COLUMNS := _get_oi_columns COLUMNS false in
  st <- foldM (check_required opt) (_get_oi_colnames COLUMNS true)
              {| vs_table := t; vs_errors := errors;
                 vs_column_casts := [] |} ;;
  st <- foldM (check_column opt) OI_COLUMNS st ;;
  st <- check_names opt st ;;
  st <- apply_casts st ;;
  Ok (vs_errors st, vs_table st).

End Engine.

End Verify.

(** ** [_FluxHDU._verify] *)

Module Flux.

Import Verify.

Section FluxVerify.

(** [super()._verify(option)]: the next [_verify] of the class
    hierarchy, run on the table, with the list it returns. *)
Variable super_verify : string -> table -> result (list finding * table).

(** The function has no [return] statement: its value is [None]. *)
Definition _verify (opt : string) (t : table)
  : result (option (list finding) * table) :=
  let errors : list finding := [] in
  let cols := t in
  '(err, t) <-
    (if negb (has_name "FLUXDATA" (names cols))
        && has_name "FLUX" (names cols)
     then
       '(e, t') <- run_option opt "Column FLUX should be named FLUXDATA"
                     "Renamed"
                     (Some (fun t => Ok (rename_columns
                                           [("FLUX", "FLUXDATA")] t)))
                     true t ;;
       Ok (Some e, t')
     else Ok (None, t)) ;;
  '(errors, t) <- super_verify opt t ;;
  let errors := match err with
                | Some e => errors ++ [e]
                | None => errors
                end in
  Ok (None, t).

End FluxVerify.

End Flux.

(** ** The merge engine: [_OITableHDU._merge_helper] *)

Module MergeHelper.

(** [merged.data[name][rowmin:rowmax][...] = values], for a block that
    lies within the table. *)
Fixpoint write_rows (name : string) (rowmin : nat) (values : list cell)
         (rows : list row) : list row :=
  match rows with
  | [] => []
  | r :: rows' =>
      match rowmin with
      | S k => r :: write_rows name k values rows'
      | O => match values with
             | [] => r :: rows'
             | v :: vs => set_field name v r :: write_rows name 0 vs rows'
             end
      end
  end.

Definition assign_slice (name : string) (rowmin : nat) (values : list cell)
           (merged : fits_rec) : result fits_rec :=
  if has_name name (rec_names merged) then
    if rowmin + length values <=? length (rec_rows merged) then
      Ok {| rec_names := rec_names merged;
            rec_rows := write_rows name rowmin values (rec_rows merged) |}
    else Raise ValueError
  else Raise KeyError.

Definition is_id_name (id_name : option string) (name : string) : bool :=
  match id_name with
  | Some n => String.eqb name n
  | None => false
  end.

Definition nonempty {A : Type} (l : list A) : bool :=
  match l with [] => false | _ => true end.

(** The body of [for data, map in zip(rows, maps)]. *)
Definition copy_rows (id_name : option string) (acc : nat * fits_rec)
           (dm : fits_rec * dict) : result (nat * fits_rec) :=
  let '(rowmin, merged) := acc in
  let '(data, map_) := dm in
  let ndata := length (rec_rows data) in
  merged <- foldM (fun merged name =>
                     col <- column name data ;;
                     let values :=
                       if nonempty map_ && is_id_name id_name name
                       then map (dict_get_default map_) col
                       else col in
                     assign_slice name rowmin values merged)
                  (rec_names data) merged ;;
  Ok (rowmin + ndata, merged).

Definition fill_rows (id_name : option string) (merged : fits_rec)
           (rows : list fits_rec) (maps : list dict) : result fits_rec :=
  acc <- foldM (copy_rows id_name) (combine rows maps) (0, merged) ;;
  Ok (snd acc).

(** [for old, new in map.items(): field[field == old] = new] *)
Definition replace_old (field : list cell) (on : cell * cell) : list cell :=
  map (fun v => if cell_eqb v (fst on) then snd on else v) field.

Definition rewrite_field (map_ : dict) (field : list cell) : list cell :=
  fold_left replace_old map_ field.

(** The column [name] of [data] overwritten in place. *)
Fixpoint set_column (name : string) (values : list cell) (rows : list row)
  : list row :=
  match rows, values with
  | r :: rows', v :: vs => set_field name v r :: set_column name vs rows'
  | _, _ => rows
  end.

(** [_np.argmax(l)]: the first position of the largest element. *)
Fixpoint argmax_from (best_i best : nat) (i : nat) (l : list nat) : nat :=
  match l with
  | [] => best_i
  | x :: l' => if best <? x then argmax_from i x (S i) l'
               else argmax_from best_i best (S i) l'
  end.

Definition argmax (l : list nat) : nat :=
  match l with
  | [] => 0
  | x :: l' => argmax_from 0 x 1 l'
  end.

Section Helper.

(** The header of an HDU, [header['EXTNAME']] and
    [_u.merge_fits_headers]. *)
Variable header : Type.
Variable header_EXTNAME : header -> result string.
Variable merge_fits_headers : list header -> list string -> result header.

(** An OIFITS table HDU: its class attributes [_OI_REVN], [_COLUMNS] and
    the required names of [_CARDS], its header, columns and data, and
    the index of its [_container] in the store of data sets. *)
Record hdu : Type := {
  hdu_OI_REVN : nat;
  hdu_COLUMNS : list coldesc;
  hdu_req_keys : list string;
  hdu_header : header;
  hdu_columns : list fcolumn;
  hdu_data : fits_rec;
  hdu_container : option nat
}.

(** A data set ([container.get_OITableHDUs()]) and the store of all. *)
Definition container := list hdu.
Definition store := list container.

Variable np_ndarray : list nat -> string -> result ndarray.
Variable fits_Column :
  string -> string -> option (list nat) -> option string -> result fcolumn.
Variable Column_array : string -> ndarray -> result ndarray.
(** astropy's [BinTableHDU.from_columns(columns, header=header,
    nrows=nrows, fill=False)], as the override [from_columns] of the class
    calls it whatever [fill] it is given: the record array of the new
    HDU. *)
Variable BinTable_from_columns :
  list fcolumn -> header -> nat -> result fits_rec.
(** [h.refers_to(hdu)] *)
Variable refers_to : hdu -> hdu -> bool.
Variable equality : row -> row -> bool.

Definition check_extname (ext1 : string) (other : hdu) : result unit :=
  ext2 <- header_EXTNAME (hdu_header other) ;;
  if negb (String.eqb ext1 ext2) then Raise TypeError else Ok tt.

Definition with_data (h : hdu) (data : fits_rec) : hdu :=
  {| hdu_OI_REVN := hdu_OI_REVN h; hdu_COLUMNS := hdu_COLUMNS h;
     hdu_req_keys := hdu_req_keys h; hdu_header := hdu_header h;
     hdu_columns := hdu_columns h; hdu_data := data;
     hdu_container := hdu_container h |}.

(** The update of one table [h] of the container of [hdu_]. *)
Definition update_referrer (id_name : option string) (hdu_ : hdu)
           (map_ : dict) (h : hdu) : result hdu :=
  if refers_to h hdu_ then
    match id_name with
    | Some idn =>
        field <- column idn (hdu_data h) ;;
        Ok (with_data h
              {| rec_names := rec_names (hdu_data h);
                 rec_rows := set_column idn (rewrite_field map_ field)
                                        (rec_rows (hdu_data h)) |})
    | None => Raise KeyError
    end
  else Ok h.

Fixpoint set_nth {A : Type} (n : nat) (a : A) (l : list A) : list A :=
  match l, n with
  | [], _ => []
  | _ :: l', O => a :: l'
  | x :: l', S k => x :: set_nth k a l'
  end.

(** The body of [for hdu, map in zip(hdus, maps)]. *)
Definition update_container (id_name : option string) (s : store)
           (hm : hdu * dict) : result store :=
  let '(hdu_, map_) := hm in
  if nonempty map_ then
    match hdu_container hdu_ with
    | Some k =>
        match nth_error s k with
        | Some cont =>
            cont' <- mapM (update_referrer id_name hdu_ map_) cont ;;
            Ok (set_nth k cont' s)
        | None => Ok s
        end
    | None => Ok s
    end
  else Ok s.

Definition _merge_helper (self : hdu) (others : list hdu)
           (id_name : option string) (s : store) : result (hdu * store) :=
  ext1 <- header_EXTNAME (hdu_header self) ;;
  _ <- mapM (check_extname ext1) others ;;
  let hdus := self :: others in
  let i_maxrevn := argmax (map hdu_OI_REVN hdus) in
  let cls := nth i_maxrevn hdus self in
  columns <- Columns._merge_fits_columns np_ndarray fits_Column
                                         (hdu_COLUMNS cls)
                                         (map hdu_columns hdus) ;;
  let rows := map hdu_data hdus in
  '(rows, maps) <- MergeRows._merge_fits_rows equality rows id_name ;;
  let nrows := list_sum (map (fun r => length (rec_rows r)) rows) in
  let headers := map hdu_header hdus in
  header_ <- merge_fits_headers headers (hdu_req_keys cls) ;;
  columns <- Columns._cast_columns Column_array columns
                                   (hdu_COLUMNS cls) ;;
  data <- BinTable_from_columns columns header_ nrows ;;
  data <- fill_rows id_name data rows maps ;;
  let merged := {| hdu_OI_REVN := hdu_OI_REVN cls;
                   hdu_COLUMNS := hdu_COLUMNS cls;
                   hdu_req_keys := hdu_req_keys cls;
                   hdu_header := header_;
                   hdu_columns := columns;
                   hdu_data := data;
                   hdu_container := None |} in
  s <- foldM (update_container id_name) (combine hdus maps) s ;;
  Ok (merged, s).

End Helper.

End MergeHelper.

(** ** The cross-match helper: [_OITableHDU._xmatch] *)

Module XMatch.

(** An HDU as attribute access sees it: the class's [_COLUMNS] and the
    fields of [self.data]. *)
Record hdu : Type := {
  hdu_COLUMNS : list coldesc;
  hdu_fields : list (string * ndarray)
}.

(** [__getattr__(s)]: quick access to the OI columns. *)
Definition getattr (h : hdu) (s : string) : result ndarray :=
  let colnames := _get_oi_colnames (hdu_COLUMNS h) false in
  let oicolnames :=
    filter (fun x => has_name x colnames) (map fst (hdu_fields h)) in
  if has_name s oicolnames then
    match assoc_get String.eqb s (hdu_fields h) with
    | Some a => Ok a
    | None => Raise KeyError
    end
  else Raise AttributeError.

(** The elements of an array along its first axis, each with the cells
    it holds. *)
Fixpoint chunks (n size : nat) (l : list cell) : list (list cell) :=
  match n with
  | O => []
  | S n' => firstn size l :: chunks n' size (skipn size l)
  end.

Definition prod (shape : list nat) : nat := fold_left Nat.mul shape 1.

Definition elements (a : ndarray) : list (list cell) :=
  chunks (hd 0 (arr_shape a)) (prod (tl (arr_shape a))) (arr_values a).

(** The keys of [dict(zip(ref_indices, ref_values))]: the elements of a
    one-dimensional array; an array element is not hashable. *)
Definition keys_of (a : ndarray) : result (list cell) :=
  match arr_shape a with
  | [_] => Ok (arr_values a)
  | _ => Raise TypeError
  end.

Inductive xvalues : Type :=
| Values (a : ndarray)
| Joined (l : list string).

Section Resolve.

(** [str(x)] for a sub-array [x] of the given shape. *)
Variable str_array : list nat -> list cell -> string.

Definition str_element (shape : list nat) (x : list cell) : string :=
  match shape, x with
  | [], [c] => Verify.show_cell c
  | _, _ => str_array shape x
  end.

(** ['-'.join([str(x) for x in _np.atleast_1d(a)])] for an element [a]
    of the given shape. *)
Definition join_element (shape : list nat) (a : list cell) : string :=
  let a_shape := match shape with [] => [1] | _ => shape end in
  String.concat "-"
    (map (str_element (tl a_shape))
         (chunks (hd 0 a_shape) (prod (tl a_shape)) a)).

Definition lookup_all (xmatch : list (cell * list cell))
           (indices : list cell) : result (list (list cell)) :=
  mapM (fun i => match assoc_get cell_eqb i xmatch with
                 | Some v => Ok v
                 | None => Raise KeyError
                 end) indices.

Definition _xmatch (self : hdu) (name : string) (refhdu : hdu)
           (refname : string) (concatenate : bool) : result xvalues :=
  ref_values <- getattr refhdu name ;;
  ref_indices <- getattr refhdu refname ;;
  keys <- keys_of ref_indices ;;
  let xmatch := assoc_of_pairs cell_eqb
                  (combine keys (elements ref_values)) in
  indices <- getattr self refname ;;
  _ <- (match elements ref_values with
        | [] => Raise IndexError
        | _ => Ok tt
        end) ;;
  let shape := arr_shape indices ++ tl (arr_shape ref_values) in
  found <- lookup_all xmatch (arr_values indices) ;;
  let values := {| arr_dtype := arr_dtype ref_values;
                   arr_shape := shape;
                   arr_values := concat found |} in
  if concatenate then
    Ok (Joined (map (join_element (tl shape)) (elements values)))
  else Ok (Values values).

End Resolve.

End XMatch.

(** ** Construction from raw columns: [_OITableHDU.from_data] *)

Module FromData.

Definition upper_char (c : ascii) : ascii :=
  let n := nat_of_ascii c in
  if (97 <=? n) && (n <=? 122) then ascii_of_nat (n - 32) else c.

(** [k.upper()] on ASCII names. *)
Definition upper (s : string) : string :=
  string_of_list_ascii (map upper_char (list_ascii_of_string s)).

(** One entry of a class's [_CARDS]. *)
Record carddesc : Type := {
  card_name : string;
  card_required : bool;
  card_default : option cell;
  card_comment : string
}.

Section Build.

(** The Python values passed for columns and keywords. *)
Variable pyvalue : Type.
Variable is_None : pyvalue -> bool.
Variable value_of_default : option cell -> pyvalue.
(** [len(_np.atleast_1d(c))] *)
Variable len_atleast_1d : pyvalue -> nat.
(** [reshape_to_rows(x, nrows)] *)
Variable reshape_to_rows : pyvalue -> nat -> ndarray.
(** The header built from the cards and the keywords (the first two
    loops, made of [header.set] calls). *)
Variable header : Type.
Variable build_header :
  list carddesc -> list (string * pyvalue) -> result header.
(** [_fits.Column(format=fmt, unit=unit, array=array, name=name)] *)
Variable fits_Column :
  string -> option string -> ndarray -> string -> result fcolumn.
(** [super().from_columns(fcols, header=header)] *)
Variable table : Type.
Variable from_columns : list fcolumn -> header -> result table.

Definition upper_keys (d : list (string * pyvalue))
  : list (string * pyvalue) :=
  assoc_of_pairs String.eqb (map (fun kv => (upper (fst kv), snd kv)) d).

(** The body of [for col in cls._COLUMNS], on [columns] and [fcols]. *)
Definition official_column (nrows : nat)
           (acc : list (string * pyvalue) * list fcolumn) (col : coldesc)
  : result (list (string * pyvalue) * list fcolumn) :=
  let '(columns, fcols) := acc in
  let name := cd_name col in
  let present := match assoc_get String.eqb name columns with
                 | Some _ => true
                 | None => false
                 end in
  if negb present && negb (cd_required col) then Ok acc
  else
    let columns :=
      if present then columns
      else assoc_set String.eqb name
                     (value_of_default (cd_default col)) columns in
    match assoc_get String.eqb name columns with
    | None => Raise KeyError
    | Some x =>
        let array := reshape_to_rows x nrows in
        let columns := assoc_del String.eqb name columns in
        let dtype := cd_type col in
        let unit := cd_unit col in
        let shape := arr_shape array in
        fmt <- DType._dtype_to_fits dtype shape ;;
        fcol <- fits_Column fmt unit array name ;;
        Ok (columns, fcols ++ [fcol])
    end.

(** The body of [for name in columns] (additional columns).
    [_dtype_to_fits] is handed [array.dtype], a numpy dtype and not a
    string, whose [strip] attribute does not exist; the list method
    [appen] called at the end of the body does not exist either. *)
Definition additional_column (nrows : nat)
           (columns : list (string * pyvalue)) (fcols : list fcolumn)
           (name : string) : result (list fcolumn) :=
  match assoc_get String.eqb name columns with
  | None => Raise KeyError
  | Some x =>
      let array := reshape_to_rows x nrows in
      Raise AttributeError
  end.

(** The part of [from_data] before the additional columns, once the
    class is resolved: what is left in [columns], the official
    [fcols] and the header. *)
Definition official_part (CARDS : list carddesc) (COLUMNS : list coldesc)
           (fits_keywords columns : list (string * pyvalue))
  : result (list (string * pyvalue) * list fcolumn * header) :=
  let fits_keywords :=
    upper_keys (filter (fun kv => negb (is_None (snd kv))) fits_keywords) in
  let columns := upper_keys columns in
  header_ <- build_header CARDS fits_keywords ;;
  nrows <- (match columns with
            | [] => Raise ValueError
            | _ => Ok (list_max (map (fun kv => len_atleast_1d (snd kv))
                                     columns))
            end) ;;
  acc <- foldM (official_column nrows) COLUMNS (columns, []) ;;
  Ok (fst acc, snd acc, header_).

Definition nrows_of (columns : list (string * pyvalue)) : nat :=
  list_max (map (fun kv => len_atleast_1d (snd kv)) (upper_keys columns)).

Definition from_data (CARDS : list carddesc) (COLUMNS : list coldesc)
           (fits_keywords columns : list (string * pyvalue))
  : result table :=
  '(rest, fcols, header_) <-
    official_part CARDS COLUMNS fits_keywords columns ;;
  fcols <- foldM (additional_column (nrows_of columns) rest)
                 (map fst rest) fcols ;;
  from_columns fcols header_.

End Build.

End FromData.
(** ** The helper [reshape_to_rows] of [from_data] *)

Module FromDataHelper.

(** [reshape_to_rows(x, nrows)] for a value [x] seen as an array (a scalar
    has the shape [()]): [np.full] repeats the value [nrows] times. *)
Definition reshape_to_rows (x : ndarray) (nrows : nat) : ndarray :=
  let full := {| arr_dtype := arr_dtype x;
                 arr_shape := nrows :: arr_shape x;
                 arr_values := concat (repeat (arr_values x) nrows) |} in
  match arr_shape x with
  | [] => full
  | d :: _ => if negb (Nat.eqb d nrows) then full else x
  end.

End FromDataHelper.

(** ** Target tables: [_MustHaveTargetHDU._verify], [_TargetHDU._verify] *)

Module Target.

Import Verify.

(** [__getattr__(s)] on a table: quick access to the OI columns. *)
Definition getattr (COLUMNS : list coldesc) (t : table) (s : string)
  : result ndarray :=
  let colnames := _get_oi_colnames COLUMNS false in
  let oicolnames := filter (fun x => has_name x colnames) (names t) in
  if has_name s oicolnames then data_field s t else Raise AttributeError.

(** [_np.unique] on integers: the distinct values in increasing order. *)
Fixpoint insert_unique (x : Z) (l : list Z) : list Z :=
  match l with
  | [] => [x]
  | y :: l' => if (x <? y)%Z then x :: l
               else if (x =? y)%Z then l
               else y :: insert_unique x l'
  end.

Definition np_unique (l : list Z) : list Z := fold_right insert_unique [] l.

(** The distinct values of an array of any type, as many as [_np.unique]
    returns. *)
Fixpoint distinct (l : list cell) : list cell :=
  match l with
  | [] => []
  | x :: l' => if mem x l' then distinct l' else x :: distinct l'
  end.

Definition is_string_dtype (dtype : string) : bool :=
  match DType.strip "|<>" dtype with
  | String c _ => DType.in_chars c "SU"
  | EmptyString => false
  end.

(** The values of an array that is compared with a number: comparing
    strings with a number raises. *)
Definition ints_of (a : ndarray) : result (list Z) :=
  if is_string_dtype (arr_dtype a) then Raise TypeError
  else mapM (fun c => match c with
                      | CInt z => Ok z
                      | CStr _ => Raise TypeError
                      end) (arr_values a).

(** What [self.get_targetHDU()] returns: the table itself, another
    table, given by what its [TARGET_ID] evaluates to, or [None]. *)
Inductive target_ref : Type :=
| ThisTable
| OtherTable (TARGET_ID : result (list Z))
| NoTable.

Module MustHaveTargetHDU.

Section MustHaveTarget.

(** [super()._verify(option)] *)
Variable super_verify : string -> table -> result (list finding * table).
Variable COLUMNS : list coldesc.

(** The body of [for v in val]. *)
Definition check_referred (opt : string) (target_ids : result (list Z))
           (acc : list finding * table) (v : Z)
  : result (list finding * table) :=
  let '(errors, self) := acc in
  ids <- target_ids ;;
  if negb (existsb (Z.eqb v) ids) then
    let err_text := ("'TARGET_ID' not refered in TargetHDU: "
                     ++ show_int v)%string in
    '(err, self) <- run_option opt err_text "Fixed." None false self ;;
    Ok (errors ++ [err], self)
  else Ok (errors, self).

(** [_MustHaveTargetHDU._verify] *)
Definition _verify (opt : string) (self : table) (t : target_ref)
  : result (list finding * table) :=
  '(errors, self) <- super_verify opt self ;;
  a <- getattr COLUMNS self "TARGET_ID" ;;
  ids <- ints_of a ;;
  let val := np_unique ids in
  '(errors, self) <-
    (if negb (forallb (fun v => (1 <=? v)%Z) val) then
       '(err, self) <- run_option opt "'TARGET_ID' should be ≥ 1" "Fixed."
                                  None false self ;;
       Ok (errors ++ [err], self)
     else Ok (errors, self)) ;;
  match t with
  | ThisTable => Ok (errors, self)
  | OtherTable target_ids =>
      foldM (check_referred opt target_ids) val (errors, self)
  | NoTable =>
      foldM (check_referred opt (Raise AttributeError)) val (errors, self)
  end.

End MustHaveTarget.

End MustHaveTargetHDU.

Module TargetHDU.

Section TargetTable.

Variable super_verify : string -> table -> result (list finding * table).
Variable COLUMNS : list coldesc.
Variable class_name : string.

(** [len(a)] *)
Definition len (a : ndarray) : result nat :=
  match arr_shape a with
  | [] => Raise TypeError
  | d :: _ => Ok d
  end.

(** [_TargetHDU._verify] *)
Definition _verify (opt : string) (self : table)
  : result (list finding * table) :=
  '(errors, self) <- super_verify opt self ;;
  target_id <- getattr COLUMNS self "TARGET_ID" ;;
  n <- len target_id ;;
  if Nat.eqb (length (distinct (arr_values target_id))) n then
    Ok (errors, self)
  else
    let err_text := ("Repeated TARGET_ID in " ++ class_name)%string in
    '(err, self) <- run_option opt err_text "Fixed." None false self ;;
    Ok (errors ++ [err], self).

End TargetTable.

End TargetHDU.

End Target.

(** ** Names of spectral columns: [get_error_names], [get_observable_names] *)

Module SpecNames.

(** [c[-3:]] *)
Definition last3 (c : string) : string :=
  substring (String.length c - 3) 3 c.

Section Names.

(** [cls._get_spec_colnames(required)] *)
Variable _get_spec_colnames : bool -> list string.

Definition get_error_names (required : bool) : list string :=
  let cols := _get_spec_colnames required in
  filter (fun c => String.eqb (last3 c) "ERR") cols.

Definition get_observable_names (required : bool) : list string :=
  let cols := _get_spec_colnames required in
  filter (fun c => negb (String.eqb (last3 c) "ERR")
                   && negb (String.eqb c "FLAG")) cols.

End Names.

End SpecNames.

(** * Properties *)

(** ** Results *)

Lemma bind_Ok {A B : Type} (c : result A) (k : A -> result B) (b : B) :
  bind c k = Ok b -> exists a, c = Ok a /\ k a = Ok b.
Proof.
  destruct c as [a|e]; simpl; intros H; [exists a; auto | discriminate].
Qed.

Ltac inv_bind H :=
  let a := fresh "a" in
  let Ha := fresh "Ha" in
  apply bind_Ok in H; destruct H as [a [Ha H]].

Lemma mapM_length {A B : Type} (f : A -> result B) (l : list A) (bs : list B) :
  mapM f l = Ok bs -> length bs = length l.
Proof.
  revert bs; induction l as [|a l IH]; simpl; intros bs H.
  - inversion H; reflexivity.
  - inv_bind H. inv_bind H. inversion H; subst. simpl. f_equal. auto.
Qed.

Lemma foldM_app {A S : Type} (f : S -> A -> result S) (l1 l2 : list A) (s : S) :
  foldM f (l1 ++ l2) s = bind (foldM f l1 s) (foldM f l2).
Proof.
  revert s; induction l1 as [|a l1 IH]; simpl; intros s; [reflexivity|].
  destruct (f s a); simpl; auto.
Qed.

(** ** Cells and membership *)

Lemma cell_eqb_eq (a b : cell) : cell_eqb a b = true <-> a = b.
Proof.
  destruct a, b; simpl; split; intros H; try discriminate.
  - apply Z.eqb_eq in H; congruence.
  - inversion H; apply Z.eqb_refl.
  - apply String.eqb_eq in H; congruence.
  - inversion H; apply String.eqb_refl.
Qed.

Lemma cell_eqb_refl (a : cell) : cell_eqb a a = true.
Proof. apply cell_eqb_eq; reflexivity. Qed.

Lemma cell_eqb_neq (a b : cell) : cell_eqb a b = false <-> a <> b.
Proof.
  split; intros H.
  - intros E; apply cell_eqb_eq in E; congruence.
  - destruct (cell_eqb a b) eqn:E; [apply cell_eqb_eq in E; contradiction | reflexivity].
Qed.

Lemma cell_eq_dec (a b : cell) : {a = b} + {a <> b}.
Proof.
  destruct (cell_eqb a b) eqn:E.
  - left; apply cell_eqb_eq; assumption.
  - right; apply cell_eqb_neq; assumption.
Qed.

Lemma mem_In (c : cell) (l : list cell) : mem c l = true <-> In c l.
Proof.
  unfold mem; rewrite existsb_exists; split.
  - intros [x [Hx E]]; apply cell_eqb_eq in E; subst; assumption.
  - intros H; exists c; split; [assumption | apply cell_eqb_refl].
Qed.

Lemma mem_not_In (c : cell) (l : list cell) : mem c l = false <-> ~ In c l.
Proof.
  rewrite <- mem_In; destruct (mem c l); split; intros; congruence.
Qed.

Lemma mem_app (c : cell) (l1 l2 : list cell) :
  mem c (l1 ++ l2) = mem c l1 || mem c l2.
Proof. unfold mem; apply existsb_app. Qed.

Lemma has_name_In (n : string) (l : list string) : has_name n l = true <-> In n l.
Proof.
  unfold has_name; rewrite existsb_exists; split.
  - intros [x [Hx E]]; apply String.eqb_eq in E; subst; assumption.
  - intros H; exists n; split; [assumption | apply String.eqb_refl].
Qed.

(** ** Dictionaries *)

Section AssocFacts.

Variables K V : Type.
Variable eqb : K -> K -> bool.
Hypothesis eqb_eq : forall a b, eqb a b = true <-> a = b.

Lemma assoc_get_set_same (k : K) (v : V) (d : list (K * V)) :
  assoc_get eqb k (assoc_set eqb k v d) = Some v.
Proof.
  induction d as [|[k' v'] d IH]; simpl.
  - replace (eqb k k) with true; [reflexivity|].
    symmetry; apply eqb_eq; reflexivity.
  - destruct (eqb k k') eqn:E; simpl; rewrite E; auto.
Qed.

Lemma assoc_get_set_other (k k0 : K) (v : V) (d : list (K * V)) :
  k0 <> k -> assoc_get eqb k0 (assoc_set eqb k v d) = assoc_get eqb k0 d.
Proof.
  intros Hne; induction d as [|[k' v'] d IH]; simpl.
  - destruct (eqb k0 k) eqn:E; [apply eqb_eq in E; contradiction | reflexivity].
  - destruct (eqb k k') eqn:E; simpl.
    + apply eqb_eq in E; subst k'.
      destruct (eqb k0 k) eqn:E0; [apply eqb_eq in E0; contradiction|].
      reflexivity.
    + rewrite IH; reflexivity.
Qed.

Lemma assoc_get_In (k : K) (v : V) (d : list (K * V)) :
  assoc_get eqb k d = Some v -> In (k, v) d.
Proof.
  induction d as [|[k' v'] d IH]; simpl; [discriminate|].
  destruct (eqb k k') eqn:E.
  - apply eqb_eq in E; subst; intros H; inversion H; auto.
  - auto.
Qed.

Lemma assoc_set_keys (k : K) (v : V) (d : list (K * V)) :
  NoDup (map fst d) -> NoDup (map fst (assoc_set eqb k v d)) /\
  (forall x, In x (map fst (assoc_set eqb k v d)) <-> x = k \/ In x (map fst d)).
Proof.
  induction d as [|[k' v'] d IH]; simpl; intros Hd.
  - split; [repeat constructor; auto | intros x; intuition].
  - inversion Hd as [|? ? Hn Hd']; subst.
    destruct (IH Hd') as [IH1 IH2].
    destruct (eqb k k') eqn:E; simpl.
    + apply eqb_eq in E; subst k'. split; [assumption | intros x; intuition].
    + split.
      * constructor; [|assumption]. rewrite IH2. intros [E'|Hin]; [|contradiction].
        subst k'. assert (eqb k k = true) by (apply eqb_eq; reflexivity). congruence.
      * intros x; rewrite IH2; intuition.
Qed.

Lemma assoc_get_NoDup_In (k : K) (v : V) (d : list (K * V)) :
  NoDup (map fst d) -> In (k, v) d -> assoc_get eqb k d = Some v.
Proof.
  induction d as [|[k' v'] d IH]; simpl; intros Hd Hin; [contradiction|].
  inversion Hd as [|? ? Hn Hd']; subst.
  destruct Hin as [E|Hin].
  - inversion E; subst. replace (eqb k k) with true; [reflexivity|].
    symmetry; apply eqb_eq; reflexivity.
  - destruct (eqb k k') eqn:E.
    + apply eqb_eq in E; subst k'. exfalso; apply Hn.
      apply in_map_iff; exists (k, v); auto.
    + auto.
Qed.

Lemma assoc_get_filter (p : K * V -> bool) (k : K) (d : list (K * V)) :
  NoDup (map fst d) ->
  assoc_get eqb k (filter p d) =
  match assoc_get eqb k d with
  | Some v => if p (k, v) then Some v else None
  | None => None
  end.
Proof.
  induction d as [|[k' v'] d IH]; simpl; intros Hd; [reflexivity|].
  inversion Hd as [|? ? Hn Hd']; subst.
  destruct (eqb k k') eqn:E.
  - apply eqb_eq in E; subst k'.
    destruct (p (k, v')) eqn:Ep; simpl.
    + replace (eqb k k) with true; [reflexivity|].
      symmetry; apply eqb_eq; reflexivity.
    + rewrite (IH Hd').
      destruct (assoc_get eqb k d) as [v|] eqn:G; [|reflexivity].
      exfalso; apply Hn. apply in_map_iff; exists (k, v); split; auto.
      apply assoc_get_In; assumption.
  - destruct (p (k', v')); simpl; [rewrite E|]; apply IH; assumption.
Qed.

End AssocFacts.

Lemma dict_get_set_same (k v : cell) (d : dict) :
  dict_get k (dict_set k v d) = Some v.
Proof. exact (@assoc_get_set_same _ _ _ cell_eqb_eq k v d). Qed.

Lemma dict_get_set_other (k k0 v : cell) (d : dict) :
  k0 <> k -> dict_get k0 (dict_set k v d) = dict_get k0 d.
Proof. exact (@assoc_get_set_other _ _ _ cell_eqb_eq k k0 v d). Qed.

Lemma dict_set_keys (k v : cell) (d : dict) :
  NoDup (map fst d) -> NoDup (map fst (dict_set k v d)).
Proof. intros H; exact (proj1 (@assoc_set_keys _ _ _ cell_eqb_eq k v d H)). Qed.

(** ** Facts on [_merge_fits_rows] *)

Module MergeRowsFacts.

Import MergeRows.

(** The range the candidates are drawn from, and the test that keeps the
    unused ones. *)
Definition id_range (m : nat) : list cell :=
  map (fun n => CInt (Z.of_nat n)) (seq 1 m).

Definition unused (used : list cell) (c : cell) : bool := negb (mem c used).

Lemma candidate_ids_eq (id1 id2 : list cell) :
  candidate_ids id1 id2 =
  filter (unused (id1 ++ id2)) (id_range (length id1 + length id2)).
Proof. reflexivity. Qed.

Lemma NoDup_id_range (m : nat) : NoDup (id_range m).
Proof.
  unfold id_range. apply Finite.Injective_map_NoDup; [|apply seq_NoDup].
  intros x y H; inversion H; lia.
Qed.

Lemma length_id_range (m : nat) : length (id_range m) = m.
Proof. unfold id_range; rewrite length_map, length_seq; reflexivity. Qed.

Lemma filter_range_head (p : cell -> bool) (len start : nat) (c : cell)
      (rest : list cell) :
  filter p (map (fun n => CInt (Z.of_nat n)) (seq start len)) = c :: rest ->
  exists k, start <= k < start + len /\ c = CInt (Z.of_nat k) /\
            p c = true /\
            forall k', start <= k' < k -> p (CInt (Z.of_nat k')) = false.
Proof.
  revert start; induction len as [|len IH]; simpl; intros start H;
    [discriminate|].
  destruct (p (CInt (Z.of_nat start))) eqn:E.
  - inversion H; subst. exists start.
    split; [lia|]. split; [reflexivity|]. split; [assumption|].
    intros k' Hk; lia.
  - destruct (IH _ H) as [k [Hk [Hc [Hp Hl]]]].
    exists k. split; [lia|]. split; [assumption|]. split; [assumption|].
    intros k' Hk'. destruct (Nat.eq_dec k' start); [subst; assumption|].
    apply Hl; lia.
Qed.

Lemma filter_filter {A : Type} (f g : A -> bool) (l : list A) :
  filter f (filter g l) = filter (fun x => g x && f x) l.
Proof.
  induction l as [|a l IH]; simpl; [reflexivity|].
  destruct (g a); simpl; [destruct (f a)|]; rewrite IH; reflexivity.
Qed.

Lemma filter_all {A : Type} (f : A -> bool) (l : list A) :
  (forall x, In x l -> f x = true) -> filter f l = l.
Proof.
  induction l as [|a l IH]; simpl; intros H; [reflexivity|].
  rewrite (H a) by auto. f_equal; apply IH; auto.
Qed.

Lemma length_filter_split {A : Type} (f : A -> bool) (l : list A) :
  length (filter f l) + length (filter (fun x => negb (f x)) l) = length l.
Proof.
  induction l as [|a l IH]; simpl; [reflexivity|].
  destruct (f a); simpl; lia.
Qed.

(** Popping the first candidate amounts to marking it used. *)
Lemma filter_unused_pop (used used' R : list cell) (c : cell)
      (rest : list cell) :
  NoDup R ->
  filter (unused used) R = c :: rest ->
  (forall x, In x used' <-> In x used \/ x = c) ->
  filter (unused used') R = rest.
Proof.
  intros HR Hf Hu.
  assert (Hnd : NoDup (c :: rest)).
  { rewrite <- Hf; apply NoDup_filter; assumption. }
  rewrite (filter_ext (unused used')
             (fun x => unused used x && negb (cell_eqb x c))).
  - rewrite <- filter_filter, Hf. simpl. rewrite cell_eqb_refl; simpl.
    apply filter_all. intros x Hx.
    destruct (cell_eqb x c) eqn:E; [|reflexivity].
    apply cell_eqb_eq in E; subst. inversion Hnd; contradiction.
  - intros x. unfold unused.
    destruct (mem x used') eqn:E1, (mem x used) eqn:E2,
             (cell_eqb x c) eqn:E3; simpl; try reflexivity; exfalso.
    + apply mem_In in E1. apply Hu in E1. apply mem_not_In in E2.
      apply cell_eqb_neq in E3. tauto.
    + apply mem_not_In in E1. apply E1, Hu. left; apply mem_In; assumption.
    + apply mem_not_In in E1. apply E1, Hu. left; apply mem_In; assumption.
    + apply mem_not_In in E1. apply E1, Hu. right; apply cell_eqb_eq;
        assumption.
Qed.

Lemma filter_unused_same (used used' R : list cell) :
  (forall x, In x used' <-> In x used) ->
  filter (unused used') R = filter (unused used) R.
Proof.
  intros Hu. apply filter_ext. intros x. unfold unused. f_equal.
  destruct (mem x used) eqn:E.
  - apply mem_In, Hu, mem_In; assumption.
  - apply mem_not_In. intros H. apply Hu in H. apply mem_not_In in E. tauto.
Qed.


(** *** List positions *)

Lemma nth_error_firstn_S {A : Type} (l : list A) (n : nat) (a : A) :
  nth_error l n = Some a -> firstn (S n) l = firstn n l ++ [a].
Proof.
  revert n; induction l as [|x l IH]; intros [|n]; simpl; intros H;
    try discriminate.
  - inversion H; reflexivity.
  - f_equal; apply IH; assumption.
Qed.

Lemma nth_error_decompose {A : Type} (l : list A) (n : nat) (a : A) :
  nth_error l n = Some a -> l = firstn n l ++ a :: skipn (S n) l.
Proof.
  revert n; induction l as [|x l IH]; intros [|n]; simpl; intros H;
    try discriminate.
  - inversion H; reflexivity.
  - f_equal; apply IH; assumption.
Qed.

Lemma NoDup_nth_not_before {A : Type} (l : list A) (n : nat) (a : A) :
  NoDup l -> nth_error l n = Some a -> ~ In a (firstn n l).
Proof.
  intros Hnd Hn Hin. rewrite (nth_error_decompose _ _ Hn) in Hnd.
  apply NoDup_remove_2 in Hnd. apply Hnd, in_or_app; left; assumption.
Qed.

Lemma nth_error_combine {A B : Type} (l1 : list A) (l2 : list B) (n : nat)
      (a : A) (b : B) :
  nth_error (combine l1 l2) n = Some (a, b) ->
  nth_error l1 n = Some a /\ nth_error l2 n = Some b.
Proof.
  revert l2 n; induction l1 as [|x l1 IH]; intros [|y l2] [|n]; simpl;
    intros H; try discriminate.
  - inversion H; auto.
  - apply IH; assumption.
Qed.

Lemma first_true_lt (l : list bool) (i : nat) :
  first_true l = Some i -> i < length l.
Proof.
  revert i; induction l as [|b l IH]; simpl; intros i H; [discriminate|].
  destruct b; [inversion H; lia|].
  destruct (first_true l); [|discriminate]. inversion H; subst.
  specialize (IH _ eq_refl); lia.
Qed.

Lemma first_true_None {A : Type} (f : A -> bool) (l : list A) :
  first_true (map f l) = None <-> forall x, In x l -> f x = false.
Proof.
  induction l as [|a l IH]; simpl.
  - split; [intros _ x []|reflexivity].
  - destruct (f a) eqn:E.
    + split; [discriminate|]. intros H. rewrite (H a) in E by auto.
      discriminate.
    + destruct (first_true (map f l)).
      * split; [discriminate|]. intros H.
        assert (Some n = None) by (apply IH; auto). discriminate.
      * split; [|reflexivity]. intros _ x [<-|Hx]; [assumption|].
        apply IH; auto.
Qed.

Lemma NoDup_snoc {A : Type} (l : list A) (a : A) :
  NoDup l -> ~ In a l -> NoDup (l ++ [a]).
Proof.
  intros Hl Ha. apply NoDup_app; [assumption | repeat constructor; auto |].
  intros x Hx [<-|[]]. contradiction.
Qed.

(** *** The loop over the rows of one input *)

(** The smallest positive integer that is not among [used]. *)
Definition least_unused (used : list cell) (v : cell) : Prop :=
  exists z : Z, v = CInt z /\ (1 <= z)%Z /\ ~ In (CInt z) used /\
                forall z' : Z, (1 <= z' < z)%Z -> In (CInt z') used.

Section RowLoop.

Variable equality : row -> row -> bool.
Variable kept : list fits_rec.
Variables id1_0 id2 : list cell.
Variable rows2 : list row.

(** What holds after [n] rows: [added] are the identifiers appended to
    [id1], [kept_ids] the original identifiers of the kept rows. *)
Record row_inv (n : nat) (st : loop_state) (added kept_ids : list cell)
  : Prop := {
  inv_cand : st_candidate_id2 st =
             filter (unused (st_id1 st ++ id2))
                    (id_range (length id1_0 + length id2));
  inv_id1 : st_id1 st = id1_0 ++ added;
  inv_count : length (filter (unused id2) added)
              <= length (filter (fun x => mem x id1_0) (firstn n id2));
  inv_old : forall x, In x added -> In x id2 -> In x (firstn n id2);
  inv_lines : Forall2 (fun j k => exists r,
                           nth_error (combine id2 rows2) j = Some (k, r))
                      (st_kept_lines st) kept_ids;
  inv_map : Forall2 (fun k v => dict_get k (st_index_map st) = Some v)
                    kept_ids added;
  inv_keys : forall k, dict_get k (st_index_map st) <> None ->
                       In k (firstn n id2);
  inv_dkeys : NoDup (map fst (st_index_map st));
  inv_nodup : NoDup id1_0 -> NoDup (st_id1 st)
}.

Lemma row_inv_init :
  row_inv 0 {| st_id1 := id1_0;
               st_candidate_id2 := candidate_ids id1_0 id2;
               st_index_map := [];
               st_kept_lines := [] |} [] [].
Proof.
  constructor; simpl.
  - reflexivity.
  - rewrite app_nil_r; reflexivity.
  - lia.
  - intros x [].
  - constructor.
  - constructor.
  - intros k H; congruence.
  - constructor.
  - auto.
Qed.

(** A collision leaves a candidate to pop, when the identifiers of the
    input are distinct. *)
Lemma collision_has_candidate (n : nat) (st : loop_state)
      (added kept_ids : list cell) (i2 : cell) :
  NoDup id2 ->
  nth_error id2 n = Some i2 ->
  row_inv n st added kept_ids ->
  mem i2 (st_id1 st) = true ->
  In i2 id1_0 /\ st_candidate_id2 st <> [].
Proof.
  intros Hnd Hn I Hmem.
  assert (Hi2 : In i2 id2) by (eapply nth_error_In; eassumption).
  assert (H0 : In i2 id1_0).
  { apply mem_In in Hmem. rewrite (inv_id1 I) in Hmem.
    apply in_app_or in Hmem. destruct Hmem as [H|H]; [assumption|].
    exfalso. eapply NoDup_nth_not_before; [exact Hnd | exact Hn |].
    apply (inv_old I); assumption. }
  split; [assumption|]. intros Hnil.
  set (L := id1_0 ++ filter (fun x => negb (mem x id1_0)) id2
                  ++ filter (unused id2) added).
  assert (Hincl : incl (id_range (length id1_0 + length id2)) L).
  { intros x Hx.
    assert (Hu : unused (st_id1 st ++ id2) x = false).
    { destruct (unused (st_id1 st ++ id2) x) eqn:E; [|reflexivity].
      assert (In x (st_candidate_id2 st)).
      { rewrite (inv_cand I). apply filter_In; auto. }
      rewrite Hnil in H. destruct H. }
    unfold unused in Hu. apply negb_false_iff, mem_In in Hu.
    rewrite (inv_id1 I) in Hu. unfold L.
    destruct (mem x id1_0) eqn:E1.
    { apply in_or_app; left; apply mem_In; assumption. }
    apply in_or_app; right.
    destruct (mem x id2) eqn:E2.
    { apply in_or_app; left. apply filter_In. rewrite E1.
      split; [apply mem_In; assumption | reflexivity]. }
    apply in_or_app; right. apply filter_In. unfold unused. rewrite E2.
    split; [|reflexivity].
    apply mem_not_In in E1. apply mem_not_In in E2.
    rewrite !in_app_iff in Hu. tauto. }
  apply NoDup_incl_length in Hincl; [|apply NoDup_id_range].
  rewrite length_id_range in Hincl. unfold L in Hincl.
  rewrite !length_app in Hincl.
  pose proof (length_filter_split (fun x => mem x id1_0) id2) as Hs.
  pose proof (inv_count I) as Hc.
  assert (Hlt : length (filter (fun x => mem x id1_0) (firstn n id2))
                < length (filter (fun x => mem x id1_0) id2)).
  { rewrite (nth_error_decompose _ _ Hn) at 2.
    rewrite filter_app, length_app. simpl.
    replace (mem i2 id1_0) with true by (symmetry; apply mem_In; assumption).
    simpl. lia. }
  lia.
Qed.


Lemma firstn_S_incl (n : nat) (i2 : cell) :
  nth_error id2 n = Some i2 ->
  forall x, In x (firstn n id2) -> In x (firstn (S n) id2).
Proof.
  intros Hn x Hx. rewrite (nth_error_firstn_S _ _ Hn).
  apply in_or_app; left; assumption.
Qed.

Lemma count_mono (n : nat) (i2 : cell) :
  nth_error id2 n = Some i2 ->
  length (filter (fun x => mem x id1_0) (firstn (S n) id2)) =
  length (filter (fun x => mem x id1_0) (firstn n id2))
  + (if mem i2 id1_0 then 1 else 0).
Proof.
  intros Hn. rewrite (nth_error_firstn_S _ _ Hn), filter_app, length_app.
  simpl. destruct (mem i2 id1_0); reflexivity.
Qed.

(** Setting the entry of the current row keeps the entries of the rows
    kept before it. *)
Lemma map_entries_kept (n : nat) (st : loop_state)
      (added kept_ids : list cell) (i2 v : cell) :
  NoDup id2 ->
  nth_error id2 n = Some i2 ->
  row_inv n st added kept_ids ->
  Forall2 (fun k w => dict_get k (dict_set i2 v (st_index_map st)) = Some w)
          kept_ids added.
Proof.
  intros Hnd Hn I.
  eapply Forall2_impl; [|exact (inv_map I)].
  intros k w Hk. simpl in Hk.
  rewrite dict_get_set_other; [assumption|].
  intros ->. eapply NoDup_nth_not_before; [exact Hnd | exact Hn |].
  apply (inv_keys I). congruence.
Qed.

Lemma map_keys_step (n : nat) (st : loop_state)
      (added kept_ids : list cell) (i2 v : cell) :
  nth_error id2 n = Some i2 ->
  row_inv n st added kept_ids ->
  forall k, dict_get k (dict_set i2 v (st_index_map st)) <> None ->
            In k (firstn (S n) id2).
Proof.
  intros Hn I k Hk. rewrite (nth_error_firstn_S _ _ Hn).
  apply in_or_app. destruct (cell_eq_dec k i2) as [->|Hne].
  - right; left; reflexivity.
  - left. apply (inv_keys I).
    rewrite dict_get_set_other in Hk; assumption.
Qed.

(** One row: the step returns, the invariant is kept, and a row that
    matches no accepted row is kept with its own identifier when that
    is free, and with the smallest unused positive integer otherwise. *)
Lemma row_step_inv (n : nat) (st : loop_state)
      (added kept_ids : list cell) (i2 : cell) (row2 : row) :
  NoDup id2 ->
  length (flat_map rec_rows kept) <= length id1_0 ->
  nth_error (combine id2 rows2) n = Some (i2, row2) ->
  row_inv n st added kept_ids ->
  exists st' added' kept_ids',
    row_step equality kept st (n, (i2, row2)) = Ok st' /\
    row_inv (S n) st' added' kept_ids' /\
    (first_true (map (equality row2) (flat_map rec_rows kept)) = None ->
     exists v,
       added' = added ++ [v] /\ kept_ids' = kept_ids ++ [i2] /\
       st_id1 st' = st_id1 st ++ [v] /\
       st_kept_lines st' = st_kept_lines st ++ [n] /\
       st_index_map st' = dict_set i2 v (st_index_map st) /\
       (mem i2 (st_id1 st) = false -> v = i2) /\
       (mem i2 (st_id1 st) = true ->
        least_unused (st_id1 st ++ id2) v)) /\
    (first_true (map (equality row2) (flat_map rec_rows kept)) <> None ->
     added' = added /\ kept_ids' = kept_ids /\
     st_kept_lines st' = st_kept_lines st).
Proof.
  intros Hnd Hlen Hnth I.
  destruct (nth_error_combine _ _ _ Hnth) as [Hn Hr].
  assert (Hi2 : In i2 id2) by (eapply nth_error_In; eassumption).
  unfold row_step.
  destruct (first_true (map (equality row2) (flat_map rec_rows kept)))
    as [i|] eqn:Eft.
  - (* a duplicate of an accepted row *)
    apply first_true_lt in Eft. rewrite length_map in Eft.
    destruct (nth_error (st_id1 st) i) as [v|] eqn:Ev.
    2:{ apply nth_error_None in Ev. rewrite (inv_id1 I), length_app in Ev.
        lia. }
    eexists; exists added, kept_ids. split; [reflexivity|].
    split; [|split; [intros H; discriminate | auto]].
    constructor;
        cbn [st_id1 st_candidate_id2 st_index_map st_kept_lines].
    + apply (inv_cand I).
    + apply (inv_id1 I).
    + rewrite (count_mono _ Hn). pose proof (inv_count I). lia.
    + intros x Hx Hx2. eapply firstn_S_incl; [eassumption|].
      apply (inv_old I); assumption.
    + apply (inv_lines I).
    + eapply map_entries_kept; eassumption.
    + eapply map_keys_step; eassumption.
    + apply dict_set_keys, (inv_dkeys I).
    + apply (inv_nodup I).
  - destruct (mem i2 (st_id1 st)) eqn:Emem.
    + (* the identifier is taken: pop a candidate *)
      destruct (collision_has_candidate Hnd Hn I Emem) as [H0 Hne].
      destruct (st_candidate_id2 st) as [|c rest] eqn:Ec;
        [congruence|].
      pose proof (inv_cand I) as Hcand. rewrite Ec in Hcand.
      symmetry in Hcand.
      destruct (filter_range_head _ _ _ Hcand) as [k [Hk [Hck [Hp Hl]]]].
      assert (Hcu : ~ In c (st_id1 st ++ id2)).
      { unfold unused in Hp. apply negb_true_iff, mem_not_In in Hp.
        assumption. }
      eexists; exists (added ++ [c]), (kept_ids ++ [i2]).
      split; [reflexivity|].
      split; [|split; [intros _ | intros H; congruence]].
      * constructor;
        cbn [st_id1 st_candidate_id2 st_index_map st_kept_lines].
        -- symmetry. eapply filter_unused_pop;
             [apply NoDup_id_range | exact Hcand |].
           intros x. rewrite !in_app_iff. simpl.
           intuition (subst; auto).
        -- rewrite (inv_id1 I), app_assoc; reflexivity.
        -- rewrite (count_mono _ Hn).
           rewrite filter_app, length_app. simpl.
           replace (unused id2 c) with true.
           2:{ symmetry. unfold unused. apply negb_true_iff, mem_not_In.
               intros H; apply Hcu, in_or_app; right; assumption. }
           replace (mem i2 id1_0) with true
             by (symmetry; apply mem_In; assumption).
           pose proof (inv_count I). simpl. lia.
        -- intros x Hx Hx2. eapply firstn_S_incl; [eassumption|].
           apply (inv_old I); [|assumption].
           apply in_app_or in Hx. destruct Hx as [Hx|[<-|[]]];
             [assumption|].
           exfalso; apply Hcu, in_or_app; right; assumption.
        -- apply Forall2_app; [apply (inv_lines I)|].
           constructor; [exists row2; assumption | constructor].
        -- apply Forall2_app; [eapply map_entries_kept; eassumption|].
           constructor; [|constructor].
           apply dict_get_set_same.
        -- eapply map_keys_step; eassumption.
        -- apply dict_set_keys, (inv_dkeys I).
        -- intros H. apply NoDup_snoc; [apply (inv_nodup I); assumption|].
           intros Hin; apply Hcu, in_or_app; left; assumption.
      * exists c. repeat split; try reflexivity.
        -- intros H; discriminate.
        -- intros _. exists (Z.of_nat k). repeat split.
           ++ assumption.
           ++ lia.
           ++ rewrite <- Hck; assumption.
           ++ intros z' Hz'.
              assert (Hu := Hl (Z.to_nat z') ltac:(lia)).
              rewrite Z2Nat.id in Hu by lia.
              unfold unused in Hu. apply negb_false_iff, mem_In in Hu.
              assumption.
    + (* the identifier is free: keep it *)
      apply mem_not_In in Emem.
      eexists; exists (added ++ [i2]), (kept_ids ++ [i2]).
      split; [reflexivity|].
      split; [|split; [intros _ | intros H; congruence]].
      * constructor;
        cbn [st_id1 st_candidate_id2 st_index_map st_kept_lines].
        -- rewrite (inv_cand I). symmetry. apply filter_unused_same.
           intros x. rewrite !in_app_iff. simpl.
           split; [intros [[H|[<-|[]]]|H]; auto | tauto].
        -- rewrite (inv_id1 I), app_assoc; reflexivity.
        -- rewrite (count_mono _ Hn).
           rewrite filter_app, length_app. simpl.
           replace (unused id2 i2) with false.
           2:{ symmetry. unfold unused. apply negb_false_iff, mem_In.
               assumption. }
           pose proof (inv_count I). simpl. lia.
        -- intros x Hx Hx2. apply in_app_or in Hx.
           destruct Hx as [Hx|[<-|[]]].
           ++ eapply firstn_S_incl; [eassumption|].
              apply (inv_old I); assumption.
           ++ rewrite (nth_error_firstn_S _ _ Hn).
              apply in_or_app; right; left; reflexivity.
        -- apply Forall2_app; [apply (inv_lines I)|].
           constructor; [exists row2; assumption | constructor].
        -- apply Forall2_app; [eapply map_entries_kept; eassumption|].
           constructor; [|constructor].
           apply dict_get_set_same.
        -- eapply map_keys_step; eassumption.
        -- apply dict_set_keys, (inv_dkeys I).
        -- intros H. apply NoDup_snoc; [apply (inv_nodup I); assumption|].
           assumption.
      * exists i2. repeat split; try reflexivity.
        intros H; discriminate.
Qed.

End RowLoop.

(** *** Loops over an enumeration *)

Lemma foldM_enumerate_from {A St : Type} (f : St -> nat * A -> result St)
      (P : nat -> St -> Prop) (l : list A) :
  forall (start : nat) (s : St),
    (forall n a s, nth_error l n = Some a -> P (start + n) s ->
                   exists s', f s (start + n, a) = Ok s' /\
                              P (S (start + n)) s') ->
    P start s ->
    exists s', foldM f (enumerate_from start l) s = Ok s' /\
               P (start + length l) s'.
Proof.
  induction l as [|a l IH]; simpl; intros start s Hstep H0.
  - exists s; rewrite Nat.add_0_r; auto.
  - destruct (Hstep 0 a s eq_refl) as [s1 [E1 P1]].
    { rewrite Nat.add_0_r; assumption. }
    rewrite Nat.add_0_r in E1, P1. rewrite E1; simpl.
    destruct (IH (S start) s1) as [s' [E' P']].
    + intros n b s2 Hn Hp.
      replace (S start + n) with (start + S n) in * by lia.
      apply (Hstep (S n) b s2); assumption.
    + assumption.
    + exists s'. replace (start + S (length l)) with (S start + length l)
        by lia. auto.
Qed.

Lemma enumerate_from_split {A : Type} (l : list A) :
  forall (start : nat) (pre suf : list (nat * A)) (j : nat) (a : A),
    enumerate_from start l = pre ++ (j, a) :: suf ->
    j = start + length pre /\ nth_error l (length pre) = Some a /\
    pre = enumerate_from start (firstn (length pre) l).
Proof.
  induction l as [|x l IH]; simpl; intros start pre suf j a H.
  - destruct pre; discriminate.
  - destruct pre as [|p pre]; simpl in *.
    + inversion H; subst. repeat split; lia.
    + inversion H; subst.
      destruct (IH _ _ _ _ _ H2) as [Hj [Hn Hp]].
      repeat split; [lia | assumption | f_equal; assumption].
Qed.

Lemma nth_error_firstn_Some {A : Type} (l : list A) (k n : nat) (a : A) :
  nth_error (firstn k l) n = Some a -> nth_error l n = Some a.
Proof.
  revert k n; induction l as [|x l IH]; intros [|k] [|n]; simpl; intros H;
    try discriminate; auto.
  eapply IH; eassumption.
Qed.

Section InputLoop.

Variable equality : row -> row -> bool.
Variable kept : list fits_rec.
Variables id1_0 id2 : list cell.
Variable rows2 : list row.
Hypothesis Hnd : NoDup id2.
Hypothesis Hlen : length (flat_map rec_rows kept) <= length id1_0.

Let st0 := {| st_id1 := id1_0;
              st_candidate_id2 := candidate_ids id1_0 id2;
              st_index_map := [];
              st_kept_lines := [] |}.

(** The rows before position [k] are processed without an exception,
    and the invariant holds after them. *)
Lemma row_loop_prefix (k : nat) :
  exists st added kept_ids,
    foldM (row_step equality kept)
          (enumerate (firstn k (combine id2 rows2))) st0 = Ok st /\
    row_inv id1_0 id2 rows2
            (length (firstn k (combine id2 rows2))) st added kept_ids.
Proof.
  destruct (@foldM_enumerate_from _ _ (row_step equality kept)
              (fun n st => exists added kept_ids,
                   row_inv id1_0 id2 rows2 n st added kept_ids)
              (firstn k (combine id2 rows2)) 0 st0)
    as [st [E [added [kept_ids I]]]].
  - intros n [i2 row2] st Hn [added [kept_ids I]]. simpl in *.
    apply nth_error_firstn_Some in Hn.
    destruct (row_step_inv equality kept Hnd Hlen Hn I)
      as [st' [added' [kept_ids' [E [I' _]]]]].
    exists st'; split; [assumption|]. exists added', kept_ids'; assumption.
  - exists [], []. apply row_inv_init.
  - exists st, added, kept_ids. auto.
Qed.

Lemma row_loop_total :
  exists st added kept_ids,
    foldM (row_step equality kept) (enumerate (combine id2 rows2)) st0
    = Ok st /\
    row_inv id1_0 id2 rows2 (length (combine id2 rows2)) st added kept_ids.
Proof.
  destruct (row_loop_prefix (length (combine id2 rows2)))
    as [st [added [kept_ids [E I]]]].
  rewrite firstn_all in E, I. exists st, added, kept_ids; auto.
Qed.

End InputLoop.

End MergeRowsFacts.

(** ** Columns of record arrays *)

Lemma mapM_field (name : string) (rows : list row) (ids : list cell) :
  mapM (fun r => match field name r with
                 | Some c => Ok c
                 | None => Raise KeyError
                 end) rows = Ok ids
  <-> map (field name) rows = map Some ids.
Proof.
  revert ids; induction rows as [|r rows IH]; simpl; intros ids.
  - split; intros H.
    + inversion H; reflexivity.
    + destruct ids; [reflexivity | discriminate].
  - destruct (field name r) as [c|]; simpl.
    + destruct (mapM _ rows) as [bs|e] eqn:E; simpl.
      * split; intros H.
        -- inversion H; subst. simpl. f_equal. apply IH; reflexivity.
        -- destruct ids as [|i ids]; [discriminate|]. simpl in H.
           inversion H; subst. f_equal. f_equal.
           assert (Ok bs = Ok ids) as E' by (apply IH; assumption).
           inversion E'; reflexivity.
      * split; [discriminate|]. intros H.
        destruct ids as [|i ids]; [discriminate|]. simpl in H.
        inversion H. assert (Raise e = Ok ids) by (apply IH; assumption).
        discriminate.
    + split; [discriminate|]. intros H.
      destruct ids; simpl in H; discriminate.
Qed.

Lemma column_Ok (name : string) (d : fits_rec) (ids : list cell) :
  column name d = Ok ids
  <-> has_name name (rec_names d) = true
      /\ map (field name) (rec_rows d) = map Some ids.
Proof.
  unfold column. destruct (has_name name (rec_names d)).
  - rewrite mapM_field. tauto.
  - split; [discriminate | intros [H _]; discriminate].
Qed.

Lemma column_length (name : string) (d : fits_rec) (ids : list cell) :
  column name d = Ok ids -> length ids = length (rec_rows d).
Proof.
  intros H. apply column_Ok in H. destruct H as [_ H].
  apply (f_equal (@length _)) in H. rewrite !length_map in H. auto.
Qed.

Lemma select_rows_fields (name : string) (rows : list row)
      (id2 : list cell) (lines : list nat) (kept_ids : list cell) :
  map (field name) rows = map Some id2 ->
  Forall2 (fun j k => exists r, nth_error (combine id2 rows) j = Some (k, r))
          lines kept_ids ->
  map (field name) (select_rows rows lines) = map Some kept_ids
  /\ length (select_rows rows lines) = length lines
  /\ incl (select_rows rows lines) rows.
Proof.
  intros Hf H. induction H as [|j k lines kept_ids [r Hj] _ IH]; simpl.
  - repeat split. intros x [].
  - destruct IH as [IH1 [IH2 IH3]].
    apply MergeRowsFacts.nth_error_combine in Hj. destruct Hj as [Hk Hr].
    unfold select_rows in *. simpl. rewrite Hr. simpl.
    assert (Hfr : field name r = Some k).
    { pose proof (map_nth_error (field name) _ _ Hr) as H1.
      pose proof (map_nth_error (@Some cell) _ _ Hk) as H2.
      rewrite Hf in H1. congruence. }
    repeat split.
    + rewrite Hfr, IH1; reflexivity.
    + rewrite IH2; reflexivity.
    + intros x [<-|Hx]; [eapply nth_error_In; eassumption | auto].
Qed.

Lemma default_changed_entries (d : dict) (k v : cell) :
  NoDup (map fst d) -> dict_get k d = Some v ->
  dict_get_default (MergeRows.changed_entries d) k = v.
Proof.
  intros Hd Hk. unfold dict_get_default, MergeRows.changed_entries.
  rewrite (@assoc_get_filter _ _ _ cell_eqb_eq _ k d Hd), Hk. simpl.
  destruct (cell_eqb k v) eqn:E; simpl; [|reflexivity].
  apply cell_eqb_eq in E; assumption.
Qed.

Lemma combine_app {A B : Type} (l1 l2 : list A) (k1 k2 : list B) :
  length l1 = length k1 ->
  combine (l1 ++ l2) (k1 ++ k2) = combine l1 k1 ++ combine l2 k2.
Proof.
  revert k1; induction l1 as [|a l1 IH]; intros [|b k1]; simpl; intros H;
    try discriminate; [reflexivity|].
  f_equal. apply IH. lia.
Qed.

(** ** One input, and all inputs, of [_merge_fits_rows] *)

Module MergeInputs.

Import MergeRows MergeRowsFacts.

Section Inputs.

Variable equality : row -> row -> bool.
Variable id_name : string.

(** The body of the loop over the inputs returns: the identifiers it
    appends to [id1] are those its map gives to the rows it keeps. *)
Lemma input_step_total (ms : merge_state) (rows2 : fits_rec)
      (id2 : list cell) :
  column id_name rows2 = Ok id2 ->
  NoDup id2 ->
  length (flat_map rec_rows (ms_kept ms)) <= length (ms_id1 ms) ->
  exists ms' kept2 map2 added kept_ids,
    input_step equality id_name ms rows2 = Ok ms' /\
    ms_id1 ms' = ms_id1 ms ++ added /\
    ms_kept ms' = ms_kept ms ++ [kept2] /\
    ms_maps ms' = ms_maps ms ++ [map2] /\
    rec_names kept2 = rec_names rows2 /\
    incl (rec_rows kept2) (rec_rows rows2) /\
    column id_name kept2 = Ok kept_ids /\
    map (dict_get_default map2) kept_ids = added /\
    length (rec_rows kept2) = length added /\
    (NoDup (ms_id1 ms) -> NoDup (ms_id1 ms')).
Proof.
  intros Hcol Hnd Hlen.
  destruct (@row_loop_total equality (ms_kept ms) (ms_id1 ms) id2
              (rec_rows rows2) Hnd Hlen)
    as [st [added [kept_ids [E I]]]].
  unfold input_step. rewrite Hcol. simpl. rewrite E. simpl.
  apply column_Ok in Hcol. destruct Hcol as [Hname Hf].
  destruct (select_rows_fields _ _ _ Hf (inv_lines I)) as [S1 [S2 S3]].
  eexists; eexists; eexists; exists added, kept_ids.
  split; [reflexivity|]. simpl.
  split; [apply (inv_id1 I)|].
  split; [reflexivity|]. split; [reflexivity|]. split; [reflexivity|].
  split; [assumption|].
  split; [apply column_Ok; simpl; auto|].
  split.
  - pose proof (inv_map I) as Hm. pose proof (inv_dkeys I) as Hk.
    clear - Hm Hk. induction Hm as [|k v ks vs Hkv _ IH]; simpl;
      [reflexivity|].
    f_equal; [|assumption]. apply default_changed_entries; assumption.
  - split; [|apply (inv_nodup I)].
    simpl. rewrite S2. pose proof (inv_lines I) as H1.
    pose proof (inv_map I) as H2.
    apply Forall2_length in H1, H2. lia.
Qed.

(** The identifier column of the merged table, read block by block:
    [[map.get(i, i) for i in data[id_name]]]. *)
Fixpoint block_ids (blocks : list (fits_rec * dict))
  : result (list cell) :=
  match blocks with
  | [] => Ok []
  | (data, map_) :: bs =>
      col <- column id_name data ;;
      rest <- block_ids bs ;;
      Ok (map (dict_get_default map_) col ++ rest)
  end.

Lemma block_ids_app (b1 b2 : list (fits_rec * dict))
      (ids1 ids2 : list cell) :
  block_ids b1 = Ok ids1 -> block_ids b2 = Ok ids2 ->
  block_ids (b1 ++ b2) = Ok (ids1 ++ ids2).
Proof.
  revert ids1; induction b1 as [|[d m] b1 IH]; simpl; intros ids1 H1 H2.
  - inversion H1; assumption.
  - inv_bind H1. inv_bind H1. inversion H1; subst.
    rewrite Ha. simpl. rewrite (IH _ Ha0 H2). simpl.
    rewrite app_assoc; reflexivity.
Qed.

Lemma dict_get_default_nil (l : list cell) :
  map (dict_get_default []) l = l.
Proof. induction l; simpl; [reflexivity | f_equal; assumption]. Qed.

(** What holds of the accumulators between two inputs. *)
Record merge_inv (ms : merge_state) : Prop := {
  mi_maps : length (ms_kept ms) = length (ms_maps ms);
  mi_ids : block_ids (combine (ms_kept ms) (ms_maps ms)) = Ok (ms_id1 ms);
  mi_rows : length (flat_map rec_rows (ms_kept ms)) = length (ms_id1 ms);
  mi_nodup : NoDup (ms_id1 ms)
}.

Definition unique_ids (d : fits_rec) : Prop :=
  exists ids, column id_name d = Ok ids /\ NoDup ids.

(** A kept block has the names of its input and rows of it. *)
Definition block_of (k d : fits_rec) : Prop :=
  rec_names k = rec_names d /\ incl (rec_rows k) (rec_rows d).

Lemma inputs_total (others : list fits_rec) :
  Forall unique_ids others ->
  forall ms, merge_inv ms ->
  exists ms' ks, foldM (input_step equality id_name) others ms = Ok ms' /\
                 merge_inv ms' /\
                 ms_kept ms' = ms_kept ms ++ ks /\
                 Forall2 block_of ks others.
Proof.
  induction 1 as [|rows2 others [id2 [Hcol Hnd]] _ IH]; simpl;
    intros ms I.
  - exists ms, []. rewrite app_nil_r. auto.
  - destruct (@input_step_total ms rows2 id2 Hcol Hnd)
      as [ms1 [kept2 [map2 [added [kept_ids
           [E [H1 [H2 [H3 [H4 [H5 [H6 [H7 [H8 H9]]]]]]]]]]]]]].
    { rewrite (mi_rows I); lia. }
    rewrite E; simpl.
    destruct (IH ms1) as [ms' [ks [E' [I' [Hk Hb]]]]].
    + constructor.
      * rewrite H2, H3, !length_app, (mi_maps I); reflexivity.
      * rewrite H2, H3, H1.
        rewrite combine_app by apply (mi_maps I).
        apply block_ids_app; [apply (mi_ids I)|].
        simpl. rewrite H6. simpl. rewrite H7, app_nil_r; reflexivity.
      * rewrite H2, H1, flat_map_app, !length_app, (mi_rows I). simpl.
        rewrite app_nil_r. lia.
      * apply H9, (mi_nodup I).
    + exists ms', (kept2 :: ks). split; [assumption|].
      split; [assumption|]. split.
      * rewrite Hk, H2, <- app_assoc; reflexivity.
      * constructor; [split; assumption | assumption].
Qed.

End Inputs.

End MergeInputs.

(** ** Filling the merged table *)

Module FillFacts.

Import MergeHelper.

(** A record array whose field names are distinct and whose rows have
    exactly these fields. *)
Definition wf_rec (d : fits_rec) : Prop :=
  NoDup (rec_names d) /\
  Forall (fun r => map fst r = rec_names d) (rec_rows d).

(** [old[rowmin:rowmin + len(values)] = values] *)
Definition splice {A : Type} (old : list A) (rowmin : nat) (values : list A)
  : list A :=
  firstn rowmin old ++ values ++ skipn (rowmin + length values) old.

Lemma field_None (name : string) (r : row) :
  field name r = None <-> ~ In name (map fst r).
Proof.
  induction r as [|[n c] r IH]; simpl; [tauto|].
  destruct (String.eqb n name) eqn:E.
  - apply String.eqb_eq in E. split; [discriminate | tauto].
  - apply String.eqb_neq in E. rewrite IH. tauto.
Qed.

Lemma field_set_field_same (name : string) (v : cell) (r : row) :
  field name (set_field name v r) =
  match field name r with Some _ => Some v | None => None end.
Proof.
  induction r as [|[n c] r IH]; simpl; [reflexivity|].
  destruct (String.eqb n name) eqn:E; simpl; rewrite E; auto.
Qed.

Lemma field_set_field_other (name name' : string) (v : cell) (r : row) :
  name' <> name -> field name' (set_field name v r) = field name' r.
Proof.
  intros Hne. induction r as [|[n c] r IH]; simpl; [reflexivity|].
  destruct (String.eqb n name) eqn:E; simpl.
  - apply String.eqb_eq in E; subst n.
    destruct (String.eqb name name') eqn:E'; [|reflexivity].
    apply String.eqb_eq in E'; congruence.
  - rewrite IH; reflexivity.
Qed.

Lemma map_fst_set_field (name : string) (v : cell) (r : row) :
  map fst (set_field name v r) = map fst r.
Proof.
  induction r as [|[n c] r IH]; simpl; [reflexivity|].
  destruct (String.eqb n name); simpl; [reflexivity | f_equal; assumption].
Qed.

Lemma write_rows_length (name : string) (values : list cell)
      (rows : list row) :
  forall rowmin, length (write_rows name rowmin values rows) = length rows.
Proof.
  revert values; induction rows as [|r rows IH]; intros values [|k]; simpl;
    auto.
  destruct values; simpl; auto.
Qed.

Lemma write_rows_names (name : string) (names : list string)
      (values : list cell) (rows : list row) :
  forall rowmin,
    Forall (fun r => map fst r = names) rows ->
    Forall (fun r => map fst r = names) (write_rows name rowmin values rows).
Proof.
  revert values; induction rows as [|r rows IH]; intros values rowmin H;
    simpl; [constructor|].
  inversion H; subst.
  destruct rowmin; [destruct values|]; constructor; auto.
  rewrite map_fst_set_field; reflexivity.
Qed.

Lemma write_rows_other (name name' : string) (values : list cell)
      (rows : list row) :
  name' <> name ->
  forall rowmin,
    map (field name') (write_rows name rowmin values rows)
    = map (field name') rows.
Proof.
  intros Hne. revert values; induction rows as [|r rows IH];
    intros values rowmin; simpl; [reflexivity|].
  destruct rowmin; [destruct values|]; simpl; try reflexivity.
  - rewrite field_set_field_other by assumption. f_equal; apply IH.
  - f_equal; apply IH.
Qed.

Lemma write_rows_same (name : string) (rows : list row) :
  forall (values old : list cell) (rowmin : nat),
    map (field name) rows = map Some old ->
    rowmin + length values <= length rows ->
    map (field name) (write_rows name rowmin values rows)
    = map Some (splice old rowmin values).
Proof.
  unfold splice.
  induction rows as [|r rows IH]; intros values old rowmin Hf Hlen.
  - simpl in Hlen. assert (rowmin = 0) by lia.
    assert (values = []) by (destruct values; simpl in *; [auto | lia]).
    subst. destruct old; [reflexivity | discriminate].
  - destruct old as [|o old]; [discriminate|]. simpl in Hf.
    inversion Hf as [[Hr Hrest]].
    destruct rowmin as [|k]; simpl.
    + destruct values as [|v vs]; simpl.
      * rewrite Hr, Hrest; reflexivity.
      * rewrite field_set_field_same, Hr. f_equal.
        simpl in Hlen. rewrite (IH vs old 0 Hrest) by lia. reflexivity.
    + rewrite Hr. f_equal. simpl in Hlen. apply IH; [assumption | lia].
Qed.

Lemma write_rows_outside (name : string) (rows : list row) :
  forall (values : list cell) (rowmin i : nat),
    i < rowmin \/ rowmin + length values <= i ->
    nth_error (write_rows name rowmin values rows) i = nth_error rows i.
Proof.
  induction rows as [|r rows IH]; intros values rowmin i Hi; simpl;
    [reflexivity|].
  destruct rowmin as [|k].
  - destruct values as [|v vs]; [reflexivity|].
    destruct i as [|i]; simpl in *; [lia|]. apply IH. right; lia.
  - destruct i as [|i]; simpl; [reflexivity|]. apply IH. lia.
Qed.

Lemma rows_have_field (name : string) (names : list string)
      (rows : list row) :
  In name names ->
  Forall (fun r => map fst r = names) rows ->
  exists col, map (field name) rows = map Some col.
Proof.
  intros Hin H. induction H as [|r rows Hr _ [col IH]].
  - exists []; reflexivity.
  - destruct (field name r) as [c|] eqn:E.
    + exists (c :: col); simpl; rewrite E, IH; reflexivity.
    + apply field_None in E. rewrite Hr in E. contradiction.
Qed.

Lemma wf_column (name : string) (d : fits_rec) :
  wf_rec d -> In name (rec_names d) -> exists col, column name d = Ok col.
Proof.
  intros [_ Hrows] Hin.
  destruct (rows_have_field _ Hin Hrows) as [col Hcol].
  exists col. apply column_Ok. split; [apply has_name_In|]; assumption.
Qed.

(** The values written for one field of one block. *)
Definition block_values (id_name : option string) (map_ : dict)
           (name : string) (col : list cell) : list cell :=
  if nonempty map_ && is_id_name id_name name
  then map (dict_get_default map_) col
  else col.

Lemma block_values_length id_name map_ name col :
  length (block_values id_name map_ name col) = length col.
Proof.
  unfold block_values. destruct (_ && _); [apply length_map | reflexivity].
Qed.

Section Block.

Variable id_name : option string.
Variable data : fits_rec.
Variable map_ : dict.
Variable rowmin : nat.
Hypothesis Hdata : wf_rec data.

Let body := fun merged name =>
  col <- column name data ;;
  let values :=
    if nonempty map_ && is_id_name id_name name
    then map (dict_get_default map_) col
    else col in
  assign_slice name rowmin values merged.

Lemma names_fold (ns : list string) :
  NoDup ns ->
  incl ns (rec_names data) ->
  forall merged,
    incl ns (rec_names merged) ->
    Forall (fun r => map fst r = rec_names merged) (rec_rows merged) ->
    rowmin + length (rec_rows data) <= length (rec_rows merged) ->
    exists merged',
      foldM body ns merged = Ok merged' /\
      rec_names merged' = rec_names merged /\
      length (rec_rows merged') = length (rec_rows merged) /\
      Forall (fun r => map fst r = rec_names merged) (rec_rows merged') /\
      (forall i, i < rowmin \/ rowmin + length (rec_rows data) <= i ->
                 nth_error (rec_rows merged') i
                 = nth_error (rec_rows merged) i) /\
      (forall t,
          (~ In t ns ->
           map (field t) (rec_rows merged')
           = map (field t) (rec_rows merged)) /\
          (In t ns ->
           forall col old,
             column t data = Ok col ->
             map (field t) (rec_rows merged) = map Some old ->
             map (field t) (rec_rows merged')
             = map Some (splice old rowmin
                                (block_values id_name map_ t col)))).
Proof.
  induction 1 as [|n ns Hn Hnd IH]; intros Hd merged Hm Hwf Hlen.
  - exists merged. simpl. repeat split; auto. intros [].
  - simpl. unfold body at 1.
    destruct (@wf_column n data Hdata) as [col Hcol];
      [apply Hd; left; reflexivity|].
    rewrite Hcol. simpl. unfold assign_slice.
    replace (has_name n (rec_names merged)) with true.
    2:{ symmetry; apply has_name_In, Hm; left; reflexivity. }
    fold (block_values id_name map_ n col).
    pose proof (column_length _ _ Hcol) as Hcl.
    replace (rowmin + length (block_values id_name map_ n col)
             <=? length (rec_rows merged)) with true.
    2:{ symmetry; apply Nat.leb_le.
        rewrite block_values_length, Hcl. assumption. }
    set (merged1 :=
           {| rec_names := rec_names merged;
              rec_rows := write_rows n rowmin
                            (block_values id_name map_ n col)
                            (rec_rows merged) |}).
    destruct (IH (fun x Hx => Hd x (or_intror Hx)) merged1)
      as [merged' [E [N [L [W [O T]]]]]].
    + intros x Hx; apply Hm; right; assumption.
    + simpl. apply write_rows_names; assumption.
    + simpl. rewrite write_rows_length; assumption.
    + exists merged'. split; [exact E|]. simpl in *.
      split; [assumption|].
      split; [rewrite L, write_rows_length; reflexivity|].
      split; [assumption|]. split.
      * intros i Hi. rewrite (O i Hi). apply write_rows_outside.
        rewrite block_values_length, Hcl. assumption.
      * intros t. split.
        -- intros Ht. rewrite (proj1 (T t)) by tauto.
           apply write_rows_other. intros ->; tauto.
        -- intros [<-|Ht] col' old Hc Ho.
           ++ rewrite (proj1 (T n) Hn).
              assert (col' = col) by congruence. subst col'.
              apply write_rows_same; [assumption|].
              rewrite block_values_length, Hcl; assumption.
           ++ apply (proj2 (T t) Ht); [assumption|].
              rewrite write_rows_other; [assumption|].
              intros ->; contradiction.
Qed.

(** One block is copied, into its rows only. *)
Lemma copy_rows_block (merged : fits_rec) :
  incl (rec_names data) (rec_names merged) ->
  Forall (fun r => map fst r = rec_names merged) (rec_rows merged) ->
  rowmin + length (rec_rows data) <= length (rec_rows merged) ->
  exists merged',
    copy_rows id_name (rowmin, merged) (data, map_)
    = Ok (rowmin + length (rec_rows data), merged') /\
    rec_names merged' = rec_names merged /\
    length (rec_rows merged') = length (rec_rows merged) /\
    Forall (fun r => map fst r = rec_names merged) (rec_rows merged') /\
    (forall i, i < rowmin \/ rowmin + length (rec_rows data) <= i ->
               nth_error (rec_rows merged') i
               = nth_error (rec_rows merged) i) /\
    (forall t,
        (~ In t (rec_names data) ->
         map (field t) (rec_rows merged')
         = map (field t) (rec_rows merged)) /\
        (In t (rec_names data) ->
         forall col old,
           column t data = Ok col ->
           map (field t) (rec_rows merged) = map Some old ->
           map (field t) (rec_rows merged')
           = map Some (splice old rowmin
                              (block_values id_name map_ t col)))).
Proof.
  intros Hm Hwf Hlen.
  destruct (@names_fold (rec_names data) (proj1 Hdata)
              (fun x Hx => Hx) merged Hm Hwf Hlen)
    as [merged' [E H]].
  exists merged'. split; [|exact H].
  unfold copy_rows. fold body. rewrite E. reflexivity.
Qed.

End Block.

Lemma splice_length {A : Type} (old values : list A) (rowmin : nat) :
  rowmin + length values <= length old ->
  length (splice old rowmin values) = length old.
Proof.
  intros H. unfold splice.
  rewrite !length_app, length_firstn, length_skipn. lia.
Qed.

Lemma splice_splice {A : Type} (old vals rest : list A) (rowmin : nat) :
  rowmin + length vals + length rest <= length old ->
  splice (splice old rowmin vals) (rowmin + length vals) rest
  = splice old rowmin (vals ++ rest).
Proof.
  intros H. unfold splice.
  assert (Hf : length (firstn rowmin old) = rowmin)
    by (rewrite length_firstn; lia).
  rewrite (app_assoc (firstn rowmin old) vals).
  rewrite firstn_app, skipn_app.
  rewrite length_app, Hf.
  rewrite firstn_all2 by (rewrite length_app, Hf; lia).
  replace (rowmin + length vals - (rowmin + length vals)) with 0 by lia.
  rewrite (skipn_all2 (firstn rowmin old ++ vals))
    by (rewrite length_app, Hf; lia).
  simpl. rewrite app_nil_r.
  replace (rowmin + length vals + length rest - (rowmin + length vals))
    with (length rest) by lia.
  rewrite skipn_skipn, length_app, <- !app_assoc.
  do 3 f_equal. f_equal. lia.
Qed.

Lemma splice_all {A : Type} (old values : list A) :
  length values = length old -> splice old 0 values = values.
Proof.
  intros H. unfold splice. simpl. rewrite H, skipn_all, app_nil_r.
  reflexivity.
Qed.

Definition total_rows (blocks : list (fits_rec * dict)) : nat :=
  list_sum (map (fun b => length (rec_rows (fst b))) blocks).

Section Fill.

Variable id_name : string.

Lemma block_values_id (map_ : dict) (col : list cell) :
  block_values (Some id_name) map_ id_name col
  = map (dict_get_default map_) col.
Proof.
  unfold block_values. simpl. rewrite String.eqb_refl.
  destruct map_; simpl; [|reflexivity].
  symmetry; apply MergeInputs.dict_get_default_nil.
Qed.

Lemma block_ids_length (blocks : list (fits_rec * dict))
      (ids : list cell) :
  MergeInputs.block_ids id_name blocks = Ok ids ->
  length ids = total_rows blocks.
Proof.
  revert ids; induction blocks as [|[d m] bs IH]; simpl; intros ids H.
  - inversion H; reflexivity.
  - inv_bind H. inv_bind H. inversion H; subst.
    unfold total_rows; simpl.
    rewrite length_app, length_map, (column_length _ _ Ha).
    f_equal. apply IH; assumption.
Qed.

(** All blocks are copied one after the other: the identifier column
    of the table holds, from [rowmin] on, the identifiers of the
    blocks under their maps. *)
Lemma fill_blocks (blocks : list (fits_rec * dict)) :
  Forall (fun b => wf_rec (fst b)) blocks ->
  forall (rowmin : nat) (merged : fits_rec) (ids old : list cell),
    (forall b, In b blocks ->
               incl (rec_names (fst b)) (rec_names merged)) ->
    Forall (fun r => map fst r = rec_names merged) (rec_rows merged) ->
    rowmin + total_rows blocks <= length (rec_rows merged) ->
    MergeInputs.block_ids id_name blocks = Ok ids ->
    map (field id_name) (rec_rows merged) = map Some old ->
    exists acc,
      foldM (copy_rows (Some id_name)) blocks (rowmin, merged) = Ok acc /\
      rec_names (snd acc) = rec_names merged /\
      map (field id_name) (rec_rows (snd acc))
      = map Some (splice old rowmin ids).
Proof.
  induction 1 as [|[d m] bs Hd _ IH];
    intros rowmin merged ids old Hn Hwf Hlen Hids Hold.
  - simpl in *. inversion Hids; subst. exists (rowmin, merged).
    repeat split. simpl. rewrite Hold. f_equal.
    unfold splice. simpl. rewrite Nat.add_0_r, firstn_skipn. reflexivity.
  - simpl in Hids. inv_bind Hids. inv_bind Hids.
    inversion Hids; subst ids. rename a into col, a0 into rest.
    unfold total_rows in Hlen. simpl in Hlen, Hd.
    fold (total_rows bs) in Hlen.
    assert (Hold_len : length old = length (rec_rows merged)).
    { apply (f_equal (@length _)) in Hold.
      rewrite !length_map in Hold. auto. }
    destruct (@copy_rows_block (Some id_name) d m rowmin Hd merged)
      as [merged1 [E [N [L [W [_ T]]]]]].
    { apply (Hn (d, m)); left; reflexivity. }
    { assumption. }
    { lia. }
    assert (Hin : In id_name (rec_names d)).
    { apply column_Ok in Ha. apply has_name_In, Ha. }
    pose proof (proj2 (T id_name) Hin col old Ha Hold) as Hview.
    rewrite block_values_id in Hview.
    pose proof (column_length _ _ Ha) as Hcl.
    destruct (IH (rowmin + length (rec_rows d)) merged1 rest
                 (splice old rowmin (map (dict_get_default m) col)))
      as [acc [E' [N' V']]].
    + intros b Hb. rewrite N. apply Hn; right; assumption.
    + rewrite N; assumption.
    + rewrite L; lia.
    + assumption.
    + assumption.
    + exists acc. cbn [foldM]. rewrite E. cbn [bind].
      split; [assumption|]. split; [congruence|].
      rewrite V'. f_equal.
      replace (rowmin + length (rec_rows d))
        with (rowmin + length (map (dict_get_default m) col))
        by (rewrite length_map, Hcl; reflexivity).
      apply splice_splice.
      rewrite length_map, Hcl, (@block_ids_length _ _ Ha0). lia.
Qed.

End Fill.

End FillFacts.

(** ** Example tables *)

Module Examples.

Definition target_names : list string := ["TARGET_ID"; "TARGET"].

Definition target (i : Z) (n : string) : row :=
  [("TARGET_ID", CInt i); ("TARGET", CStr n)].

Definition targets (rows : list row) : fits_rec :=
  {| rec_names := target_names; rec_rows := rows |}.

(** Row equalities: never equal, and equal names. *)
Definition never_equal (a b : row) : bool := false.

Definition same_name (a b : row) : bool :=
  match field "TARGET" a, field "TARGET" b with
  | Some x, Some y => cell_eqb x y
  | _, _ => false
  end.

(** A freshly allocated table of [n] blank target rows. *)
Definition blank (n : nat) : fits_rec := targets (repeat (target 0 "") n).

Definition A1 : fits_rec := targets [target 1 "X"].
Definition B1 : fits_rec := targets [target 1 "different"].

Definition A2 : fits_rec := targets [target 1 "X"; target 2 "Y"].
Definition B2 : fits_rec := targets [target 1 "Y"; target 2 "Z"].

Lemma NoDup_target_names : NoDup target_names.
Proof.
  unfold target_names. repeat constructor; simpl; intuition discriminate.
Qed.

End Examples.

(** ** The merge engine: claims *)

Module MergeClaims.

Import MergeRows MergeRowsFacts MergeInputs MergeHelper FillFacts.

Lemma wf_block (k d : fits_rec) : block_of k d -> wf_rec d -> wf_rec k.
Proof.
  intros [Hn Hr] [H1 H2]. split; rewrite Hn; [assumption|].
  rewrite Forall_forall in *. intros r Hin. apply H2, Hr; assumption.
Qed.

Lemma merge_inv_init (id_name : string) (rows1 : fits_rec)
      (id1 : list cell) :
  column id_name rows1 = Ok id1 -> NoDup id1 ->
  merge_inv id_name {| ms_id1 := id1; ms_kept := [rows1]; ms_maps := [[]] |}.
Proof.
  intros Hc Hn. constructor; simpl.
  - reflexivity.
  - rewrite Hc. simpl. rewrite dict_get_default_nil, app_nil_r. reflexivity.
  - rewrite app_nil_r. symmetry. eapply column_length; eassumption.
  - assumption.
Qed.


Lemma wf_targets (rows : list row) :
  Forall (fun r => map fst r = Examples.target_names) rows ->
  wf_rec (Examples.targets rows).
Proof. intros H; split; [apply Examples.NoDup_target_names | exact H]. Qed.


(** C4.  Identifier assignment on merge.  While a later input with
    distinct identifiers is processed, a row that matches no accepted row
    is kept; it keeps its identifier when the accepted identifiers do not
    contain it, and otherwise gets the smallest positive integer that is
    neither accepted nor an identifier of the input.  The map returned
    for the input holds exactly the entries of the assignment whose old
    and new identifiers differ.  With [A = [{id: 1}]] and
    [B = [{id: 1}]] judged unequal, the row of [B] gets 2 and the map of
    [B] is [{1: 2}]. *)
Theorem id_assignment (equality : row -> row -> bool) (id_name : string)
        (rows1 : fits_rec) (before : list fits_rec) (rows2 : fits_rec)
        (id1 id2 : list cell) (ms : merge_state)
        (pre suf : list (nat * (cell * row))) (j : nat) (i2 : cell)
        (row2 : row) (st : loop_state) :
  column id_name rows1 = Ok id1 -> NoDup id1 ->
  Forall (unique_ids id_name) before ->
  foldM (input_step equality id_name) before
        {| ms_id1 := id1; ms_kept := [rows1]; ms_maps := [[]] |} = Ok ms ->
  column id_name rows2 = Ok id2 -> NoDup id2 ->
  enumerate (combine id2 (rec_rows rows2)) = pre ++ (j, (i2, row2)) :: suf ->
  foldM (row_step equality (ms_kept ms)) pre
        {| st_id1 := ms_id1 ms;
           st_candidate_id2 := candidate_ids (ms_id1 ms) id2;
           st_index_map := [];
           st_kept_lines := [] |} = Ok st ->
  (forall r, In r (flat_map rec_rows (ms_kept ms)) ->
             equality row2 r = false) ->
  (exists st' v,
      row_step equality (ms_kept ms) st (j, (i2, row2)) = Ok st' /\
      st_kept_lines st' = st_kept_lines st ++ [j] /\
      st_id1 st' = st_id1 st ++ [v] /\
      st_index_map st' = dict_set i2 v (st_index_map st) /\
      (mem i2 (st_id1 st) = false -> v = i2) /\
      (mem i2 (st_id1 st) = true -> least_unused (st_id1 st ++ id2) v)) /\
  (exists ms' st_end,
      input_step equality id_name ms rows2 = Ok ms' /\
      foldM (row_step equality (ms_kept ms))
            (enumerate (combine id2 (rec_rows rows2)))
            {| st_id1 := ms_id1 ms;
               st_candidate_id2 := candidate_ids (ms_id1 ms) id2;
               st_index_map := [];
               st_kept_lines := [] |} = Ok st_end /\
      ms_maps ms' = ms_maps ms ++ [changed_entries (st_index_map st_end)] /\
      forall o n, In (o, n) (changed_entries (st_index_map st_end))
                  <-> In (o, n) (st_index_map st_end) /\ o <> n) /\
  _merge_fits_rows Examples.never_equal [Examples.A1; Examples.B1]
                   (Some "TARGET_ID")
  = Ok ([Examples.A1; Examples.B1], [[]; [(CInt 1, CInt 2)]]).
Proof.
  intros Hc1 Hn1 Hbefore Hms Hc2 Hn2 Hsplit Hpre Hnomatch.
  destruct (@inputs_total equality id_name before Hbefore _
              (@merge_inv_init id_name rows1 id1 Hc1 Hn1))
    as [ms0 [ks [E [I _]]]].
  assert (ms0 = ms) by congruence. subst ms0. clear E.
  assert (Hlen : length (flat_map rec_rows (ms_kept ms))
                 <= length (ms_id1 ms)) by (rewrite (mi_rows I); lia).
  split; [|split; [|reflexivity]].
  - destruct (@enumerate_from_split _ _ 0 _ _ _ _ Hsplit) as [Hj [Hnth Hp]].
    simpl in Hj. subst j.
    destruct (@row_loop_prefix equality (ms_kept ms) (ms_id1 ms) id2
                (rec_rows rows2) Hn2 Hlen (length pre))
      as [st1 [added [kept_ids [E1 I1]]]].
    unfold enumerate in E1. rewrite <- Hp in E1.
    assert (st1 = st) by congruence. subst st1.
    rewrite length_firstn in I1.
    assert (Hlt : length pre < length (combine id2 (rec_rows rows2))).
    { apply nth_error_Some. congruence. }
    rewrite Nat.min_l in I1 by lia.
    destruct (row_step_inv equality (ms_kept ms) Hn2 Hlen Hnth I1)
      as [st' [added' [kept_ids' [Es [_ [Hkeep _]]]]]].
    destruct Hkeep as [v [_ [_ [H1 [H2 [H3 [H4 H5]]]]]]].
    { apply first_true_None. assumption. }
    exists st', v. repeat split; assumption.
  - destruct (@row_loop_total equality (ms_kept ms) (ms_id1 ms) id2
                (rec_rows rows2) Hn2 Hlen)
      as [st_end [added [kept_ids [E1 I1]]]].
    eexists; exists st_end. split.
    + unfold input_step. rewrite Hc2. simpl. rewrite E1. simpl.
      reflexivity.
    + split; [assumption|]. split; [reflexivity|].
      intros o n. unfold changed_entries. rewrite filter_In. simpl.
      rewrite negb_true_iff, cell_eqb_neq. tauto.
Qed.

Lemma id_assignment_witness :
  (exists st' v,
      row_step Examples.never_equal [Examples.A1]
               {| st_id1 := [CInt 1];
                  st_candidate_id2 := candidate_ids [CInt 1] [CInt 1];
                  st_index_map := [];
                  st_kept_lines := [] |}
               (0, (CInt 1, Examples.target 1 "different")) = Ok st' /\
      st_kept_lines st' = [0] /\
      st_id1 st' = [CInt 1; v] /\
      st_index_map st' = [(CInt 1, v)] /\
      (mem (CInt 1) [CInt 1] = false -> v = CInt 1) /\
      (mem (CInt 1) [CInt 1] = true ->
       least_unused [CInt 1; CInt 1] v)).
Proof.
  assert (Hn : NoDup [CInt 1]) by (constructor; [simpl; tauto | constructor]).
  exact (proj1 (@id_assignment Examples.never_equal "TARGET_ID"
                  Examples.A1 [] Examples.B1 [CInt 1] [CInt 1]
                  {| ms_id1 := [CInt 1]; ms_kept := [Examples.A1];
                     ms_maps := [[]] |}
                  [] [] 0 (CInt 1) (Examples.target 1 "different")
                  {| st_id1 := [CInt 1];
                     st_candidate_id2 := candidate_ids [CInt 1] [CInt 1];
                     st_index_map := [];
                     st_kept_lines := [] |}
                  eq_refl Hn (Forall_nil _) eq_refl eq_refl Hn eq_refl
                  eq_refl (fun r _ => eq_refl))).
Defined.

End MergeClaims.

(** ** The cascade to referring tables *)

Module CascadeClaims.

Import MergeRows MergeHelper.

(** A table that refers to targets by [TARGET_ID]. *)
Definition vis_row (i : Z) (v : string) : row :=
  [("TARGET_ID", CInt i); ("VIS", CStr v)].

Definition vis : fits_rec :=
  {| rec_names := ["TARGET_ID"; "VIS"];
     rec_rows := [vis_row 1 "on Y"; vis_row 2 "on Z"] |}.

Definition as_hdu (data : fits_rec) : hdu unit :=
  {| hdu_OI_REVN := 2; hdu_COLUMNS := []; hdu_req_keys := [];
     hdu_header := tt; hdu_columns := []; hdu_data := data;
     hdu_container := Some 0 |}.

(** The entries of a map are applied one after the other, each to the
    field as the entries before it left it. *)
Lemma rewrite_field_cons (o n : cell) (map_ : dict) (field_ : list cell) :
  rewrite_field ((o, n) :: map_) field_
  = rewrite_field map_ (replace_old field_ (o, n)).
Proof. reflexivity. Qed.

(** C3.  The cascade with a chained map.  Merging
    [A = [(1, X), (2, Y)]] and [B = [(1, Y), (2, Z)]] on equal names
    gives [B] the map [{1: 2, 2: 3}].  The row assembly applies it with
    [map.get]: identifiers [1, 2] become [2, 3].  The cascade applies its
    entries in turn: in a table referring to [B], identifiers [1, 2]
    both become [3], so the reference to [Y] now points to [Z]. *)
Theorem cascade_chained_map :
  _merge_fits_rows Examples.same_name [Examples.A2; Examples.B2]
                   (Some "TARGET_ID")
  = Ok ([Examples.A2; Examples.targets [Examples.target 2 "Z"]],
        [[]; [(CInt 1, CInt 2); (CInt 2, CInt 3)]]) /\
  map (dict_get_default [(CInt 1, CInt 2); (CInt 2, CInt 3)])
      [CInt 1; CInt 2] = [CInt 2; CInt 3] /\
  rewrite_field [(CInt 1, CInt 2); (CInt 2, CInt 3)] [CInt 1; CInt 2]
  = [CInt 3; CInt 3] /\
  update_referrer (fun _ _ => true) (Some "TARGET_ID")
                  (as_hdu Examples.B2)
                  [(CInt 1, CInt 2); (CInt 2, CInt 3)] (as_hdu vis)
  = Ok (as_hdu {| rec_names := ["TARGET_ID"; "VIS"];
                  rec_rows := [vis_row 3 "on Y"; vis_row 3 "on Z"] |}).
Proof. repeat split; reflexivity. Qed.

End CascadeClaims.

(** ** The union of columns *)

Module ColumnClaims.

Import Columns.

(** The names of a list, each once, in the order of first appearance. *)
Definition first_appearance (names : list string) : list string :=
  fold_left (fun seen n => if has_name n seen then seen else seen ++ [n])
            names [].

Section Union.

Variable np_ndarray : list nat -> string -> result ndarray.
Variable fits_Column :
  string -> string -> option (list nat) -> option string -> result fcolumn.

Lemma merge_column_acc (oicolumns : list coldesc)
      (acc acc' : list fcolumn * list string) (c : fcolumn) :
  merge_column np_ndarray fits_Column oicolumns acc c = Ok acc' ->
  (fst acc' = fst acc /\ snd acc' = snd acc
   /\ has_name (col_name c) (snd acc) = true)
  \/ (fst acc' = fst acc ++ [c] /\ snd acc' = snd acc ++ [col_name c]
      /\ has_name (col_name c) (snd acc) = false).
Proof.
  destruct acc as [columns colnames]. unfold merge_column.
  destruct (has_name (col_name c) colnames) eqn:E; intros H.
  - inversion H; subst. left; auto.
  - inv_bind H. inversion H; subst. right; auto.
Qed.

(** Every column of the result is a column of an input, as it is there;
    the names of the result are those of the inputs, each once, in the
    order in which the loop meets them. *)
Lemma merge_columns_inputs (oicolumns : list coldesc) :
  forall (cs : list fcolumn) (acc acc' : list fcolumn * list string),
    foldM (merge_column np_ndarray fits_Column oicolumns) cs acc = Ok acc' ->
    snd acc = map col_name (fst acc) ->
    snd acc' = map col_name (fst acc') /\
    (forall c, In c (fst acc') -> In c (fst acc) \/ In c cs) /\
    (forall n, In n (snd acc') <->
               In n (snd acc) \/ In n (map col_name cs)) /\
    (NoDup (snd acc) -> NoDup (snd acc')) /\
    snd acc'
    = fold_left (fun seen n => if has_name n seen then seen else seen ++ [n])
                (map col_name cs) (snd acc).
Proof.
  induction cs as [|c cs IH]; simpl; intros acc acc' H Hacc.
  - inversion H; subst. repeat split; auto; tauto.
  - inv_bind H. rename a into acc1.
    destruct (merge_column_acc _ _ _ Ha) as [[H1 [H2 H3]]|[H1 [H2 H3]]].
    + destruct (IH acc1 acc' H) as [I1 [I2 [I3 [I4 I5]]]]; [congruence|].
      split; [assumption|]. split; [|split; [|split]].
      * intros x Hx. destruct (I2 x Hx) as [Hi|Hi];
          [left; congruence | right; right; assumption].
      * intros n. rewrite I3, H2. apply has_name_In in H3.
        split; [tauto|]. intros [Hn|[<-|Hn]]; tauto.
      * intros Hn. apply I4. congruence.
      * rewrite I5, H2, H3. reflexivity.
    + destruct (IH acc1 acc' H) as [I1 [I2 [I3 [I4 I5]]]].
      { rewrite H1, H2, map_app, Hacc; reflexivity. }
      split; [assumption|]. split; [|split; [|split]].
      * intros x Hx. destruct (I2 x Hx) as [Hi|Hi]; [|tauto].
        rewrite H1 in Hi. apply in_app_or in Hi.
        destruct Hi as [Hi|[<-|[]]]; tauto.
      * intros n. rewrite I3, H2, in_app_iff. simpl. tauto.
      * intros Hn. apply I4. rewrite H2.
        apply MergeRowsFacts.NoDup_snoc; [assumption|].
        intros Hin. apply has_name_In in Hin. congruence.
      * rewrite I5, H2, H3. reflexivity.
Qed.

(** [_merge_fits_columns] returns columns of its inputs as they are
    there, one for each name, in the order of first appearance. *)
Lemma merge_fits_columns_union (oicolumns : list coldesc)
      (hdus : list (list fcolumn)) (columns : list fcolumn) :
  _merge_fits_columns np_ndarray fits_Column oicolumns hdus = Ok columns ->
  (forall c, In c columns -> In c (concat hdus)) /\
  NoDup (map col_name columns) /\
  (forall n, In n (map col_name columns)
             <-> In n (map col_name (concat hdus))) /\
  map col_name columns = first_appearance (map col_name (concat hdus)).
Proof.
  intros H. unfold _merge_fits_columns in H.
  inv_bind H. inversion H; subst. clear H. rename a into acc.
  assert (G : forall hs acc0 acc1,
             foldM (fun acc hdu_columns =>
                      foldM (merge_column np_ndarray fits_Column oicolumns)
                            hdu_columns acc)
                   hs acc0 = Ok acc1 ->
             snd acc0 = map col_name (fst acc0) ->
             snd acc1 = map col_name (fst acc1) /\
             (forall c, In c (fst acc1) ->
                        In c (fst acc0) \/ In c (concat hs)) /\
             (forall n, In n (snd acc1) <->
                        In n (snd acc0)
                        \/ In n (map col_name (concat hs))) /\
             (NoDup (snd acc0) -> NoDup (snd acc1)) /\
             snd acc1
             = fold_left (fun seen n =>
                            if has_name n seen then seen else seen ++ [n])
                         (map col_name (concat hs)) (snd acc0)).
  { induction hs as [|h hs IH]; simpl; intros acc0 acc1 H0 Hs.
    - inversion H0; subst. repeat split; auto; tauto.
    - inv_bind H0. rename a into accm.
      destruct (merge_columns_inputs _ _ _ Ha0 Hs)
        as [M1 [M2 [M3 [M4 M5]]]].
      destruct (IH accm acc1 H0 M1) as [I1 [I2 [I3 [I4 I5]]]].
      split; [assumption|]. split; [|split; [|split]].
      + intros c Hc. rewrite in_app_iff.
        destruct (I2 c Hc) as [Hi|Hi]; [|tauto].
        destruct (M2 c Hi); tauto.
      + intros n. rewrite I3, M3, map_app, in_app_iff. tauto.
      + auto.
      + rewrite I5, M5, map_app, fold_left_app. reflexivity. }
  destruct (G hdus ([], []) acc Ha eq_refl) as [G1 [G2 [G3 [G4 G5]]]].
  simpl in *. split; [|split; [|split]].
  - intros c Hc. destruct (G2 c Hc) as [[]|Hi]; assumption.
  - rewrite <- G1. apply G4. constructor.
  - intros n. rewrite <- G1, G3. tauto.
  - rewrite <- G1. exact G5.
Qed.

End Union.

End ColumnClaims.

(** ** The cross-match helper: claims *)

Module XMatchClaims.

Import XMatch.

Section AssocPairs.

Variables K V : Type.
Variable eqb : K -> K -> bool.
Hypothesis eqb_eq : forall a b, eqb a b = true <-> a = b.

Lemma assoc_get_None (k : K) (d : list (K * V)) :
  assoc_get eqb k d = None <-> ~ In k (map fst d).
Proof.
  induction d as [|[k' v] d IH]; simpl; [tauto|].
  destruct (eqb k k') eqn:E.
  - apply eqb_eq in E. subst. split; [discriminate | tauto].
  - rewrite IH. split; [|tauto]. intros H [E'|H']; [|tauto].
    subst k'. assert (eqb k k = true) by (apply eqb_eq; reflexivity).
    congruence.
Qed.

Lemma assoc_set_fst (k : K) (v : V) (d : list (K * V)) (x : K) :
  In x (map fst (assoc_set eqb k v d)) <-> x = k \/ In x (map fst d).
Proof.
  induction d as [|[k' v'] d IH]; simpl; [intuition|].
  destruct (eqb k k') eqn:E; simpl.
  - apply eqb_eq in E. subst. intuition.
  - rewrite IH. intuition.
Qed.

Lemma assoc_set_In (k : K) (v : V) (d : list (K * V)) (x : K) (w : V) :
  In (x, w) (assoc_set eqb k v d) -> (x = k /\ w = v) \/ In (x, w) d.
Proof.
  induction d as [|[k' v'] d IH]; simpl.
  - intros [H|[]]; inversion H; auto.
  - destruct (eqb k k') eqn:E; simpl.
    + apply eqb_eq in E. subst. intros [H|H]; [inversion H|]; auto.
    + intros [H|H]; [auto|]. destruct (IH H); auto.
Qed.

(** The keys of [dict(pairs)] are the keys of the pairs, and each
    value is that of a pair with the key. *)
Lemma assoc_of_pairs_keys (pairs : list (K * V)) (x : K) :
  In x (map fst (assoc_of_pairs eqb pairs)) <-> In x (map fst pairs).
Proof.
  unfold assoc_of_pairs.
  assert (G : forall l acc,
             In x (map fst (fold_left
                              (fun d (kv : K * V) => assoc_set eqb (fst kv) (snd kv) d)
                              l acc))
             <-> In x (map fst acc) \/ In x (map fst l)).
  { induction l as [|[k v] l IH]; simpl; intros acc; [tauto|].
    rewrite IH, assoc_set_fst. simpl. intuition. }
  rewrite G. simpl. tauto.
Qed.

Lemma assoc_of_pairs_In (pairs : list (K * V)) (x : K) (w : V) :
  In (x, w) (assoc_of_pairs eqb pairs) -> In (x, w) pairs.
Proof.
  unfold assoc_of_pairs.
  assert (G : forall l acc,
             In (x, w) (fold_left
                          (fun d (kv : K * V) => assoc_set eqb (fst kv) (snd kv) d)
                          l acc)
             -> In (x, w) acc \/ In (x, w) l).
  { induction l as [|[k v] l IH]; simpl; intros acc H; [tauto|].
    destruct (IH _ H) as [H1|H1]; [|tauto].
    destruct (assoc_set_In _ _ _ _ _ H1) as [[-> ->]|H2]; auto. }
  intros H. destruct (G _ _ H) as [[]|H1]; assumption.
Qed.

End AssocPairs.

Lemma lookup_all_found (xmatch : list (cell * list cell))
      (indices : list cell) :
  (forall i, In i indices -> In i (map fst xmatch)) ->
  exists found,
    lookup_all xmatch indices = Ok found /\
    Forall2 (fun i v => assoc_get cell_eqb i xmatch = Some v) indices found.
Proof.
  unfold lookup_all. induction indices as [|i l IH]; intros H.
  - exists []; split; [reflexivity | constructor].
  - destruct IH as [found [E F]]; [intros; apply H; right; assumption|].
    destruct (assoc_get cell_eqb i xmatch) as [v|] eqn:G.
    + exists (v :: found). simpl. rewrite G. simpl. rewrite E. simpl.
      split; [reflexivity | constructor; assumption].
    + apply (@assoc_get_None _ _ _ cell_eqb_eq) in G. exfalso. apply G, H.
      left; reflexivity.
Qed.

Lemma lookup_all_missing (xmatch : list (cell * list cell))
      (indices : list cell) :
  (exists i, In i indices /\ ~ In i (map fst xmatch)) ->
  lookup_all xmatch indices = Raise KeyError.
Proof.
  unfold lookup_all. induction indices as [|i l IH]; intros [x [Hx Hn]].
  - destruct Hx.
  - simpl. destruct (assoc_get cell_eqb i xmatch) as [v|] eqn:G;
      [|reflexivity]. simpl.
    destruct Hx as [->|Hx].
    + apply (@assoc_get_None _ _ _ cell_eqb_eq) in Hn. congruence.
    + rewrite IH; [reflexivity|]. exists x; auto.
Qed.

(** C7 as amended.  A resolution is all or nothing.  When a foreign key
    of the dependent table is not a key of the reference table, the
    whole resolution raises [KeyError]: no row gets a marker and no
    other row is resolved.  When every foreign key is a key of the
    reference table, the resolution returns, for each element of the
    foreign-key column in order, the value of a reference row with that
    key. *)
Theorem xmatch_all_or_nothing (str_array : list nat -> list cell -> string)
        (self : hdu) (name : string) (refhdu : hdu) (refname : string)
        (concatenate : bool) (ref_values ref_indices indices : ndarray)
        (keys : list cell) :
  getattr refhdu name = Ok ref_values ->
  getattr refhdu refname = Ok ref_indices ->
  keys_of ref_indices = Ok keys ->
  getattr self refname = Ok indices ->
  elements ref_values <> [] ->
  ((exists i, In i (arr_values indices)
              /\ ~ In i (map fst (combine keys (elements ref_values)))) ->
   _xmatch str_array self name refhdu refname concatenate
   = Raise KeyError) /\
  ((forall i, In i (arr_values indices) ->
              In i (map fst (combine keys (elements ref_values)))) ->
   exists found,
     Forall2 (fun i v => In (i, v) (combine keys (elements ref_values)))
             (arr_values indices) found /\
     let values :=
       {| arr_dtype := arr_dtype ref_values;
          arr_shape := arr_shape indices ++ tl (arr_shape ref_values);
          arr_values := concat found |} in
     _xmatch str_array self name refhdu refname concatenate
     = Ok (if concatenate
           then Joined (map (join_element str_array
                               (tl (arr_shape values)))
                            (elements values))
           else Values values)).
Proof.
  intros H1 H2 H3 H4 H5. unfold _xmatch.
  rewrite H1, H2. simpl. rewrite H3. simpl. rewrite H4. simpl.
  destruct (elements ref_values) as [|e es] eqn:Ee; [congruence|].
  simpl bind. split.
  - intros [i [Hi Hn]].
    rewrite lookup_all_missing; [reflexivity|].
    exists i. split; [assumption|].
    rewrite (@assoc_of_pairs_keys _ _ _ cell_eqb_eq). assumption.
  - intros Hall.
    destruct (@lookup_all_found
                (assoc_of_pairs cell_eqb (combine keys (e :: es)))
                (arr_values indices)) as [found [E F]].
    { intros i Hi. rewrite (@assoc_of_pairs_keys _ _ _ cell_eqb_eq). auto. }
    exists found. split.
    + eapply Forall2_impl; [|exact F]. intros i v Hv. simpl in Hv.
      apply (@assoc_of_pairs_In _ _ _ cell_eqb_eq).
      apply (@assoc_get_In _ _ _ cell_eqb_eq). assumption.
    + simpl. rewrite E. simpl. destruct concatenate; reflexivity.
Qed.

(** The tables of the examples: a target table with identifiers 1 and 2,
    and data tables whose [TARGET_ID] column refers to it. *)
Definition desc (name type : string) : coldesc :=
  {| cd_name := name; cd_required := true; cd_type := type;
     cd_shape := []; cd_test := None; cd_default := None;
     cd_unit := None; cd_comment := "" |}.

Definition target_hdu : hdu :=
  {| hdu_COLUMNS := [desc "TARGET_ID" ">i2"; desc "TARGET" "<U16"];
     hdu_fields :=
       [("TARGET_ID", {| arr_dtype := ">i2"; arr_shape := [2];
                         arr_values := [CInt 1; CInt 2] |});
        ("TARGET", {| arr_dtype := "<U16"; arr_shape := [2];
                      arr_values := [CStr "X"; CStr "Y"] |})] |}.

Definition data_hdu (ids : list Z) : hdu :=
  {| hdu_COLUMNS := [desc "TARGET_ID" ">i2"];
     hdu_fields :=
       [("TARGET_ID", {| arr_dtype := ">i2"; arr_shape := [length ids];
                         arr_values := map CInt ids |})] |}.

Definition no_str (shape : list nat) (x : list cell) : string := "".

Definition ids_array (ids : list Z) : ndarray :=
  {| arr_dtype := ">i2"; arr_shape := [length ids];
     arr_values := map CInt ids |}.

Definition names_array : ndarray :=
  {| arr_dtype := "<U16"; arr_shape := [2];
     arr_values := [CStr "X"; CStr "Y"] |}.

Lemma xmatch_all_or_nothing_witness :
  getattr target_hdu "TARGET" = Ok names_array /\
  getattr target_hdu "TARGET_ID" = Ok (ids_array [1; 2]%Z) /\
  keys_of (ids_array [1; 2]%Z) = Ok [CInt 1; CInt 2] /\
  getattr (data_hdu [2; 1; 2]%Z) "TARGET_ID" = Ok (ids_array [2; 1; 2]%Z) /\
  elements names_array <> [] /\
  exists found,
    Forall2 (fun i v => In (i, v) (combine [CInt 1; CInt 2]
                                           (elements names_array)))
            [CInt 2; CInt 1; CInt 2] found /\
    _xmatch no_str (data_hdu [2; 1; 2]%Z) "TARGET" target_hdu "TARGET_ID"
            false
    = Ok (Values {| arr_dtype := "<U16"; arr_shape := [3];
                    arr_values := concat found |}).
Proof.
  assert (H5 : elements names_array <> []) by discriminate.
  repeat (split; [first [reflexivity | exact H5]|]).
  apply (proj2 (@xmatch_all_or_nothing no_str (data_hdu [2; 1; 2]%Z)
                  "TARGET" target_hdu "TARGET_ID" false
                  names_array (ids_array [1; 2]%Z) (ids_array [2; 1; 2]%Z)
                  [CInt 1; CInt 2] eq_refl eq_refl eq_refl eq_refl H5)).
  simpl. intuition.
Defined.

(** C7 as stated fails: with the foreign keys [1, 5, 2] and the reference
    keys [1, 2], no sequence with a marker for the second row comes
    back; the resolution raises. *)
Lemma xmatch_broken_reference_aborts :
  _xmatch no_str (data_hdu [1; 5; 2]%Z) "TARGET" target_hdu "TARGET_ID" false
  = Raise KeyError /\
  ~ exists values,
      _xmatch no_str (data_hdu [1; 5; 2]%Z) "TARGET" target_hdu "TARGET_ID"
              false = Ok values.
Proof.
  split; [reflexivity|]. intros [values H]. discriminate.
Qed.

End XMatchClaims.

(** ** Instances of the numpy and astropy conversions for the examples *)

Module NumpyModel.

(** The width of a fixed-width string type such as [<U3] or [|S8]. *)
Definition width_of (dtype : string) : option nat :=
  match DType.strip "|<>" dtype with
  | EmptyString => None
  | String c rest =>
      if DType.in_chars c "SU" then
        match DType.int_of_string rest with
        | Ok n => Some n
        | Raise _ => None
        end
      else None
  end.

(** A string stored under a fixed width is cut to that width. *)
Definition cut (n : nat) (c : cell) : cell :=
  match c with
  | CStr s => CStr (substring 0 n s)
  | CInt z => c
  end.

(** [_np.array(default, dtype=dtype)] on strings and string types. *)
Definition np_array (default : cell) (dtype : string) : result cell :=
  match width_of dtype with
  | Some n => Ok (cut n default)
  | None => Ok default
  end.

(** A value read as an integer: a text that is not a numeral cannot be
    read, and numpy raises [ValueError]. *)
Definition as_int (c : cell) : result cell :=
  match c with
  | CInt z => Ok (CInt z)
  | CStr s => n <- DType.int_of_string s ;; Ok (CInt (Z.of_nat n))
  end.

(** [_fits.Column(array=a, format=fmt).array] for the character formats
    [nA], where the texts are cut to the width, and for the 16-bit
    integer format [I], where every value is read as an integer; the
    conversions to the other formats are left out. *)
Definition Column_array (fmt : string) (a : ndarray) : result ndarray :=
  match Columns.last_char fmt with
  | Some "A"%char =>
      n <- DType.int_of_string (Columns.drop_last fmt) ;;
      Ok {| arr_dtype := ("<U" ++ DType.string_of_nat n)%string;
            arr_shape := arr_shape a;
            arr_values := map (cut n) (arr_values a) |}
  | Some "I"%char =>
      values <- mapM as_int (arr_values a) ;;
      Ok {| arr_dtype := ">i2"; arr_shape := arr_shape a;
            arr_values := values |}
  | _ => Raise ValueError
  end.

(** [_np.ndarray(shape, dtype=dtype)] for the types and sizes of the
    examples, which numpy accepts.  The content of such an array is not
    defined; nothing reads it. *)
Definition np_ndarray (shape : list nat) (dtype : string) : result ndarray :=
  Ok {| arr_dtype := dtype; arr_shape := shape; arr_values := [] |}.

(** The repeat count of a format such as [32A] or [D]. *)
Definition repeat_count (fmt : string) : nat :=
  match DType.int_of_string (Columns.drop_last fmt) with
  | Ok n => n
  | Raise _ => 1
  end.

(** [_fits.Column(name=name, format=fmt, dim=dim, unit=unit)], a column
    without data.  astropy reads the dimensions of a [dim] that lists two
    or more of them, and refuses them when their product exceeds the
    repeat count of the format. *)
Definition fits_Column (name fmt : string) (dim : option (list nat))
           (unit : option string) : result fcolumn :=
  let col := {| col_name := name; col_format := fmt; col_unit := unit;
                col_null := None; col_dim := dim; col_array := None |} in
  match dim with
  | Some (d1 :: d2 :: ds) =>
      if fold_left Nat.mul (d1 :: d2 :: ds) 1 <=? repeat_count fmt
      then Ok col else Raise VerifyError
  | _ => Ok col
  end.

(** The content of a cell that was never written: the padding of a
    binary table read under the format of the column, an empty text under
    a character format and zero under the others. *)
Definition fill_value (fmt : string) : cell :=
  match Columns.last_char fmt with
  | Some "A"%char => CStr ""
  | _ => CInt 0
  end.

(** The cell of row [i] that [from_columns] builds for a column holding
    one value per row: the value at [i] of the data of the column, or
    the fill value past their end. *)
Definition allocated_cell (c : fcolumn) (i : nat) : cell :=
  match col_array c with
  | Some a => nth i (arr_values a) (fill_value (col_format c))
  | None => fill_value (col_format c)
  end.

(** The number of rows of the data of a column. *)
Definition column_rows (c : fcolumn) : nat :=
  match col_array c with
  | Some a => hd 0 (arr_shape a)
  | None => 0
  end.

(** astropy's [from_columns(columns, nrows=nrows, fill=False)] on
    columns that hold one value per row: a record array of [nrows] rows,
    or of as many rows as the longest column when [nrows] is 0, with one
    field per column; the data of each column are copied into its first
    rows and the other cells have the fill value. *)
Definition from_columns (columns : list fcolumn) (nrows : nat) : fits_rec :=
  let nrows := if nrows =? 0 then list_max (map column_rows columns)
               else nrows in
  {| rec_names := map col_name columns;
     rec_rows := map (fun i => map (fun c => (col_name c, allocated_cell c i))
                                   columns)
                     (seq 0 nrows) |}.

End NumpyModel.

(** ** Example tables for the verification engine *)

Module VerifyExamples.

(** [_is_category] of the target table. *)
Definition _is_category (s : cell) : bool :=
  cell_eqb s (CStr "SCI") || cell_eqb s (CStr "CAL").

(** The entry [('CATEGORY', False, '<U3', (), _is_category, 'SCI', None)]
    of [TargetHDU2._COLUMNS]. *)
Definition CATEGORY : coldesc :=
  {| cd_name := "CATEGORY"; cd_required := false; cd_type := "<U3";
     cd_shape := []; cd_test := Some _is_category;
     cd_default := Some (CStr "SCI"); cd_unit := None; cd_comment := "" |}.

(** A [CATEGORY] column stored with a given width. *)
Definition category_column (width : nat) (values : list cell) : fcolumn :=
  {| col_name := "CATEGORY";
     col_format := (DType.string_of_nat width ++ "A")%string;
     col_unit := None; col_null := None; col_dim := None;
     col_array := Some {| arr_dtype := ("<U" ++ DType.string_of_nat width)%string;
                          arr_shape := [length values];
                          arr_values := values |} |}.

(** A column that the schema does not declare. *)
Definition extra_column (name : string) : fcolumn :=
  {| col_name := name; col_format := "1J"; col_unit := None;
     col_null := None; col_dim := None;
     col_array := Some {| arr_dtype := ">i4"; arr_shape := [1];
                          arr_values := [CInt 7] |} |}.

(** The verification of a table of the class with the single schema entry
    [CATEGORY], on top of an empty list of findings. *)
Definition verify (opt : string) (t : Verify.table)
  : result (list Verify.finding * Verify.table) :=
  Verify._verify NumpyModel.Column_array NumpyModel.np_array 0 [CATEGORY]
                 "TargetHDU2" [] opt t.

End VerifyExamples.

(** ** The verification engine: claims *)

Module VerifyClaims.

Import Verify VerifyExamples.

(** C6.  Findings that are lost.  [_FluxHDU._verify] has no [return]: its
    value is [None] whatever the table, in place of the list of findings.
    In [_OITableHDU._verify] the finding of the value check is computed
    and not appended: a [CATEGORY] column holding [XYZ] is detected as
    invalid (in repair mode it is replaced by the default), and the
    returned list is empty in both modes. *)
Theorem verify_loses_findings :
  (forall super_verify opt t,
      match Flux._verify super_verify opt t with
      | Ok (returned, _) => returned = None
      | Raise _ => True
      end) /\
  _is_category (CStr "XYZ") = false /\
  verify "warn" [category_column 3 [CStr "XYZ"]]
  = Ok ([], [category_column 3 [CStr "XYZ"]]) /\
  verify "fix" [category_column 3 [CStr "XYZ"]]
  = Ok ([], [category_column 3 [CStr "SCI"]]).
Proof.
  split; [|repeat split; reflexivity].
  intros super_verify opt t. unfold Flux._verify.
  destruct (negb (has_name "FLUXDATA" (names t)) && has_name "FLUX" (names t)).
  - destruct (run_option _ _ _ _ _ _) as [[e t']|e]; simpl; [|exact I].
    destruct (super_verify opt t') as [[errs t'']|e']; simpl; exact I || reflexivity.
  - simpl. destruct (super_verify opt t) as [[errs t'']|e']; simpl;
      exact I || reflexivity.
Qed.

(** *** The naming convention *)

(** What the check flags: a name that the schema does not declare and that
    holds no underscore. *)
Definition flagged (COLUMNS : list coldesc) (name : string) : bool :=
  negb (has_name name (_get_oi_colnames COLUMNS false))
  && negb (has_underscore name).

Lemma find_assoc_set (x v n : string) (d : list (string * string)) :
  find (fun on => String.eqb (fst on) n) (assoc_set String.eqb x v d)
  = if String.eqb x n
    then match find (fun on => String.eqb (fst on) n) d with
         | Some on => Some (fst on, v)
         | None => Some (x, v)
         end
    else find (fun on => String.eqb (fst on) n) d.
Proof.
  induction d as [|[k w] d IH]; simpl.
  - destruct (String.eqb x n); reflexivity.
  - destruct (String.eqb x k) eqn:E; simpl.
    + apply String.eqb_eq in E. subst k.
      destruct (String.eqb x n); reflexivity.
    + destruct (String.eqb k n) eqn:E'.
      * apply String.eqb_eq in E'. subst k.
        rewrite E. reflexivity.
      * exact IH.
Qed.

Lemma has_name_snoc (n x : string) (l : list string) :
  has_name n (l ++ [x]) = has_name n l || String.eqb n x.
Proof.
  unfold has_name. rewrite existsb_app. simpl. rewrite orb_false_r.
  reflexivity.
Qed.

(** The substitution holds exactly the flagged names of the table. *)
Lemma non_standard_find (oi_colnames colnames : list string) (n : string) :
  find (fun on => String.eqb (fst on) n) (non_standard oi_colnames colnames)
  = if negb (has_name n oi_colnames) && negb (has_underscore n)
       && has_name n colnames
    then Some (n, ("NS_" ++ n)%string)
    else None.
Proof.
  unfold non_standard.
  assert (G : forall l seen d,
             (forall m, find (fun on => String.eqb (fst on) m) d
                        = if negb (has_name m oi_colnames)
                             && negb (has_underscore m) && has_name m seen
                          then Some (m, ("NS_" ++ m)%string) else None) ->
             forall m,
               find (fun on => String.eqb (fst on) m)
                    (fold_left
                       (fun d name =>
                          if negb (has_name name oi_colnames)
                             && negb (has_underscore name)
                          then assoc_set String.eqb name
                                         ("NS_" ++ name)%string d
                          else d) l d)
               = if negb (has_name m oi_colnames)
                    && negb (has_underscore m) && has_name m (seen ++ l)
                 then Some (m, ("NS_" ++ m)%string) else None).
  { induction l as [|x l IH]; simpl; intros seen d Hd m.
    - rewrite app_nil_r. apply Hd.
    - replace (seen ++ x :: l) with ((seen ++ [x]) ++ l)
        by (rewrite <- app_assoc; reflexivity).
      apply IH. intros k. rewrite has_name_snoc.
      destruct (negb (has_name x oi_colnames) && negb (has_underscore x))
        eqn:Fx.
      + rewrite find_assoc_set. rewrite (String.eqb_sym k x).
        destruct (String.eqb x k) eqn:E.
        * apply String.eqb_eq in E. subst k. rewrite Fx, orb_true_r. simpl.
          rewrite Hd, Fx. simpl.
          destruct (has_name x seen); reflexivity.
        * rewrite orb_false_r. apply Hd.
      + destruct (String.eqb k x) eqn:E.
        * apply String.eqb_eq in E. subst k. rewrite Fx. simpl.
          rewrite Hd, Fx. reflexivity.
        * rewrite orb_false_r. apply Hd. }
  apply (G colnames [] []). intros m. simpl.
  rewrite andb_false_r. reflexivity.
Qed.

Lemma non_standard_nil (oi_colnames colnames : list string) :
  non_standard oi_colnames colnames = []
  <-> existsb (fun n => negb (has_name n oi_colnames)
                        && negb (has_underscore n)) colnames = false.
Proof.
  split.
  - intros H. apply not_true_is_false. intros E.
    apply existsb_exists in E. destruct E as [n [Hn Fn]].
    pose proof (non_standard_find oi_colnames colnames n) as F.
    rewrite H, Fn in F. simpl in F.
    replace (has_name n colnames) with true in F
      by (symmetry; apply has_name_In; assumption).
    discriminate.
  - intros H. destruct (non_standard oi_colnames colnames) as [|[k v] d] eqn:E;
      [reflexivity|]. exfalso.
    pose proof (non_standard_find oi_colnames colnames k) as F.
    rewrite E in F. simpl in F. rewrite String.eqb_refl in F.
    destruct (negb (has_name k oi_colnames) && negb (has_underscore k)) eqn:Fk;
      [|discriminate].
    destruct (has_name k colnames) eqn:Hk; [|discriminate].
    apply has_name_In in Hk.
    assert (existsb (fun n => negb (has_name n oi_colnames)
                              && negb (has_underscore n)) colnames = true).
    { apply existsb_exists. exists k; auto. }
    congruence.
Qed.

Lemma rename_non_standard (COLUMNS : list coldesc) (t : table) :
  rename_columns (non_standard (_get_oi_colnames COLUMNS false) (names t)) t
  = map (fun c => if flagged COLUMNS (col_name c)
                  then set_name ("NS_" ++ col_name c)%string c
                  else c) t.
Proof.
  unfold rename_columns. apply map_ext_in. intros c Hc.
  rewrite non_standard_find. unfold flagged.
  replace (has_name (col_name c) (names t)) with true.
  2:{ symmetry. apply has_name_In. unfold names. apply in_map. assumption. }
  rewrite andb_true_r.
  destruct (negb _ && negb _); reflexivity.
Qed.



(** A name without underscore is flagged and, in repair mode, renamed. *)
Example naming_check_flags_plain_name :
  verify "fix" [extra_column "SNR"]
  = Ok ([(true, "Column name(s) should start with prefix_ :''SNR''.  NS_ has been prefixed to column name(s)")],
        [extra_column "NS_SNR"]).
Proof. reflexivity. Qed.

End VerifyClaims.

(** ** Construction from raw columns: claims *)

Module FromDataClaims.

Import FromData.

Lemma string_eqb_eq (a b : string) : String.eqb a b = true <-> a = b.
Proof. apply String.eqb_eq. Qed.

Lemma assoc_del_keeps {V : Type} (k x : string) (d : list (string * V)) :
  x <> k -> In x (map fst d) -> In x (map fst (assoc_del String.eqb k d)).
Proof.
  intros Hne. induction d as [|[k' v] d IH]; simpl; [tauto|].
  destruct (String.eqb k k') eqn:E.
  - apply String.eqb_eq in E. subst k'. intros [H|H]; [congruence | assumption].
  - simpl. intros [H|H]; [left; assumption | right; apply IH; assumption].
Qed.

Section Build.

Variable pyvalue : Type.
Variable is_None : pyvalue -> bool.
Variable value_of_default : option cell -> pyvalue.
Variable len_atleast_1d : pyvalue -> nat.
Variable reshape_to_rows : pyvalue -> nat -> ndarray.
Variable header : Type.
Variable build_header :
  list carddesc -> list (string * pyvalue) -> result header.
Variable fits_Column :
  string -> option string -> ndarray -> string -> result fcolumn.
Variable table : Type.
Variable from_columns : list fcolumn -> header -> result table.

(** A supplied name that the schema does not declare stays in [columns]
    through the loop over the schema. *)
Lemma official_column_keeps (nrows : nat) (x : string) (col : coldesc)
      (acc acc' : list (string * pyvalue) * list fcolumn) :
  x <> cd_name col ->
  official_column value_of_default reshape_to_rows fits_Column nrows acc col
  = Ok acc' ->
  In x (map fst (fst acc)) -> In x (map fst (fst acc')).
Proof.
  intros Hne H Hin. destruct acc as [columns fcols]. unfold official_column in H.
  destruct (assoc_get String.eqb (cd_name col) columns) as [v|] eqn:G.
  - simpl in H. rewrite G in H. inv_bind H. inv_bind H. inversion H; subst.
    simpl. apply assoc_del_keeps; assumption.
  - simpl in H. destruct (cd_required col); simpl in H.
    + destruct (assoc_get String.eqb (cd_name col)
                  (assoc_set String.eqb (cd_name col)
                             (value_of_default (cd_default col)) columns));
        [|discriminate].
      inv_bind H. inv_bind H. inversion H; subst. simpl.
      apply assoc_del_keeps; [assumption|].
      apply (@XMatchClaims.assoc_set_fst _ _ _ string_eqb_eq). right.
      assumption.
    + inversion H; subst. assumption.
Qed.

Lemma official_columns_keep (nrows : nat) (x : string) :
  forall (COLUMNS : list coldesc)
         (acc acc' : list (string * pyvalue) * list fcolumn),
    ~ In x (map cd_name COLUMNS) ->
    foldM (official_column value_of_default reshape_to_rows fits_Column nrows)
          COLUMNS acc = Ok acc' ->
    In x (map fst (fst acc)) -> In x (map fst (fst acc')).
Proof.
  induction COLUMNS as [|col cs IH]; simpl; intros acc acc' Hx H Hin.
  - inversion H; subst; assumption.
  - inv_bind H. apply (IH a acc'); [tauto | assumption |].
    eapply official_column_keeps; [|eassumption|assumption].
    intros ->. tauto.
Qed.


End Build.

(** An instance for the example: values are lists of cells, the header and
    the column constructor accept everything. *)
Definition rows_of (x : list cell) (nrows : nat) : ndarray :=
  {| arr_dtype := ""; arr_shape := [nrows]; arr_values := x |}.

Definition make_column (fmt : string) (unit : option string) (array : ndarray)
           (name : string) : result fcolumn :=
  Ok {| col_name := name; col_format := fmt; col_unit := unit;
        col_null := None; col_dim := None; col_array := Some array |}.

Definition example_from_data (columns : list (string * list cell))
  : result (list fcolumn) :=
  from_data (fun _ => false)
            (fun d => match d with Some c => [c] | None => [] end)
            (@length cell) rows_of
            (fun _ _ => Ok tt) make_column
            (fun fcols (_ : unit) => Ok fcols)
            [] [VerifyExamples.CATEGORY] [] columns.


(** With schema columns only, the construction returns. *)
Example from_data_schema_columns_only :
  example_from_data [("category", [CStr "SCI"])]
  = Ok [{| col_name := "CATEGORY"; col_format := "3A"; col_unit := None;
           col_null := None; col_dim := None;
           col_array := Some (rows_of [CStr "SCI"] 1) |}].
Proof. reflexivity. Qed.

End FromDataClaims.

(** ** Idempotence of the repair *)

Module Idempotence.

Import Verify.

(** A finding that is not marked fixable. *)
Definition not_fixable (e : finding) : Prop := fst e = false.

(** [st'] is [st] with findings appended, none of them fixable. *)
Definition extends (st st' : vstate) : Prop :=
  vs_table st' = vs_table st /\
  vs_column_casts st' = vs_column_casts st /\
  exists es, vs_errors st' = vs_errors st ++ es /\ Forall not_fixable es.

Lemma extends_refl (st : vstate) : extends st st.
Proof.
  repeat split. exists []. rewrite app_nil_r. split; [reflexivity | constructor].
Qed.

Lemma extends_trans (a b c : vstate) : extends a b -> extends b c -> extends a c.
Proof.
  intros [T1 [C1 [e1 [E1 F1]]]] [T2 [C2 [e2 [E2 F2]]]].
  split; [congruence|]. split; [congruence|].
  exists (e1 ++ e2). split; [rewrite E2, E1, app_assoc; reflexivity|].
  apply Forall_app; auto.
Qed.

Lemma foldM_extends {A : Type} (f : vstate -> A -> result vstate)
      (Q : table -> Prop) (l : list A) :
  (forall st a, In a l -> Q (vs_table st) ->
                exists st', f st a = Ok st' /\ extends st st') ->
  forall st, Q (vs_table st) ->
             exists st', foldM f l st = Ok st' /\ extends st st'.
Proof.
  induction l as [|a l IH]; simpl; intros Hf st HQ.
  - exists st; split; [reflexivity | apply extends_refl].
  - destruct (Hf st a (or_introl eq_refl) HQ) as [st1 [E1 X1]].
    rewrite E1; simpl.
    destruct (IH (fun s b Hb => Hf s b (or_intror Hb)) st1) as [st2 [E2 X2]].
    + destruct X1 as [T1 _]. rewrite T1; assumption.
    + exists st2; split; [assumption | eapply extends_trans; eassumption].
Qed.

Lemma run_option_unfixable (opt err_text fix_text : string)
      (fix_ : option (table -> result table)) (t : table) :
  exists text, run_option opt err_text fix_text fix_ false t
               = Ok ((false, text), t).
Proof.
  unfold run_option. destruct (reports_only opt); simpl; eexists; reflexivity.
Qed.

Lemma find_column_has_name (name : string) (t : table) :
  has_name name (names t) = true -> exists c, find_column name t = Some c.
Proof.
  unfold has_name, names. induction t as [|c t IH]; simpl; [discriminate|].
  rewrite (String.eqb_sym name (col_name c)).
  destruct (String.eqb (col_name c) name); simpl; [exists c; reflexivity|].
  exact IH.
Qed.

Lemma find_column_name (name : string) (t : table) (c : fcolumn) :
  find_column name t = Some c -> col_name c = name.
Proof.
  induction t as [|x t IH]; simpl; [discriminate|].
  destruct (String.eqb (col_name x) name) eqn:E; [|exact IH].
  intros H; inversion H; subst. apply String.eqb_eq; assumption.
Qed.

Lemma update_column_same (name : string) (f : fcolumn -> fcolumn) (t : table)
      (c : fcolumn) :
  find_column name t = Some c -> f c = c -> update_column name f t = t.
Proof.
  induction t as [|x t IH]; simpl; [discriminate|].
  destruct (String.eqb (col_name x) name); intros H Hf.
  - inversion H; subst. rewrite Hf. reflexivity.
  - f_equal. apply IH; assumption.
Qed.

Lemma set_values_same (c : fcolumn) (a : ndarray) :
  col_array c = Some a -> set_values (arr_values a) c = c.
Proof.
  destruct c as [n f u nl d arr]. simpl. intros ->. destruct a. reflexivity.
Qed.

(** The element type of a column's data. *)
Definition dtype_of (c : fcolumn) : option string :=
  option_map arr_dtype (col_array c).

(** [t'] is [t] up to the unit and the values of the column [name]. *)
Record touches (name : string) (t t' : table) : Prop := {
  t_names : names t' = names t;
  t_others : forall n, n <> name -> find_column n t' = find_column n t;
  t_dtype : forall n, option_map dtype_of (find_column n t')
                      = option_map dtype_of (find_column n t)
}.

Lemma touches_refl (name : string) (t : table) : touches name t t.
Proof. split; reflexivity. Qed.

Lemma touches_trans (name : string) (a b c : table) :
  touches name a b -> touches name b c -> touches name a c.
Proof.
  intros [N1 O1 D1] [N2 O2 D2]. split.
  - congruence.
  - intros n Hn. rewrite (O2 n Hn). apply O1; assumption.
  - intros n. rewrite D2. apply D1.
Qed.

Lemma find_column_update (n name : string) (f : fcolumn -> fcolumn)
      (t : table) :
  (forall c, col_name (f c) = col_name c) ->
  find_column n (update_column name f t)
  = if String.eqb n name then option_map f (find_column n t)
    else find_column n t.
Proof.
  intros Hf. induction t as [|x t IH]; simpl.
  - destruct (String.eqb n name); reflexivity.
  - destruct (String.eqb (col_name x) name) eqn:Ex; simpl.
    + rewrite Hf. apply String.eqb_eq in Ex.
      destruct (String.eqb n name) eqn:En.
      * apply String.eqb_eq in En. subst n. rewrite <- Ex.
        rewrite String.eqb_refl. reflexivity.
      * rewrite Ex, (String.eqb_sym name n), En. reflexivity.
    + destruct (String.eqb (col_name x) n) eqn:Exn.
      * apply String.eqb_eq in Exn. subst n. rewrite Ex. reflexivity.
      * exact IH.
Qed.

Lemma names_update (name : string) (f : fcolumn -> fcolumn) (t : table) :
  (forall c, col_name (f c) = col_name c) ->
  names (update_column name f t) = names t.
Proof.
  intros Hf. unfold names. induction t as [|x t IH]; simpl; [reflexivity|].
  destruct (String.eqb (col_name x) name); simpl.
  - rewrite Hf. reflexivity.
  - rewrite IH. reflexivity.
Qed.

Lemma touches_update (name : string) (f : fcolumn -> fcolumn) (t : table) :
  (forall c, col_name (f c) = col_name c) ->
  (forall c, dtype_of (f c) = dtype_of c) ->
  touches name t (update_column name f t).
Proof.
  intros Hn Hd. split.
  - apply names_update; assumption.
  - intros n Hne. rewrite find_column_update by assumption.
    destruct (String.eqb n name) eqn:E; [|reflexivity].
    apply String.eqb_eq in E. contradiction.
  - intros n. rewrite find_column_update by assumption.
    destruct (String.eqb n name); [|reflexivity].
    destruct (find_column n t); simpl; [rewrite Hd|]; reflexivity.
Qed.

Lemma has_name_find_column (name : string) (t : table) (c : fcolumn) :
  find_column name t = Some c -> has_name name (names t) = true.
Proof.
  unfold has_name, names. induction t as [|x t IH]; simpl; [discriminate|].
  rewrite (String.eqb_sym name (col_name x)).
  destruct (String.eqb (col_name x) name); simpl; [reflexivity | exact IH].
Qed.

Lemma unit_eqb_refl (u : option string) : unit_eqb u u = true.
Proof. destruct u; simpl; [apply String.eqb_refl | reflexivity]. Qed.

Lemma replace_invalid_valid (test : cell -> bool) (d : cell) (vs : list cell) :
  existsb (fun b => b) (map (fun v => negb (test v)) vs) = false ->
  replace_invalid test d vs = vs.
Proof.
  unfold replace_invalid. induction vs as [|v vs IH]; simpl; [reflexivity|].
  destruct (test v); simpl; [|discriminate].
  intros H. rewrite (IH H). reflexivity.
Qed.

Lemma replace_invalid_idem (test : cell -> bool) (d : cell) (vs : list cell) :
  replace_invalid test d (replace_invalid test d vs)
  = replace_invalid test d vs.
Proof.
  unfold replace_invalid. rewrite map_map. apply map_ext. intros v.
  destruct (test v) eqn:E; [rewrite E; reflexivity|].
  destruct (test d); reflexivity.
Qed.

Lemma run_option_repair (opt err_text fix_text : string)
      (f : table -> result table) (t : table) :
  reports_only opt = false ->
  run_option opt err_text fix_text (Some f) true t
  = bind (f t) (fun t' => Ok ((true, err_text ++ "  " ++ fix_text)%string, t')).
Proof. intros H. unfold run_option. rewrite H. reflexivity. Qed.

Ltac unfixable_step :=
  match goal with
  | |- context [run_option ?opt ?e ?f None false ?t] =>
      let text := fresh "text" in
      let E := fresh "E" in
      destruct (run_option_unfixable opt e f None t) as [text E];
      rewrite E; cbn [bind];
      eexists; split; [reflexivity|];
      repeat split; exists [(false, text)];
      split; [reflexivity | repeat constructor]
  end.

Section Settled.

Variable Column_array : string -> ndarray -> result ndarray.
Variable np_array : cell -> string -> result cell.
Variable get_nwaves : nat.
Variable COLUMNS : list coldesc.
Variable class_name : string.

(** A column on which the checks of its schema entry find nothing to fix:
    declared type and unit, and values that a replacement by the default
    leaves as they are. *)
Definition settled_column (cd : coldesc) (c : fcolumn) : Prop :=
  exists a d,
    col_array c = Some a /\
    DType._dtype_descr (cd_type cd) = Ok d /\
    DType._dtype_descr (arr_dtype a) = Ok d /\
    unit_eqb (col_unit c) (cd_unit cd) = true /\
    (forall test default default',
        cd_test cd = Some test ->
        cd_default cd = Some default ->
        np_array default (arr_dtype a) = Ok default' ->
        replace_invalid test default' (arr_values a) = arr_values a).

Definition settled (t : table) : Prop :=
  (forall cd c, In cd COLUMNS -> find_column (cd_name cd) t = Some c ->
                settled_column cd c) /\
  (forall n, In n (names t) -> VerifyClaims.flagged COLUMNS n = false).

Lemma check_required_extends (opt : string) (st : vstate) (c : string) :
  exists st', check_required class_name opt st c = Ok st' /\ extends st st'.
Proof.
  unfold check_required.
  destruct (negb (has_name c (names (vs_table st)))).
  - unfixable_step.
  - exists st; split; [reflexivity | apply extends_refl].
Qed.

Lemma vstate_eta (st : vstate) :
  {| vs_table := vs_table st; vs_errors := vs_errors st;
     vs_column_casts := vs_column_casts st |} = st.
Proof. destruct st; reflexivity. Qed.

(** On a settled table the checks of a schema entry change nothing and add
    no fixable finding. *)
Lemma check_column_settled (opt : string) (st : vstate) (cd : coldesc) :
  In cd COLUMNS -> settled (vs_table st) ->
  exists st', check_column np_array get_nwaves opt st cd = Ok st'
              /\ extends st st'.
Proof.
  intros Hcd [HS _]. unfold check_column.
  destruct (has_name (cd_name cd) (names (vs_table st))) eqn:Hn; simpl.
  2:{ exists st; split; [reflexivity | apply extends_refl]. }
  destruct (find_column_has_name _ _ Hn) as [c Hc].
  destruct (HS cd c Hcd Hc) as [a [d [Ha [Hspec [Hreal [Hunit Hval]]]]]].
  assert (Hdf : data_field (cd_name cd) (vs_table st) = Ok a).
  { unfold data_field. rewrite Hc, Ha. reflexivity. }
  (* type *)
  unfold check_type. rewrite Hdf. simpl. rewrite Hspec, Hreal. simpl.
  rewrite String.eqb_refl. simpl.
  (* unit *)
  unfold check_unit. rewrite Hc, Hunit. simpl.
  (* shape *)
  assert (Hshape : exists st1,
             check_shape get_nwaves opt cd st = Ok st1 /\ extends st st1).
  { unfold check_shape. rewrite Hdf. cbn [bind].
    destruct (negb (list_eqb Nat.eqb (resolve_shape get_nwaves (cd_shape cd))
                             (tl (arr_shape a)))).
    - unfixable_step.
    - exists st; split; [reflexivity | apply extends_refl]. }
  destruct Hshape as [st1 [E1 X1]]. rewrite E1. simpl.
  (* values *)
  assert (Hc1 : find_column (cd_name cd) (vs_table st1) = Some c)
    by (rewrite (proj1 X1); assumption).
  assert (Hdf1 : data_field (cd_name cd) (vs_table st1) = Ok a)
    by (rewrite (proj1 X1); assumption).
  unfold check_values.
  destruct (cd_test cd) as [test|] eqn:Ht.
  2:{ exists st1; split; [reflexivity | assumption]. }
  rewrite Hdf1. simpl.
  destruct (existsb (fun b => b)
                    (map (fun v => negb (test v)) (arr_values a))).
  2:{ exists st1; split; [reflexivity | assumption]. }
  destruct (cd_default cd) as [default|] eqn:Hd.
  - destruct (np_array default (arr_dtype a)) as [default'|e] eqn:Hnp.
    + unfold run_option. destruct (reports_only opt); simpl.
      * rewrite vstate_eta. exists st1; split; [reflexivity | assumption].
      * rewrite (Hval test default default' eq_refl eq_refl Hnp).
        rewrite (update_column_same _ _ _ Hc1 (set_values_same _ Ha)).
        rewrite vstate_eta. exists st1; split; [reflexivity | assumption].
    + unfold run_option. destruct (reports_only opt); simpl;
        rewrite vstate_eta; exists st1; (split; [reflexivity | assumption]).
  - unfold run_option. destruct (reports_only opt); simpl;
      rewrite vstate_eta; exists st1; (split; [reflexivity | assumption]).
Qed.


(** A pass over a settled table returns the table as it is, with findings
    that are not fixable appended. *)
Lemma verify_settled (opt : string) (errors : list finding) (t : table) :
  settled t ->
  exists errs,
    _verify Column_array np_array get_nwaves COLUMNS class_name errors opt t
    = Ok (errors ++ errs, t) /\ Forall not_fixable errs.
Proof.
  intros HS. unfold _verify.
  destruct (@foldM_extends _ (check_required class_name opt)
              (fun _ => True) (_get_oi_colnames COLUMNS true)
              (fun st c _ _ => check_required_extends opt st c)
              {| vs_table := t; vs_errors := errors; vs_column_casts := [] |} I)
    as [st1 [E1 X1]].
  rewrite E1. cbn [bind].
  destruct (@foldM_extends _ (check_column np_array get_nwaves opt)
              settled (_get_oi_columns COLUMNS false)
              (fun st cd Hcd HQ => check_column_settled opt st cd Hcd HQ) st1)
    as [st2 [E2 X2]].
  { rewrite (proj1 X1). exact HS. }
  rewrite E2. cbn [bind].
  pose proof (extends_trans X1 X2) as [T [C [es [Es Fs]]]].
  cbn [vs_table vs_errors vs_column_casts] in T, C, Es.
  assert (N : non_standard (_get_oi_colnames COLUMNS false)
                           (names (vs_table st2)) = []).
  { apply VerifyClaims.non_standard_nil. apply not_true_is_false. intros H.
    apply existsb_exists in H. destruct H as [n [Hn Fn]].
    rewrite T in Hn. pose proof (proj2 HS n Hn) as F.
    unfold VerifyClaims.flagged in F. congruence. }
  unfold check_names. rewrite N. cbn [bind].
  unfold apply_casts. rewrite C. cbn [bind].
  exists es. rewrite Es, T. split; [reflexivity | assumption].
Qed.


(** *** The repair pass *)

(** Every schema column of the table holds data of its declared type. *)
Definition typed (t : table) : Prop :=
  forall cd a, In cd COLUMNS -> data_field (cd_name cd) t = Ok a ->
               DType._dtype_descr (cd_type cd)
               = DType._dtype_descr (arr_dtype a).

Lemma data_field_Ok (name : string) (t : table) (a : ndarray) :
  data_field name t = Ok a <->
  exists c, find_column name t = Some c /\ col_array c = Some a.
Proof.
  unfold data_field. split.
  - destruct (find_column name t) as [c|]; [|discriminate].
    destruct (col_array c) as [a'|] eqn:E; [|discriminate].
    intros H; inversion H; subst. exists c; auto.
  - intros [c [-> ->]]. reflexivity.
Qed.

Lemma typed_touches (name : string) (t t' : table) :
  touches name t t' -> typed t -> typed t'.
Proof.
  intros [_ _ D] HT cd a' Hcd Hdf.
  apply data_field_Ok in Hdf. destruct Hdf as [c' [Hc' Ha']].
  pose proof (D (cd_name cd)) as Dn. rewrite Hc' in Dn.
  destruct (find_column (cd_name cd) t) as [c|] eqn:Hc; [|discriminate].
  simpl in Dn. inversion Dn as [Dc]. unfold dtype_of in Dc.
  rewrite Ha' in Dc. simpl in Dc.
  destruct (col_array c) as [a|] eqn:Ha; [|discriminate].
  simpl in Dc. inversion Dc as [Dd]. rewrite Dd.
  apply HT; [assumption|]. apply data_field_Ok. exists c; auto.
Qed.

Lemma check_type_typed (opt : string) (cd : coldesc) (st st' : vstate) :
  In cd COLUMNS -> typed (vs_table st) ->
  check_type opt cd st = Ok st' ->
  st' = st /\
  exists a d, data_field (cd_name cd) (vs_table st) = Ok a /\
              DType._dtype_descr (cd_type cd) = Ok d /\
              DType._dtype_descr (arr_dtype a) = Ok d.
Proof.
  intros Hcd HT H. unfold check_type in H.
  destruct (data_field (cd_name cd) (vs_table st)) as [a|e] eqn:Hdf;
    [|discriminate].
  cbn [bind] in H. pose proof (HT cd a Hcd Hdf) as E. rewrite E in H.
  destruct (DType._dtype_descr (arr_dtype a)) as [d|e] eqn:Hd;
    [|discriminate].
  cbn [bind] in H. rewrite String.eqb_refl in H. cbn [negb] in H.
  inversion H; subst. split; [reflexivity|]. exists a, d. auto.
Qed.

Lemma check_unit_repair (opt : string) (cd : coldesc) (st st' : vstate)
      (c : fcolumn) :
  reports_only opt = false ->
  find_column (cd_name cd) (vs_table st) = Some c ->
  check_unit opt cd st = Ok st' ->
  vs_column_casts st' = vs_column_casts st /\
  touches (cd_name cd) (vs_table st) (vs_table st') /\
  exists c', find_column (cd_name cd) (vs_table st') = Some c' /\
             col_array c' = col_array c /\
             unit_eqb (col_unit c') (cd_unit cd) = true.
Proof.
  intros Hopt Hc H. unfold check_unit in H. rewrite Hc in H.
  destruct (unit_eqb (col_unit c) (cd_unit cd)) eqn:Hu; cbn [negb] in H.
  - inversion H; subst. split; [reflexivity|].
    split; [apply touches_refl|]. exists c. auto.
  - rewrite run_option_repair in H by assumption. cbn [bind] in H.
    inversion H; subst; clear H. cbn [vs_table vs_column_casts].
    split; [reflexivity|]. split.
    + apply touches_update; intros; reflexivity.
    + exists (set_unit (cd_unit cd) c).
      rewrite find_column_update by (intros; reflexivity).
      rewrite String.eqb_refl, Hc. simpl.
      split; [reflexivity|]. split; [reflexivity | apply unit_eqb_refl].
Qed.

Lemma check_shape_table (opt : string) (cd : coldesc) (st st' : vstate) :
  check_shape get_nwaves opt cd st = Ok st' ->
  vs_table st' = vs_table st /\ vs_column_casts st' = vs_column_casts st.
Proof.
  unfold check_shape. intros H.
  destruct (data_field (cd_name cd) (vs_table st)) as [a|e]; [|discriminate].
  cbn [bind] in H.
  destruct (negb (list_eqb Nat.eqb (resolve_shape get_nwaves (cd_shape cd))
                           (tl (arr_shape a)))).
  - match type of H with
    | context [run_option ?o ?e ?f None false ?t] =>
        destruct (run_option_unfixable o e f None t) as [text E];
        rewrite E in H
    end.
    cbn [bind] in H. inversion H; subst. split; reflexivity.
  - inversion H; subst. split; reflexivity.
Qed.

(** The values of a column stay as they are when the invalid ones are
    replaced by the default converted to the column's own type. *)
Definition stable (cd : coldesc) (a : ndarray) : Prop :=
  forall test default default',
    cd_test cd = Some test ->
    cd_default cd = Some default ->
    np_array default (arr_dtype a) = Ok default' ->
    replace_invalid test default' (arr_values a) = arr_values a.

Lemma check_values_repair (opt : string) (cd : coldesc) (st st' : vstate)
      (c : fcolumn) (a : ndarray) :
  reports_only opt = false ->
  find_column (cd_name cd) (vs_table st) = Some c ->
  col_array c = Some a ->
  check_values np_array opt cd st = Ok st' ->
  vs_column_casts st' = vs_column_casts st /\
  touches (cd_name cd) (vs_table st) (vs_table st') /\
  exists c' a', find_column (cd_name cd) (vs_table st') = Some c' /\
                col_unit c' = col_unit c /\
                col_array c' = Some a' /\
                arr_dtype a' = arr_dtype a /\
                stable cd a'.
Proof.
  intros Hopt Hc Ha H. unfold check_values in H.
  assert (Hdf : data_field (cd_name cd) (vs_table st) = Ok a)
    by (apply data_field_Ok; exists c; auto).
  assert (Keep : forall s : vstate,
             vs_table s = vs_table st ->
             vs_column_casts s = vs_column_casts st ->
             stable cd a ->
             vs_column_casts s = vs_column_casts st /\
             touches (cd_name cd) (vs_table st) (vs_table s) /\
             exists c' a', find_column (cd_name cd) (vs_table s) = Some c' /\
                           col_unit c' = col_unit c /\
                           col_array c' = Some a' /\
                           arr_dtype a' = arr_dtype a /\
                           stable cd a').
  { intros s Ts Cs Hst. split; [assumption|]. rewrite Ts.
    split; [apply touches_refl|]. exists c, a. auto. }
  destruct (cd_test cd) as [test|] eqn:Ht.
  2:{ inversion H; subst. apply Keep; try reflexivity.
      intros test d d' Ht'. congruence. }
  rewrite Hdf in H. cbn [bind] in H.
  destruct (existsb (fun b => b)
                    (map (fun v => negb (test v)) (arr_values a))) eqn:Hinv.
  2:{ inversion H; subst. apply Keep; try reflexivity.
      intros test' d d' Ht' _ _.
      assert (test' = test) by congruence. subst test'.
      apply replace_invalid_valid; assumption. }
  destruct (cd_default cd) as [default|] eqn:Hd.
  2:{ unfold run_option in H. rewrite Hopt in H. cbn [negb bind] in H.
      inversion H; subst. apply Keep; try reflexivity.
      intros test' d d' _ Hd'. congruence. }
  destruct (np_array default (arr_dtype a)) as [default'|e] eqn:Hnp.
  2:{ unfold run_option in H. rewrite Hopt in H. cbn [negb bind] in H.
      inversion H; subst. apply Keep; try reflexivity.
      intros test' d d' _ Hd' Hnp'.
      assert (d = default) by congruence. subst d. congruence. }
  rewrite run_option_repair in H by assumption. cbn [bind] in H.
  inversion H; subst; clear H. cbn [vs_table vs_column_casts].
  split; [reflexivity|]. split.
  - apply touches_update; intros x; [reflexivity|].
    unfold dtype_of. simpl. destruct (col_array x); reflexivity.
  - exists (set_values (replace_invalid test default' (arr_values a)) c).
    exists {| arr_dtype := arr_dtype a; arr_shape := arr_shape a;
              arr_values := replace_invalid test default' (arr_values a) |}.
    rewrite find_column_update by (intros; reflexivity).
    rewrite String.eqb_refl, Hc. simpl. rewrite Ha.
    repeat split.
    intros test' d d' Ht' Hd' Hnp'. cbn [arr_dtype arr_values] in *.
    assert (test' = test) by congruence. subst test'.
    assert (d = default) by congruence. subst d.
    assert (d' = default') by congruence. subst d'.
    apply replace_invalid_idem.
Qed.

(** In repair mode, on a table whose schema columns have their declared
    types, the checks of a schema entry queue no cast, touch the column of
    that entry only, and leave it settled. *)
Lemma check_column_repair (opt : string) (st st' : vstate) (cd : coldesc) :
  reports_only opt = false -> In cd COLUMNS -> typed (vs_table st) ->
  check_column np_array get_nwaves opt st cd = Ok st' ->
  vs_column_casts st' = vs_column_casts st /\
  touches (cd_name cd) (vs_table st) (vs_table st') /\
  (forall c', find_column (cd_name cd) (vs_table st') = Some c' ->
              settled_column cd c').
Proof.
  intros Hopt Hcd HT H. unfold check_column in H.
  destruct (has_name (cd_name cd) (names (vs_table st))) eqn:Hn;
    cbn [negb] in H.
  2:{ inversion H; subst. split; [reflexivity|].
      split; [apply touches_refl|]. intros c' Hc'.
      apply has_name_find_column in Hc'. congruence. }
  inv_bind H. rename a into s1, Ha into H1.
  inv_bind H. rename a into s2, Ha into H2.
  inv_bind H. rename a into s3, Ha into H3. rename H into H4.
  destruct (@check_type_typed opt cd st s1 Hcd HT H1) as [-> [a [d [Hdf [Hspec Hreal]]]]].
  apply data_field_Ok in Hdf. destruct Hdf as [c [Hc Ha]].
  destruct (@check_unit_repair opt cd st s2 c Hopt Hc H2)
    as [C2 [T2 [c2 [Hc2 [Ha2 Hu2]]]]].
  destruct (@check_shape_table opt cd s2 s3 H3) as [T3 C3].
  rewrite <- T3 in Hc2. rewrite Ha in Ha2.
  destruct (@check_values_repair opt cd s3 st' c2 a Hopt Hc2 Ha2 H4)
    as [C4 [T4 [c4 [a4 [Hc4 [Hu4 [Ha4 [Hd4 Hst4]]]]]]]].
  split; [congruence|]. split.
  - eapply touches_trans; [exact T2|]. rewrite <- T3. exact T4.
  - intros c' Hc'. rewrite Hc4 in Hc'. inversion Hc'; subst c'.
    exists a4, d. rewrite Hd4, Hu4. repeat split; try assumption.
    intros test default default' Ht Hd Hnp. rewrite <- Hd4 in Hnp.
    exact (Hst4 test default default' Ht Hd Hnp).
Qed.

Lemma columns_repair (opt : string) (l : list coldesc) :
  reports_only opt = false -> incl l COLUMNS -> NoDup (map cd_name l) ->
  forall st st',
    typed (vs_table st) ->
    foldM (check_column np_array get_nwaves opt) l st = Ok st' ->
    vs_column_casts st' = vs_column_casts st /\
    names (vs_table st') = names (vs_table st) /\
    (forall n, ~ In n (map cd_name l) ->
               find_column n (vs_table st') = find_column n (vs_table st)) /\
    (forall cd c', In cd l ->
                   find_column (cd_name cd) (vs_table st') = Some c' ->
                   settled_column cd c').
Proof.
  intros Hopt. induction l as [|cd l IH]; intros Hin Hnd st st' HT H.
  - simpl in H. inversion H; subst. repeat split; try reflexivity.
    intros cd c' [].
  - simpl in H. inv_bind H. rename a into s1, Ha into H1.
    inversion Hnd as [|x xs Hnotin Hnd']; subst.
    assert (Hcd : In cd COLUMNS) by (apply Hin; left; reflexivity).
    destruct (@check_column_repair opt st s1 cd Hopt Hcd HT H1) as [C1 [T1 S1]].
    destruct (IH (fun x Hx => Hin x (or_intror Hx)) Hnd' s1 st'
                 (@typed_touches (cd_name cd) _ _ T1 HT) H)
      as [C2 [N2 [O2 S2]]].
    split; [congruence|].
    split; [rewrite N2; apply (t_names T1)|]. split.
    + intros n Hn. simpl in Hn.
      rewrite O2 by tauto. apply (t_others T1). intros E. apply Hn. auto.
    + intros cd' c' [E|Hin'] Hc'.
      * subst cd'. apply S1. rewrite <- O2; assumption.
      * eapply S2; eassumption.
Qed.

Lemma check_names_repair (opt : string) (st st' : vstate) :
  reports_only opt = false ->
  check_names COLUMNS opt st = Ok st' ->
  vs_column_casts st' = vs_column_casts st /\
  vs_table st'
  = map (fun c => if VerifyClaims.flagged COLUMNS (col_name c)
                  then set_name ("NS_" ++ col_name c)%string c
                  else c) (vs_table st).
Proof.
  intros Hopt H. unfold check_names in H.
  destruct (non_standard (_get_oi_colnames COLUMNS false)
                         (names (vs_table st))) as [|on subst] eqn:E.
  - inversion H; subst. split; [reflexivity|].
    apply VerifyClaims.non_standard_nil in E.
    rewrite <- (map_id (vs_table st')) at 1. apply map_ext_in.
    intros c Hc.
    destruct (VerifyClaims.flagged COLUMNS (col_name c)) eqn:F;
      [|reflexivity].
    exfalso. assert (X : existsb (fun n =>
                negb (has_name n (_get_oi_colnames COLUMNS false))
                && negb (has_underscore n)) (names (vs_table st')) = true).
    { apply existsb_exists. exists (col_name c). split; [|exact F].
      unfold names. apply in_map. assumption. }
    congruence.
  - rewrite <- E in H. rewrite run_option_repair in H by assumption.
    cbn [bind] in H. inversion H; subst. cbn [vs_table vs_column_casts].
    split; [reflexivity|]. apply VerifyClaims.rename_non_standard.
Qed.

Lemma find_column_renamed (s : string) (t : table) :
  VerifyClaims.flagged COLUMNS s = false ->
  String.prefix "NS_" s = false ->
  find_column s
    (map (fun c => if VerifyClaims.flagged COLUMNS (col_name c)
                   then set_name ("NS_" ++ col_name c)%string c
                   else c) t)
  = find_column s t.
Proof.
  intros Fs Ps. induction t as [|x t IH]; [reflexivity|].
  cbn [map find_column].
  destruct (VerifyClaims.flagged COLUMNS (col_name x)) eqn:Fx.
  - cbn [set_name col_name].
    destruct (String.eqb ("NS_" ++ col_name x) s) eqn:E1.
    { apply String.eqb_eq in E1. subst s. cbn in Ps.
      destruct (col_name x); discriminate Ps. }
    destruct (String.eqb (col_name x) s) eqn:E2.
    { apply String.eqb_eq in E2. subst s. congruence. }
    exact IH.
  - destruct (String.eqb (col_name x) s); [reflexivity | exact IH].
Qed.

Lemma schema_name_not_flagged (cd : coldesc) :
  In cd COLUMNS -> VerifyClaims.flagged COLUMNS (cd_name cd) = false.
Proof.
  intros Hcd. unfold VerifyClaims.flagged.
  replace (has_name (cd_name cd) (_get_oi_colnames COLUMNS false)) with true;
    [reflexivity|].
  symmetry. apply has_name_In. unfold _get_oi_colnames, _get_oi_columns.
  apply in_map. assumption.
Qed.

(** A repair pass that queues no cast leaves a settled table. *)
Lemma verify_repair_settles (opt : string) (errors errs1 : list finding)
      (t t1 : table) :
  NoDup (map cd_name COLUMNS) ->
  (forall cd, In cd COLUMNS -> String.prefix "NS_" (cd_name cd) = false) ->
  typed t ->
  reports_only opt = false ->
  _verify Column_array np_array get_nwaves COLUMNS class_name errors opt t
  = Ok (errs1, t1) ->
  settled t1.
Proof.
  intros Hnd Hpre HT Hopt H. unfold _verify in H.
  destruct (@foldM_extends _ (check_required class_name opt)
              (fun _ => True) (_get_oi_colnames COLUMNS true)
              (fun st c _ _ => check_required_extends opt st c)
              {| vs_table := t; vs_errors := errors; vs_column_casts := [] |} I)
    as [s1 [E1 [T1 [C1 _]]]].
  rewrite E1 in H. cbn [bind] in H.
  cbn [vs_table vs_column_casts] in T1, C1.
  inv_bind H. rename a into s2, Ha into H2.
  inv_bind H. rename a into s3, Ha into H3.
  inv_bind H. rename a into s4, Ha into H4.
  inversion H; subst errs1 t1; clear H.
  unfold _get_oi_columns in H2.
  assert (HT1 : typed (vs_table s1)) by (rewrite T1; assumption).
  destruct (@columns_repair opt COLUMNS Hopt (incl_refl _) Hnd s1 s2 HT1 H2)
    as [C2 [N2 [_ S2]]].
  destruct (@check_names_repair opt s2 s3 Hopt H3) as [C3 T3].
  assert (E4 : s4 = s3).
  { unfold apply_casts in H4. rewrite C3, C2, C1 in H4.
    inversion H4; reflexivity. }
  subst s4. rewrite T3. split.
  - intros cd c Hcd Hc.
    rewrite find_column_renamed in Hc
      by (auto using schema_name_not_flagged).
    eapply S2; eassumption.
  - intros n Hn. unfold names in Hn. rewrite map_map in Hn.
    apply in_map_iff in Hn. destruct Hn as [c [Hn _]]. subst n.
    destruct (VerifyClaims.flagged COLUMNS (col_name c)) eqn:F;
      [|exact F].
    cbn [set_name col_name]. unfold VerifyClaims.flagged.
    replace (has_underscore ("NS_" ++ col_name c)) with true
      by reflexivity.
    apply andb_false_r.
Qed.

End Settled.

Import VerifyExamples.




End Idempotence.

(** * Further properties of the code *)

(** ** Lists of results and dictionaries *)

Lemma mapM_Forall2 {A B : Type} (f : A -> result B) (l : list A)
      (bs : list B) :
  mapM f l = Ok bs -> Forall2 (fun a b => f a = Ok b) l bs.
Proof.
  revert bs; induction l as [|a l IH]; simpl; intros bs H.
  - inversion H; constructor.
  - inv_bind H. inv_bind H. inversion H; subst.
    constructor; [assumption | apply IH; assumption].
Qed.

Lemma mapM_total {A B : Type} (f : A -> result B) (l : list A) :
  (forall a, In a l -> exists b, f a = Ok b) -> exists bs, mapM f l = Ok bs.
Proof.
  induction l as [|a l IH]; simpl; intros H.
  - exists []; reflexivity.
  - destruct (H a (or_introl eq_refl)) as [b Hb]. rewrite Hb. simpl.
    destruct IH as [bs Hbs]; [intros x Hx; apply H; right; assumption|].
    rewrite Hbs. simpl. exists (b :: bs); reflexivity.
Qed.

Lemma foldM_concat {A St : Type} (f : St -> A -> result St)
      (ls : list (list A)) (s : St) :
  foldM (fun acc l => foldM f l acc) ls s = foldM f (concat ls) s.
Proof.
  revert s; induction ls as [|l ls IH]; simpl; intros s; [reflexivity|].
  rewrite foldM_app. destruct (foldM f l s); simpl; [apply IH | reflexivity].
Qed.

Lemma find_app_Some {A : Type} (p : A -> bool) (l1 l2 : list A) (a : A) :
  find p l1 = Some a -> find p (l1 ++ l2) = Some a.
Proof.
  induction l1 as [|x l1 IH]; simpl; [discriminate|].
  destruct (p x); [auto | exact IH].
Qed.

Lemma find_app_None {A : Type} (p : A -> bool) (l1 l2 : list A) :
  find p l1 = None -> find p (l1 ++ l2) = find p l2.
Proof.
  induction l1 as [|x l1 IH]; simpl; [reflexivity|].
  destruct (p x); [discriminate | exact IH].
Qed.

Lemma NoDup_map_inj {A B : Type} (f : A -> B) (l : list A) (a b : A) :
  NoDup (map f l) -> In a l -> In b l -> f a = f b -> a = b.
Proof.
  induction l as [|x l IH]; simpl; [tauto|]. intros Hn Ha Hb E.
  inversion Hn as [|y ys Hx Hn']; subst.
  destruct Ha as [->|Ha], Hb as [->|Hb]; [reflexivity| | |auto].
  - exfalso. apply Hx. rewrite E. apply in_map. assumption.
  - exfalso. apply Hx. rewrite <- E. apply in_map. assumption.
Qed.

Section LastWins.

Variables K V : Type.
Variable eqb : K -> K -> bool.
Hypothesis eqb_eq : forall a b, eqb a b = true <-> a = b.

Lemma assoc_of_pairs_snoc (pairs : list (K * V)) (kv : K * V) :
  assoc_of_pairs eqb (pairs ++ [kv])
  = assoc_set eqb (fst kv) (snd kv) (assoc_of_pairs eqb pairs).
Proof. unfold assoc_of_pairs. rewrite fold_left_app. reflexivity. Qed.

(** [dict(pairs)[k]] is the value of the last pair with the key [k]. *)
Lemma assoc_of_pairs_last (pairs : list (K * V)) (k : K) :
  assoc_get eqb k (assoc_of_pairs eqb pairs)
  = option_map snd (find (fun kv => eqb k (fst kv)) (rev pairs)).
Proof.
  induction pairs as [|kv pairs IH] using rev_ind; [reflexivity|].
  rewrite assoc_of_pairs_snoc, rev_app_distr. simpl.
  destruct (eqb k (fst kv)) eqn:E.
  - apply eqb_eq in E. subst k. simpl.
    apply (@assoc_get_set_same K V eqb eqb_eq).
  - rewrite (@assoc_get_set_other K V eqb eqb_eq); [exact IH|].
    intros ->. assert (eqb (fst kv) (fst kv) = true) by (apply eqb_eq; auto).
    congruence.
Qed.

End LastWins.

(** ** Type codes *)

Module DTypeFacts.

Import DType.

Lemma to_uint_not_Nil (n : nat) : Nat.to_uint n <> Decimal.Nil.
Proof.
  rewrite <- (DecimalNat.Unsigned.of_to n) at 1.
  rewrite DecimalNat.Unsigned.to_of. unfold Decimal.unorm.
  destruct (Decimal.nzhead (Nat.to_uint n)); discriminate.
Qed.

(** [int(str(n)) == n] *)
Lemma int_of_string_of_nat (n : nat) : int_of_string (string_of_nat n) = Ok n.
Proof.
  unfold int_of_string, string_of_nat.
  rewrite DecimalString.NilZero.usu by apply to_uint_not_Nil.
  rewrite DecimalNat.Unsigned.of_to. reflexivity.
Qed.

(** [t.rstrip(chars)] *)
Definition rstrip (chars : string) (t : string) : string :=
  string_of_list_ascii (rev (lstrip chars (rev (list_ascii_of_string t)))).

Lemma lstrip_snoc (chars : string) (c : ascii) (l : list ascii) :
  in_chars c chars = false ->
  lstrip chars (l ++ [c]) = lstrip chars l ++ [c].
Proof.
  intros Hc. induction l as [|x l IH]; simpl.
  - rewrite Hc. reflexivity.
  - destruct (in_chars x chars); [exact IH | reflexivity].
Qed.

Lemma strip_mark (chars : string) (c : ascii) (t : string) :
  in_chars c chars = true -> strip chars (String c t) = strip chars t.
Proof. intros Hc. unfold strip. simpl. rewrite Hc. reflexivity. Qed.

Lemma strip_head (chars : string) (c : ascii) (t : string) :
  in_chars c chars = false ->
  strip chars (String c t) = String c (rstrip chars t).
Proof.
  intros Hc. unfold strip, rstrip. simpl. rewrite Hc. simpl.
  rewrite lstrip_snoc by assumption. rewrite rev_app_distr. reflexivity.
Qed.

Lemma lstrip_clean (chars : string) (l : list ascii) :
  Forall (fun c => in_chars c chars = false) l -> lstrip chars l = l.
Proof.
  destruct l as [|c l]; [reflexivity|]. intros H. inversion H; subst.
  simpl. rewrite H2. reflexivity.
Qed.

Lemma rstrip_clean (chars : string) (t : string) :
  Forall (fun c => in_chars c chars = false) (list_ascii_of_string t) ->
  rstrip chars t = t.
Proof.
  intros H. unfold rstrip. rewrite lstrip_clean.
  - rewrite rev_involutive. apply string_of_list_ascii_of_string.
  - apply Forall_rev. assumption.
Qed.

Lemma digits_clean (n : nat) :
  Forall (fun c => in_chars c "|<>" = false)
         (list_ascii_of_string (string_of_nat n)).
Proof.
  unfold string_of_nat.
  assert (G : forall d, Forall (fun c => in_chars c "|<>" = false)
                (list_ascii_of_string
                   (DecimalString.NilEmpty.string_of_uint d))).
  { induction d; simpl; constructor; solve [reflexivity | assumption]. }
  destruct (Nat.to_uint n) eqn:E;
    try (rewrite <- E; unfold DecimalString.NilZero.string_of_uint;
         rewrite E; apply G).
  simpl. repeat constructor.
Qed.

Lemma list_ascii_app (s t : string) :
  list_ascii_of_string (s ++ t)
  = list_ascii_of_string s ++ list_ascii_of_string t.
Proof. induction s; simpl; [reflexivity | f_equal; assumption]. Qed.

Lemma last_char_snoc (s : string) (c : ascii) :
  Columns.last_char (s ++ String c "") = Some c.
Proof.
  unfold Columns.last_char. rewrite list_ascii_app, map_app. simpl.
  apply last_last.
Qed.

Lemma drop_last_snoc (s : string) (c : ascii) :
  Columns.drop_last (s ++ String c "") = s.
Proof.
  unfold Columns.drop_last. rewrite list_ascii_app. simpl.
  rewrite removelast_last. apply string_of_list_ascii_of_string.
Qed.

(** X1.  The byte-order mark of a type code plays no part: with [<], [>]
    or [|] in front, [_dtype_descr] and [_dtype_to_fits] give what they
    give for the bare code. *)
Theorem dtype_ignores_byte_order (t : string) (shape : list nat) :
  (_dtype_descr ("<" ++ t) = _dtype_descr t /\
   _dtype_descr (">" ++ t) = _dtype_descr t /\
   _dtype_descr ("|" ++ t) = _dtype_descr t) /\
  (_dtype_to_fits ("<" ++ t) shape = _dtype_to_fits t shape /\
   _dtype_to_fits (">" ++ t) shape = _dtype_to_fits t shape /\
   _dtype_to_fits ("|" ++ t) shape = _dtype_to_fits t shape).
Proof.
  unfold _dtype_descr, _dtype_to_fits. simpl append.
  rewrite !strip_mark by reflexivity. repeat split; reflexivity.
Qed.

(** X2.  Character types.  A character type of width [n] is described as
    [n-byte string] ([bytes] from two on), and the description does not
    tell the byte strings [S] from the unicode strings [U]: whatever
    follows the letter, both get the same result. *)
Theorem dtype_descr_string (n : nat) (w : string) :
  _dtype_descr ("U" ++ string_of_nat n)
  = Ok (string_of_nat n ++ "-byte" ++ plural n ++ " string")%string /\
  _dtype_descr ("S" ++ w) = _dtype_descr ("U" ++ w).
Proof.
  unfold _dtype_descr. simpl append.
  rewrite !strip_head by reflexivity. split.
  - rewrite rstrip_clean by apply digits_clean.
    change (in_chars "U" "SU") with true. cbv iota.
    rewrite int_of_string_of_nat. reflexivity.
  - reflexivity.
Qed.

Lemma fold_mul_from (l : list nat) (a : nat) :
  fold_left Nat.mul l a = a * fold_left Nat.mul l 1.
Proof.
  revert a. induction l as [|x l IH]; intros a; cbn [fold_left]; [lia|].
  rewrite (IH (a * x)), (IH (1 * x)). lia.
Qed.

(** X3.  The column built for a character type.  For a schema entry of
    type [U] with width [n], [_minimal_fits_column] allocates the array
    and returns what the constructor of astropy returns for the name and
    the unit of the entry, the format made of the width times the sizes
    of the axes after the first, followed by [A], and, with at least one
    axis, the [dim] made of that same number followed by the axes after
    the first; with no axis no [dim] is passed.  The [null] it gets is
    never passed on.  The product of the [dim] passed is the repeat count
    of the format times the sizes of the axes after the first. *)
Theorem minimal_fits_column_string
        (np_ndarray : list nat -> string -> result ndarray)
        (fits_Column : string -> string -> option (list nat) ->
                       option string -> result fcolumn)
        (name : string) (required : bool)
        (n : nat) (shape_ : list dim) (test : option (cell -> bool))
        (default : option cell) (unit : option string) (comment : string)
        (d : nat) (ds : list nat) (null : option Z) :
  let cd := {| cd_name := name; cd_required := required;
               cd_type := "U" ++ string_of_nat n; cd_shape := shape_;
               cd_test := test; cd_default := default; cd_unit := unit;
               cd_comment := comment |} in
  let count := n * fold_left Nat.mul ds 1 in
  Columns._minimal_fits_column np_ndarray fits_Column cd (d :: ds) null
  = (array <- np_ndarray (d :: ds) ("U" ++ string_of_nat n)%string ;;
     fits_Column name (string_of_nat count ++ "A")%string (Some (count :: ds))
                 unit) /\
  fold_left Nat.mul (count :: ds) 1 = count * fold_left Nat.mul ds 1 /\
  Columns._minimal_fits_column np_ndarray fits_Column cd [] null
  = (array <- np_ndarray [] ("U" ++ string_of_nat n)%string ;;
     fits_Column name (string_of_nat n ++ "A")%string None unit).
Proof.
  intros cd count.
  assert (F : forall shape,
             _dtype_to_fits ("U" ++ string_of_nat n) shape
             = Ok (string_of_nat (n * prod_tail shape) ++ "A")%string).
  { intros shape. unfold _dtype_to_fits. simpl append.
    rewrite strip_head by reflexivity.
    rewrite rstrip_clean by apply digits_clean.
    change (in_chars "U" "SU") with true. cbv iota.
    rewrite int_of_string_of_nat. reflexivity. }
  unfold Columns._minimal_fits_column. subst cd count.
  cbn [cd_name cd_type cd_unit].
  rewrite !F. cbn [bind length Nat.leb tl prod_tail].
  rewrite last_char_snoc, drop_last_snoc, int_of_string_of_nat.
  unfold prod_tail. cbn [tl fold_left bind]. rewrite Nat.mul_1_r.
  split; [|split].
  - destruct (np_ndarray (d :: ds) ("U" ++ string_of_nat n)%string);
      cbn [bind]; [|reflexivity].
    match goal with |- bind ?c _ = _ => destruct c; reflexivity end.
  - rewrite Nat.mul_1_l. apply fold_mul_from.
  - destruct (np_ndarray [] ("U" ++ string_of_nat n)%string); cbn [bind];
      [|reflexivity].
    match goal with |- bind ?c _ = _ => destruct c; reflexivity end.
Qed.

End DTypeFacts.

(** ** Casting and merging columns *)

Module ColumnFacts.

Import Columns.

Section CastFacts.

Variable Column_array : string -> ndarray -> result ndarray.

(** What [_cast_columns] may do to one column: leave it, or give it the
    format and unit of its schema entry, with the data converted. *)
Definition cast_of (colsdesc : list coldesc) (c c' : fcolumn) : Prop :=
  c' = c \/
  exists cd fmt,
    find_coldesc (col_name c) colsdesc = Some cd /\
    DType._dtype_to_fits (cd_type cd) (array_shape (col_array c)) = Ok fmt /\
    fmt <> col_format c /\
    col_name c' = col_name c /\ col_format c' = fmt /\
    col_unit c' = cd_unit cd /\ col_null c' = col_null c /\
    col_dim c' = col_dim c /\
    match col_array c with
    | Some a => exists a', Column_array fmt a = Ok a' /\ col_array c' = Some a'
    | None => col_array c' = None
    end.

Lemma cast_one_cast_of (colsdesc : list coldesc) (c c' : fcolumn) :
  cast_one Column_array colsdesc c = Ok c' -> cast_of colsdesc c c'.
Proof.
  unfold cast_one. destruct (find_coldesc (col_name c) colsdesc) as [cd|] eqn:F.
  2:{ intros H; inversion H; left; reflexivity. }
  intros H. inv_bind H. rename a into spec.
  destruct (String.eqb spec (col_format c)) eqn:E; cbn [negb] in H.
  { inversion H; left; reflexivity. }
  destruct (_cast_column Column_array c cd) as [col'|e] eqn:C.
  2:{ inversion H; left; reflexivity. }
  inversion H; subst col'; clear H.
  unfold _cast_column in C. rewrite Ha in C. cbn [bind] in C.
  right. exists cd, spec. split; [assumption|]. split; [assumption|].
  split. { intros ->. rewrite String.eqb_refl in E. discriminate. }
  destruct (col_array c) as [a|].
  - destruct (Column_array spec a) as [a'|e] eqn:CA; [|discriminate].
    cbn [bind] in C. inversion C; subst; cbn.
    repeat split. exists a'. auto.
  - cbn [bind] in C. inversion C; subst; cbn. repeat split.
Qed.

Lemma cast_columns_cast_of (cols cols' : list fcolumn)
      (colsdesc : list coldesc) :
  _cast_columns Column_array cols colsdesc = Ok cols' ->
  Forall2 (cast_of colsdesc) cols cols'.
Proof.
  intros H. unfold _cast_columns in H. apply mapM_Forall2 in H.
  eapply Forall2_impl; [|exact H]. intros a b. apply cast_one_cast_of.
Qed.

Lemma cast_of_name (colsdesc : list coldesc) (c c' : fcolumn) :
  cast_of colsdesc c c' -> col_name c' = col_name c.
Proof.
  intros [->|[cd [fmt [_ [_ [_ [N _]]]]]]]; [reflexivity | assumption].
Qed.

Lemma cast_columns_names (cols cols' : list fcolumn)
      (colsdesc : list coldesc) :
  _cast_columns Column_array cols colsdesc = Ok cols' ->
  map col_name cols' = map col_name cols.
Proof.
  intros H. apply cast_columns_cast_of in H.
  induction H as [|c c' cs cs' Hc _ IH]; simpl; [reflexivity|].
  rewrite IH, (cast_of_name Hc). reflexivity.
Qed.

(** X4.  A cast keeps the table's layout.  When [_cast_columns] returns,
    it returns one column per input column, in order; each is the input
    column itself, or has its name, null value and [dim], with the format
    and the unit of the first schema entry of that name and the data as
    astropy converts them to that format. *)
Theorem cast_columns_layout (cols cols' : list fcolumn)
        (colsdesc : list coldesc) :
  _cast_columns Column_array cols colsdesc = Ok cols' ->
  Forall2 (cast_of colsdesc) cols cols' /\
  map col_name cols' = map col_name cols /\
  map col_null cols' = map col_null cols /\
  map col_dim cols' = map col_dim cols.
Proof.
  intros H. pose proof (cast_columns_cast_of _ _ H) as F.
  split; [assumption|]. clear H.
  induction F as [|c c' cs cs' Hc _ IH]; simpl; [auto|].
  destruct IH as [I1 [I2 I3]].
  destruct Hc as [->|[cd [fmt [_ [_ [_ [N [_ [_ [Nu [D _]]]]]]]]]]].
  - rewrite I1, I2, I3. auto.
  - rewrite I1, I2, I3, N, Nu, D. auto.
Qed.

(** X5.  A conversion that fails is swallowed.  When the type of every
    schema entry that names a column of the table has a FITS format,
    [_cast_columns] returns, whatever astropy does with the data: a column
    whose conversion raises is kept as it is. *)
Theorem cast_columns_total (cols : list fcolumn) (colsdesc : list coldesc) :
  (forall c cd, In c cols ->
                find_coldesc (col_name c) colsdesc = Some cd ->
                exists fmt, DType._dtype_to_fits
                              (cd_type cd) (array_shape (col_array c))
                            = Ok fmt) ->
  (exists cols', _cast_columns Column_array cols colsdesc = Ok cols') /\
  (forall c cd fmt a e,
      In c cols ->
      find_coldesc (col_name c) colsdesc = Some cd ->
      DType._dtype_to_fits (cd_type cd) (array_shape (col_array c))
      = Ok fmt ->
      col_array c = Some a ->
      Column_array fmt a = Raise e ->
      cast_one Column_array colsdesc c = Ok c).
Proof.
  intros Hty. split.
  - apply mapM_total. intros c Hc. unfold cast_one.
    destruct (find_coldesc (col_name c) colsdesc) as [cd|] eqn:F;
      [|exists c; reflexivity].
    destruct (Hty c cd Hc F) as [fmt Hf]. rewrite Hf. cbn [bind].
    destruct (negb (String.eqb fmt (col_format c))); [|exists c; reflexivity].
    destruct (_cast_column Column_array c cd) as [c'|e];
      eexists; reflexivity.
  - intros c cd fmt a e Hc F Hf Ha Hr. unfold cast_one. rewrite F, Hf.
    cbn [bind]. destruct (negb (String.eqb fmt (col_format c)));
      [|reflexivity].
    unfold _cast_column. rewrite Hf, Ha. cbn [bind]. rewrite Hr.
    reflexivity.
Qed.

End CastFacts.

Import VerifyExamples.

Lemma cast_columns_layout_witness :
  Columns._cast_columns NumpyModel.Column_array
    [category_column 1 [CStr "S"]; extra_column "SNR"] [CATEGORY]
  = Ok [category_column 3 [CStr "S"]; extra_column "SNR"] /\
  map col_name [category_column 3 [CStr "S"]; extra_column "SNR"]
  = map col_name [category_column 1 [CStr "S"]; extra_column "SNR"].
Proof.
  split; [reflexivity|].
  exact (proj1 (proj2 (@cast_columns_layout NumpyModel.Column_array
                         [category_column 1 [CStr "S"]; extra_column "SNR"]
                         [category_column 3 [CStr "S"]; extra_column "SNR"]
                         [CATEGORY] eq_refl))).
Defined.

Lemma cast_columns_total_witness :
  exists cols',
    Columns._cast_columns NumpyModel.Column_array
      [category_column 1 [CStr "S"]; extra_column "SNR"] [CATEGORY]
    = Ok cols'.
Proof.
  apply (@cast_columns_total NumpyModel.Column_array
           [category_column 1 [CStr "S"]; extra_column "SNR"] [CATEGORY]).
  intros c cd [<-|[<-|[]]] F; vm_compute in F; inversion F; subst.
  exists "3A". reflexivity.
Defined.

Lemma find_name_None (name : string) (l : list fcolumn) :
  ~ In name (map col_name l) ->
  find (fun x => String.eqb (col_name x) name) l = None.
Proof.
  induction l as [|x l IH]; simpl; [reflexivity|]. intros H.
  destruct (String.eqb (col_name x) name) eqn:E.
  - apply String.eqb_eq in E. tauto.
  - apply IH. tauto.
Qed.

Section FirstWins.

Variable np_ndarray : list nat -> string -> result ndarray.
Variable fits_Column :
  string -> string -> option (list nat) -> option string -> result fcolumn.
Variable oicolumns : list coldesc.

(** The loop of [_merge_fits_columns] over the columns read so far
    ([done]) and those to come ([cs]): a column it holds is the first of
    its name. *)
Lemma merge_column_fold_first (acc' : list fcolumn * list string) :
  forall cs done acc,
  foldM (merge_column np_ndarray fits_Column oicolumns) cs acc
  = Ok acc' ->
  snd acc = map col_name (fst acc) ->
  (forall n, In n (map col_name done) -> In n (snd acc)) ->
  (forall c, In c (fst acc) ->
             find (fun x => String.eqb (col_name x) (col_name c))
                  done = Some c) ->
  forall c, In c (fst acc') ->
            find (fun x => String.eqb (col_name x) (col_name c))
                 (done ++ cs) = Some c.
Proof.
  induction cs as [|x cs IH]; simpl; intros done acc H Hs Hd Hf c Hc.
  - inversion H; subst. rewrite app_nil_r. apply Hf; assumption.
  - inv_bind H. rename a into acc1.
    replace (done ++ x :: cs) with ((done ++ [x]) ++ cs)
      by (rewrite <- app_assoc; reflexivity).
    apply (IH (done ++ [x]) acc1 H); [| | |assumption].
    + destruct (ColumnClaims.merge_column_acc _ _ _ _ _ Ha)
        as [[H1 [H2 _]]|[H1 [H2 _]]].
      * congruence.
      * rewrite H1, H2, map_app, Hs. reflexivity.
    + intros n Hn. rewrite map_app, in_app_iff in Hn. simpl in Hn.
      destruct (ColumnClaims.merge_column_acc _ _ _ _ _ Ha)
        as [[H1 [H2 H3]]|[H1 [H2 H3]]]; rewrite H2.
      * destruct Hn as [Hn|[<-|[]]]; [auto|].
        apply has_name_In; assumption.
      * rewrite in_app_iff. simpl. destruct Hn as [Hn|[<-|[]]]; auto.
    + intros y Hy.
      destruct (ColumnClaims.merge_column_acc _ _ _ _ _ Ha)
        as [[H1 [H2 H3]]|[H1 [H2 H3]]]; rewrite H1 in Hy.
      * apply find_app_Some. apply Hf; assumption.
      * apply in_app_or in Hy. destruct Hy as [Hy|[<-|[]]].
        -- apply find_app_Some. apply Hf; assumption.
        -- rewrite find_app_None.
           ++ simpl. rewrite String.eqb_refl. reflexivity.
           ++ apply find_name_None. intros Hin. apply Hd in Hin.
              apply has_name_In in Hin. congruence.
Qed.

End FirstWins.

(** X6.  The first definition of a column wins.  Every column that
    [_merge_fits_columns] returns is the first column of that name in the
    inputs, read table after table. *)
Theorem merge_columns_first_wins
        (np_ndarray : list nat -> string -> result ndarray)
        (fits_Column : string -> string -> option (list nat) ->
                       option string -> result fcolumn)
        (oicolumns : list coldesc)
        (hdus : list (list fcolumn)) (columns : list fcolumn) :
  _merge_fits_columns np_ndarray fits_Column oicolumns hdus = Ok columns ->
  forall c, In c columns ->
            find (fun x => String.eqb (col_name x) (col_name c))
                 (concat hdus) = Some c.
Proof.
  unfold _merge_fits_columns. rewrite foldM_concat. intros H.
  inv_bind H. inversion H; subst; clear H. rename a into acc'.
  apply (@merge_column_fold_first np_ndarray fits_Column oicolumns acc'
                                  (concat hdus) [] ([], []) Ha eq_refl).
  - intros n [].
  - intros c [].
Qed.

Lemma merge_columns_first_wins_witness :
  Columns._merge_fits_columns
    NumpyModel.np_ndarray NumpyModel.fits_Column
    [CATEGORY]
    [[category_column 1 [CStr "S"]; extra_column "SNR"];
     [category_column 3 [CStr "CAL"]]]
  = Ok [category_column 1 [CStr "S"]; extra_column "SNR"] /\
  find (fun x => String.eqb (col_name x) "CATEGORY")
       (concat [[category_column 1 [CStr "S"]; extra_column "SNR"];
                [category_column 3 [CStr "CAL"]]])
  = Some (category_column 1 [CStr "S"]).
Proof.
  split; [reflexivity|].
  apply (@merge_columns_first_wins
           NumpyModel.np_ndarray NumpyModel.fits_Column
           [CATEGORY]
           [[category_column 1 [CStr "S"]; extra_column "SNR"];
            [category_column 3 [CStr "CAL"]]]
           [category_column 1 [CStr "S"]; extra_column "SNR"] eq_refl
           (category_column 1 [CStr "S"])).
  left. reflexivity.
Defined.

End ColumnFacts.

(** ** Merging rows *)

Module MergeRowsShape.

Import MergeRows MergeRowsFacts MergeInputs.

Section Shape.

Variable equality : row -> row -> bool.
Variable id_name : string.

Lemma input_step_maps (ms ms' : merge_state) (rows2 : fits_rec) :
  input_step equality id_name ms rows2 = Ok ms' ->
  exists d, ms_maps ms' = ms_maps ms ++ [changed_entries d].
Proof.
  unfold input_step. intros H. inv_bind H. inv_bind H.
  inversion H; subst; clear H. cbn [ms_maps]. eexists; reflexivity.
Qed.

Lemma inputs_maps (others : list fits_rec) :
  forall ms ms',
    foldM (input_step equality id_name) others ms = Ok ms' ->
    exists ds, ms_maps ms' = ms_maps ms ++ map changed_entries ds /\
               length ds = length others.
Proof.
  induction others as [|rows2 others IH]; simpl; intros ms ms' H.
  - inversion H; subst. exists []. rewrite app_nil_r. auto.
  - inv_bind H. rename a into ms1.
    destruct (@input_step_maps ms ms1 rows2 Ha) as [d Hd].
    destruct (IH ms1 ms' H) as [ds [Hds Hl]].
    exists (d :: ds). simpl. rewrite Hds, Hd, <- app_assoc. simpl.
    split; [reflexivity | congruence].
Qed.

(** X7.  What a merge keeps.  When every input has the identifier column
    with distinct values, [_merge_fits_rows] returns one block of rows and
    one map per input; the first block is the first input, whole, and its
    map is empty; every other block has the names of its input and only
    rows of it: a merge drops rows and never makes one up. *)
Theorem merge_rows_blocks (rows1 : fits_rec) (others : list fits_rec) :
  Forall (unique_ids id_name) (rows1 :: others) ->
  exists ks maps,
    _merge_fits_rows equality (rows1 :: others) (Some id_name)
    = Ok (rows1 :: ks, [] :: maps) /\
    Forall2 block_of ks others /\
    length maps = length others.
Proof.
  intros HU. inversion HU as [|x xs [id1 [Hc Hn]] HU']; subst.
  unfold _merge_fits_rows. rewrite Hc. cbn [bind].
  destruct (@inputs_total equality id_name others HU'
              {| ms_id1 := id1; ms_kept := [rows1]; ms_maps := [[]] |}
              (@MergeClaims.merge_inv_init id_name rows1 id1 Hc Hn))
    as [ms' [ks [E [_ [Hk Hb]]]]].
  rewrite E. cbn [bind].
  destruct (@inputs_maps others _ _ E) as [ds [Hm Hl]].
  exists ks, (map changed_entries ds). rewrite Hk, Hm.
  cbn [ms_kept ms_maps app].
  split; [reflexivity|]. split; [assumption|].
  rewrite length_map. assumption.
Qed.

(** X8.  A map holds changes only.  No map that [_merge_fits_rows]
    returns sends an identifier to itself: an input whose identifiers all
    stay has the empty map. *)
Theorem merge_maps_hold_changes (rows kept : list fits_rec)
        (idn : option string) (maps : list dict) :
  _merge_fits_rows equality rows idn = Ok (kept, maps) ->
  Forall (fun m : dict => forall o n, In (o, n) m -> o <> n) maps.
Proof.
  unfold _merge_fits_rows. destruct idn as [idn|].
  2:{ intros H; inversion H; subst. repeat constructor. intros o n []. }
  destruct rows as [|rows1 others]; [discriminate|].
  intros H. inv_bind H. inv_bind H. inversion H; subst; clear H.
  rename a0 into ms'.
  assert (G : forall others ms ms',
             foldM (input_step equality idn) others ms = Ok ms' ->
             Forall (fun m : dict => forall o n, In (o, n) m -> o <> n)
                    (ms_maps ms) ->
             Forall (fun m : dict => forall o n, In (o, n) m -> o <> n)
                    (ms_maps ms')).
  { clear. induction others as [|rows2 others IH]; simpl; intros ms ms' H F.
    - inversion H; subst; assumption.
    - inv_bind H. apply (IH a ms' H).
      unfold input_step in Ha. inv_bind Ha. inv_bind Ha.
      inversion Ha; subst; clear Ha. cbn [ms_maps].
      apply Forall_app. split; [assumption|]. constructor; [|constructor].
      intros o n Hin. unfold changed_entries in Hin.
      apply filter_In in Hin. destruct Hin as [_ Hne]. simpl in Hne.
      apply negb_true_iff, cell_eqb_neq in Hne. assumption. }
  apply (G _ _ _ Ha0). cbn [ms_maps]. repeat constructor. intros o n [].
Qed.

End Shape.

Lemma unique_ids_examples :
  Forall (unique_ids "TARGET_ID") [Examples.A2; Examples.B2].
Proof.
  assert (Hn : NoDup [CInt 1; CInt 2]).
  { constructor; [simpl; intuition discriminate|].
    constructor; [simpl; tauto | constructor]. }
  constructor; [|constructor; [|constructor]];
    exists [CInt 1; CInt 2]; (split; [reflexivity | exact Hn]).
Qed.

Lemma merge_rows_blocks_witness :
  Forall (unique_ids "TARGET_ID") [Examples.A2; Examples.B2] /\
  exists ks maps,
    _merge_fits_rows Examples.same_name [Examples.A2; Examples.B2]
                     (Some "TARGET_ID")
    = Ok (Examples.A2 :: ks, [] :: maps) /\
    Forall2 block_of ks [Examples.B2] /\
    length maps = length [Examples.B2].
Proof.
  split; [exact unique_ids_examples|].
  exact (@merge_rows_blocks Examples.same_name "TARGET_ID" Examples.A2
           [Examples.B2] unique_ids_examples).
Defined.

Lemma merge_maps_hold_changes_witness :
  Forall (fun m : dict => forall o n, In (o, n) m -> o <> n)
         [[]; [(CInt 1, CInt 2); (CInt 2, CInt 3)]].
Proof.
  exact (@merge_maps_hold_changes
           Examples.same_name [Examples.A2; Examples.B2]
           [Examples.A2; Examples.targets [Examples.target 2 "Z"]]
           (Some "TARGET_ID") [[]; [(CInt 1, CInt 2); (CInt 2, CInt 3)]]
           eq_refl).
Defined.

End MergeRowsShape.

(** ** The verification pass *)

Module VerifyFacts.

Import Verify Idempotence.

Lemma run_option_report (opt err_text fix_text : string)
      (fix_ : option (table -> result table)) (fixable : bool) (t : table) :
  reports_only opt = true ->
  run_option opt err_text fix_text fix_ fixable t = Ok ((false, err_text), t).
Proof. intros H. unfold run_option. rewrite H. reflexivity. Qed.

(** The text of a finding that cannot be fixed. *)
Definition unfixable_text (opt err_text : string) : string :=
  if reports_only opt then err_text
  else ("Unfixable error: " ++ err_text)%string.

Lemma run_option_unfixable_text (opt err_text fix_text : string)
      (fix_ : option (table -> result table)) (t : table) :
  run_option opt err_text fix_text fix_ false t
  = Ok ((false, unfixable_text opt err_text), t).
Proof.
  unfold run_option, unfixable_text. destruct (reports_only opt); reflexivity.
Qed.

(** The findings of [st'] are those of [st] and more. *)
Definition grows (st st' : vstate) : Prop :=
  exists es, vs_errors st' = vs_errors st ++ es.

Lemma grows_refl (st : vstate) : grows st st.
Proof. exists []. rewrite app_nil_r. reflexivity. Qed.

Lemma grows_trans (a b c : vstate) : grows a b -> grows b c -> grows a c.
Proof.
  intros [e1 E1] [e2 E2]. exists (e1 ++ e2).
  rewrite E2, E1, app_assoc. reflexivity.
Qed.

Lemma grows_one (st st' : vstate) (err : finding) :
  vs_errors st' = vs_errors st ++ [err] -> grows st st'.
Proof. intros H. exists [err]. assumption. Qed.

Lemma foldM_grows {A : Type} (f : vstate -> A -> result vstate)
      (l : list A) :
  (forall st a st', f st a = Ok st' -> grows st st') ->
  forall st st', foldM f l st = Ok st' -> grows st st'.
Proof.
  intros Hf. induction l as [|a l IH]; simpl; intros st st' H.
  - inversion H; subst. apply grows_refl.
  - inv_bind H. eapply grows_trans; [eapply Hf; eassumption|].
    apply IH; assumption.
Qed.

Section Checks.

Variable Column_array : string -> ndarray -> result ndarray.
Variable np_array : cell -> string -> result cell.
Variable get_nwaves : nat.
Variable COLUMNS : list coldesc.
Variable class_name : string.

(** What each check of a schema entry does, whatever the mode. *)
Lemma check_type_inv (opt : string) (cd : coldesc) (st st' : vstate) :
  check_type opt cd st = Ok st' ->
  vs_table st' = vs_table st /\
  (exists a, data_field (cd_name cd) (vs_table st) = Ok a) /\
  (st' = st \/
   exists err, fst err = negb (reports_only opt) /\
               vs_errors st' = vs_errors st ++ [err] /\
               vs_column_casts st' = vs_column_casts st ++ [cd_name cd]).
Proof.
  unfold check_type. intros H.
  destruct (data_field (cd_name cd) (vs_table st)) as [a|e] eqn:Hdf;
    [|discriminate].
  cbn [bind] in H. inv_bind H. inv_bind H.
  destruct (negb (String.eqb a0 a1)).
  - unfold run_option in H. destruct (reports_only opt); cbn in H;
      inversion H; subst; cbn.
    + split; [reflexivity|]. split; [exists a; reflexivity|].
      right. eexists. split; [|split; reflexivity]. reflexivity.
    + split; [reflexivity|]. split; [exists a; reflexivity|].
      right. eexists. split; [|split; reflexivity]. reflexivity.
  - inversion H; subst. split; [reflexivity|].
    split; [exists a; reflexivity | left; reflexivity].
Qed.

Lemma check_unit_inv (opt : string) (cd : coldesc) (st st' : vstate) :
  check_unit opt cd st = Ok st' ->
  vs_column_casts st' = vs_column_casts st /\
  exists c, find_column (cd_name cd) (vs_table st) = Some c /\
    ((st' = st /\ unit_eqb (col_unit c) (cd_unit cd) = true) \/
     (exists err, fst err = negb (reports_only opt) /\
                  vs_errors st' = vs_errors st ++ [err] /\
                  vs_table st'
                  = if reports_only opt then vs_table st
                    else update_column (cd_name cd) (set_unit (cd_unit cd))
                                       (vs_table st))).
Proof.
  unfold check_unit. intros H.
  destruct (find_column (cd_name cd) (vs_table st)) as [c|] eqn:Hc;
    [|discriminate].
  destruct (unit_eqb (col_unit c) (cd_unit cd)) eqn:Hu; cbn [negb] in H.
  - inversion H; subst. split; [reflexivity|]. exists c. auto.
  - unfold run_option in H. destruct (reports_only opt); cbn in H;
      inversion H; subst; cbn; (split; [reflexivity|]); exists c;
      (split; [reflexivity|]); right; eexists;
      (split; [|split; reflexivity]); reflexivity.
Qed.

Lemma check_shape_inv (opt : string) (cd : coldesc) (st st' : vstate) :
  check_shape get_nwaves opt cd st = Ok st' ->
  vs_table st' = vs_table st /\
  vs_column_casts st' = vs_column_casts st /\
  (st' = st \/
   exists err, fst err = false /\ vs_errors st' = vs_errors st ++ [err]).
Proof.
  unfold check_shape. intros H.
  destruct (data_field (cd_name cd) (vs_table st)) as [a|e]; [|discriminate].
  cbn [bind] in H.
  destruct (negb (list_eqb Nat.eqb (resolve_shape get_nwaves (cd_shape cd))
                           (tl (arr_shape a)))).
  - rewrite run_option_unfixable_text in H. cbn [bind] in H.
    inversion H; subst; cbn. split; [reflexivity|]. split; [reflexivity|].
    right. eexists. split; [|reflexivity]. reflexivity.
  - inversion H; subst. auto.
Qed.

Lemma check_values_inv (opt : string) (cd : coldesc) (st st' : vstate) :
  check_values np_array opt cd st = Ok st' ->
  vs_column_casts st' = vs_column_casts st /\
  vs_errors st' = vs_errors st /\
  (vs_table st' = vs_table st \/
   (reports_only opt = false /\
    exists vs, vs_table st'
               = update_column (cd_name cd) (set_values vs) (vs_table st))).
Proof.
  unfold check_values. intros H.
  destruct (cd_test cd) as [test|]; [|inversion H; subst; auto].
  destruct (data_field (cd_name cd) (vs_table st)) as [a|e]; [|discriminate].
  cbn [bind] in H.
  destruct (existsb (fun b => b)
                    (map (fun v => negb (test v)) (arr_values a)));
    [|inversion H; subst; auto].
  destruct (cd_default cd) as [default|].
  - destruct (np_array default (arr_dtype a)) as [default'|e].
    + unfold run_option in H. destruct (reports_only opt) eqn:Hopt;
        cbn in H; inversion H; subst; cbn; auto.
      split; [reflexivity|]. split; [reflexivity|]. right.
      split; [reflexivity|]. eexists; reflexivity.
    + rewrite run_option_unfixable_text in H. cbn [bind] in H.
      inversion H; subst; cbn. auto.
  - rewrite run_option_unfixable_text in H. cbn [bind] in H.
    inversion H; subst; cbn. auto.
Qed.

Lemma touches_set_unit (name : string) (u : option string) (t : table) :
  touches name t (update_column name (set_unit u) t).
Proof. apply touches_update; intros; reflexivity. Qed.

Lemma touches_set_values (name : string) (vs : list cell) (t : table) :
  touches name t (update_column name (set_values vs) t).
Proof.
  apply touches_update; intros x; [reflexivity|].
  unfold dtype_of. simpl. destruct (col_array x); reflexivity.
Qed.

(** The checks of one schema entry touch the column of that entry only,
    and extend the findings. *)
Lemma check_column_touches (opt : string) (st st' : vstate) (cd : coldesc) :
  check_column np_array get_nwaves opt st cd = Ok st' ->
  touches (cd_name cd) (vs_table st) (vs_table st') /\ grows st st'.
Proof.
  unfold check_column.
  destruct (negb (has_name (cd_name cd) (names (vs_table st)))).
  { intros H; inversion H; subst.
    split; [apply touches_refl | apply grows_refl]. }
  intros H. inv_bind H. rename a into s1, Ha into H1.
  inv_bind H. rename a into s2, Ha into H2.
  inv_bind H. rename a into s3, Ha into H3.
  destruct (check_type_inv _ _ _ H1) as [T1 [_ E1]].
  destruct (check_unit_inv _ _ _ H2) as [_ [c [_ E2]]].
  destruct (check_shape_inv _ _ _ H3) as [T3 [_ E3]].
  destruct (check_values_inv _ _ _ H) as [_ [E4 T4]].
  assert (G1 : grows st s1).
  { destruct E1 as [->|[err [_ [E _]]]];
      [apply grows_refl | eapply grows_one; eassumption]. }
  assert (G2 : grows s1 s2 /\ touches (cd_name cd) (vs_table s1) (vs_table s2)).
  { destruct E2 as [[-> _]|[err [_ [E T]]]].
    - split; [apply grows_refl | apply touches_refl].
    - split; [eapply grows_one; eassumption|]. rewrite T.
      destruct (reports_only opt);
        [apply touches_refl | apply touches_set_unit]. }
  assert (G3 : grows s2 s3).
  { destruct E3 as [->|[err [_ E]]];
      [apply grows_refl | eapply grows_one; eassumption]. }
  assert (G4 : grows s3 st').
  { exists []. rewrite app_nil_r. assumption. }
  split.
  - rewrite <- T1. eapply touches_trans; [exact (proj2 G2)|].
    rewrite <- T3. destruct T4 as [->|[_ [vs ->]]];
      [apply touches_refl | apply touches_set_values].
  - eapply grows_trans; [exact G1|]. eapply grows_trans; [exact (proj1 G2)|].
    eapply grows_trans; eassumption.
Qed.

Lemma columns_touch (opt : string) (l : list coldesc) (st st' : vstate) :
  foldM (check_column np_array get_nwaves opt) l st = Ok st' ->
  names (vs_table st') = names (vs_table st) /\ grows st st'.
Proof.
  revert st; induction l as [|cd l IH]; simpl; intros st H.
  - inversion H; subst. split; [reflexivity | apply grows_refl].
  - inv_bind H. destruct (check_column_touches _ _ _ Ha) as [T G].
    destruct (IH a H) as [N G']. split.
    + rewrite N. apply (t_names T).
    + eapply grows_trans; eassumption.
Qed.

(** The loop over the required names leaves the table as it is and
    appends one finding per name that the table lacks. *)
Definition missing_column (opt : string) (c : string) : finding :=
  (false,
   unfixable_text opt
     ("Missing column '" ++ c ++ "' in " ++ class_name ++ " object")).

Lemma required_fold (opt : string) (cs : list string) (st : vstate) :
  foldM (check_required class_name opt) cs st
  = Ok {| vs_table := vs_table st;
          vs_errors :=
            vs_errors st
            ++ map (missing_column opt)
                   (filter (fun c => negb (has_name c (names (vs_table st))))
                           cs);
          vs_column_casts := vs_column_casts st |}.
Proof.
  revert st; induction cs as [|c cs IH]; simpl; intros st.
  - rewrite app_nil_r. destruct st; reflexivity.
  - unfold check_required at 1.
    destruct (negb (has_name c (names (vs_table st)))).
    + rewrite run_option_unfixable_text. cbn [bind]. rewrite IH. cbn.
      rewrite <- app_assoc. reflexivity.
    + cbn [bind]. apply IH.
Qed.

Lemma check_names_grows (opt : string) (st st' : vstate) :
  check_names COLUMNS opt st = Ok st' ->
  grows st st' /\ vs_column_casts st' = vs_column_casts st.
Proof.
  unfold check_names.
  destruct (non_standard (_get_oi_colnames COLUMNS false)
                         (names (vs_table st))) as [|on subst].
  - intros H; inversion H; subst. split; [apply grows_refl | reflexivity].
  - intros H. inv_bind H. destruct a as [err t']. inversion H; subst; cbn.
    split; [|reflexivity]. exists [err]. reflexivity.
Qed.

Lemma apply_casts_errors (st st' : vstate) :
  apply_casts Column_array COLUMNS st = Ok st' ->
  vs_errors st' = vs_errors st.
Proof.
  unfold apply_casts. destruct (vs_column_casts st).
  - intros H; inversion H; reflexivity.
  - intros H. inv_bind H. inversion H; reflexivity.
Qed.

(** X9.  Missing required columns.  When a pass returns, whatever the
    mode, the list it returns starts with the inherited findings; then
    comes, for each required name of the schema that the table lacks, in
    the order of the schema, one finding that is not fixable and names the
    column; the findings of the other checks follow. *)
Theorem verify_reports_missing_columns (errors errs : list finding)
        (opt : string) (t t1 : table) :
  _verify Column_array np_array get_nwaves COLUMNS class_name errors opt t
  = Ok (errs, t1) ->
  exists rest,
    errs = errors
           ++ map (missing_column opt)
                  (filter (fun c => negb (has_name c (names t)))
                          (_get_oi_colnames COLUMNS true))
           ++ rest.
Proof.
  unfold _verify. rewrite required_fold. cbn [bind vs_table vs_errors].
  intros H. inv_bind H. rename a into s2, Ha into H2.
  inv_bind H. rename a into s3, Ha into H3.
  inv_bind H. rename a into s4, Ha into H4.
  inversion H; subst; clear H.
  destruct (columns_touch _ _ _ H2) as [_ [e2 E2]].
  destruct (check_names_grows _ _ H3) as [[e3 E3] _].
  rewrite (apply_casts_errors _ H4), E3, E2. cbn [vs_errors].
  exists (e2 ++ e3). rewrite <- !app_assoc. reflexivity.
Qed.


(** *** Report-only passes *)

Lemma foldM_extends_if {A : Type} (f : vstate -> A -> result vstate)
      (Q : table -> Prop) (l : list A) :
  (forall st a st', In a l -> Q (vs_table st) -> f st a = Ok st' ->
                    extends st st') ->
  forall st st', Q (vs_table st) -> foldM f l st = Ok st' -> extends st st'.
Proof.
  induction l as [|a l IH]; simpl; intros Hf st st' HQ H.
  - inversion H; subst. apply extends_refl.
  - inv_bind H. rename a0 into s1.
    pose proof (Hf st a s1 (or_introl eq_refl) HQ Ha) as X1.
    eapply extends_trans; [exact X1|].
    apply (IH (fun s b s' Hb => Hf s b s' (or_intror Hb)) s1 st');
      [|assumption].
    rewrite (proj1 X1). assumption.
Qed.

Lemma extends_one (st st' : vstate) (err : finding) :
  vs_table st' = vs_table st ->
  vs_column_casts st' = vs_column_casts st ->
  fst err = false ->
  vs_errors st' = vs_errors st ++ [err] ->
  extends st st'.
Proof.
  intros T C F E. split; [assumption|]. split; [assumption|].
  exists [err]. split; [assumption|]. repeat constructor. assumption.
Qed.

Lemma check_column_report (opt : string) (st st' : vstate) (cd : coldesc) :
  reports_only opt = true -> In cd COLUMNS -> typed COLUMNS (vs_table st) ->
  check_column np_array get_nwaves opt st cd = Ok st' ->
  extends st st'.
Proof.
  intros Hopt Hcd HT. unfold check_column.
  destruct (negb (has_name (cd_name cd) (names (vs_table st)))).
  { intros H; inversion H; subst. apply extends_refl. }
  intros H. inv_bind H. rename a into s1, Ha into H1.
  inv_bind H. rename a into s2, Ha into H2.
  inv_bind H. rename a into s3, Ha into H3.
  destruct (@check_type_typed COLUMNS opt cd st s1 Hcd HT H1) as [-> _].
  destruct (check_unit_inv _ _ _ H2) as [C2 [c [_ E2]]].
  destruct (check_shape_inv _ _ _ H3) as [T3 [C3 E3]].
  destruct (check_values_inv _ _ _ H) as [C4 [E4 T4]].
  assert (X2 : extends st s2).
  { destruct E2 as [[-> _]|[err [F [E T]]]]; [apply extends_refl|].
    rewrite Hopt in F, T. eapply extends_one; eassumption. }
  assert (X3 : extends s2 s3).
  { destruct E3 as [->|[err [F E]]]; [apply extends_refl|].
    eapply extends_one; eassumption. }
  assert (X4 : extends s3 st').
  { destruct T4 as [T4|[Hf _]]; [|congruence].
    split; [assumption|]. split; [assumption|].
    exists []. rewrite app_nil_r. split; [assumption | constructor]. }
  eapply extends_trans; [exact X2|]. eapply extends_trans; eassumption.
Qed.

Lemma check_names_report (opt : string) (st st' : vstate) :
  reports_only opt = true ->
  check_names COLUMNS opt st = Ok st' -> extends st st'.
Proof.
  intros Hopt. unfold check_names.
  destruct (non_standard (_get_oi_colnames COLUMNS false)
                         (names (vs_table st))) as [|on subst].
  - intros H; inversion H; subst. apply extends_refl.
  - rewrite run_option_report by assumption. cbn [bind].
    intros H; inversion H; subst.
    split; [reflexivity|]. split; [reflexivity|].
    eexists. split; [reflexivity|]. repeat constructor.
Qed.

(** X10.  A report-only pass reads.  In the modes that only report, on a
    table whose schema columns hold data of their declared types, a pass
    that returns leaves the table as it is, and marks none of the findings
    that it adds fixable. *)
Theorem verify_report_only_reads (errors errs : list finding)
        (opt : string) (t t1 : table) :
  reports_only opt = true ->
  (forall cd a, In cd COLUMNS -> data_field (cd_name cd) t = Ok a ->
                DType._dtype_descr (cd_type cd)
                = DType._dtype_descr (arr_dtype a)) ->
  _verify Column_array np_array get_nwaves COLUMNS class_name errors opt t
  = Ok (errs, t1) ->
  t1 = t /\
  exists added, errs = errors ++ added /\
                Forall (fun e => fst e = false) added.
Proof.
  intros Hopt HT. unfold _verify. intros H.
  inv_bind H. rename a into s1, Ha into H1.
  inv_bind H. rename a into s2, Ha into H2.
  inv_bind H. rename a into s3, Ha into H3.
  inv_bind H. rename a into s4, Ha into H4.
  inversion H; subst; clear H.
  assert (X1 : extends {| vs_table := t; vs_errors := errors;
                          vs_column_casts := [] |} s1).
  { destruct (@foldM_extends _ (check_required class_name opt)
                (fun _ => True) (_get_oi_colnames COLUMNS true)
                (fun st c _ _ => check_required_extends class_name opt st c)
                {| vs_table := t; vs_errors := errors;
                   vs_column_casts := [] |} I) as [s1' [E1 X1]].
    rewrite E1 in H1. inversion H1; subst. assumption. }
  assert (X2 : extends s1 s2).
  { apply (@foldM_extends_if _ (check_column np_array get_nwaves opt)
             (typed COLUMNS) (_get_oi_columns COLUMNS false)); [| |exact H2].
    - intros st cd st' Hcd HQ Hs.
      eapply check_column_report; eassumption.
    - rewrite (proj1 X1). exact HT. }
  pose proof (@check_names_report opt s2 s3 Hopt H3) as X3.
  pose proof (extends_trans X1 (extends_trans X2 X3)) as [T [C [es [E F]]]].
  cbn [vs_table vs_errors vs_column_casts] in T, C, E.
  unfold apply_casts in H4. rewrite C in H4. inversion H4 as [E4].
  rewrite <- E4. split; [assumption|]. exists es. split; assumption.
Qed.

(** *** Names and units after a pass *)

Lemma find_column_Forall2 (R : fcolumn -> fcolumn -> Prop) (t t' : table)
      (n : string) (c' : fcolumn) :
  (forall a b, R a b -> col_name b = col_name a) ->
  Forall2 R t t' ->
  find_column n t' = Some c' ->
  exists c, find_column n t = Some c /\ R c c'.
Proof.
  intros HR F. induction F as [|a b l l' Hab _ IH]; simpl; [discriminate|].
  rewrite (HR a b Hab).
  destruct (String.eqb (col_name a) n).
  - intros H; inversion H; subst. exists a. auto.
  - exact IH.
Qed.

Lemma unit_eqb_eq (a b : option string) : unit_eqb a b = true -> a = b.
Proof.
  destruct a, b; simpl; try discriminate; [|reflexivity].
  intros H. apply String.eqb_eq in H. congruence.
Qed.

Lemma check_column_unit (opt : string) (st st' : vstate) (cd : coldesc) :
  reports_only opt = false ->
  check_column np_array get_nwaves opt st cd = Ok st' ->
  forall c', find_column (cd_name cd) (vs_table st') = Some c' ->
             col_unit c' = cd_unit cd.
Proof.
  intros Hopt. unfold check_column.
  destruct (has_name (cd_name cd) (names (vs_table st))) eqn:Hn;
    cbn [negb].
  2:{ intros H; inversion H; subst. intros c' Hc'.
      apply has_name_find_column in Hc'. congruence. }
  intros H. inv_bind H. rename a into s1, Ha into H1.
  inv_bind H. rename a into s2, Ha into H2.
  inv_bind H. rename a into s3, Ha into H3.
  destruct (check_type_inv _ _ _ H1) as [T1 [[a Hdf] _]].
  apply data_field_Ok in Hdf. destruct Hdf as [c [Hc Ha]].
  rewrite <- T1 in Hc.
  destruct (@check_unit_repair opt cd s1 s2 c Hopt Hc H2)
    as [_ [_ [c2 [Hc2 [Ha2 Hu2]]]]].
  destruct (check_shape_inv _ _ _ H3) as [T3 _].
  rewrite <- T3 in Hc2. rewrite Ha in Ha2.
  destruct (@check_values_repair np_array opt cd s3 st' c2 a Hopt Hc2 Ha2 H)
    as [_ [_ [c4 [a4 [Hc4 [Hu4 _]]]]]].
  intros c' Hc'. rewrite Hc4 in Hc'. inversion Hc'; subst c'.
  rewrite Hu4. apply unit_eqb_eq. assumption.
Qed.

Lemma columns_units (opt : string) (l : list coldesc) :
  reports_only opt = false -> NoDup (map cd_name l) ->
  forall st st',
    foldM (check_column np_array get_nwaves opt) l st = Ok st' ->
    (forall n, ~ In n (map cd_name l) ->
               find_column n (vs_table st') = find_column n (vs_table st)) /\
    (forall cd c', In cd l ->
                   find_column (cd_name cd) (vs_table st') = Some c' ->
                   col_unit c' = cd_unit cd).
Proof.
  intros Hopt. induction l as [|cd l IH]; intros Hnd st st' H.
  - simpl in H. inversion H; subst. split; [reflexivity|].
    intros cd c' [].
  - simpl in H. inv_bind H. rename a into s1, Ha into H1.
    inversion Hnd as [|x xs Hnotin Hnd']; subst.
    destruct (check_column_touches _ _ _ H1) as [T1 _].
    destruct (IH Hnd' s1 st' H) as [O2 S2]. split.
    + intros n Hn. simpl in Hn. rewrite O2 by tauto.
      apply (t_others T1). intros E. apply Hn. auto.
    + intros cd' c' [E|Hin'] Hc'.
      * subst cd'. rewrite O2 in Hc' by assumption.
        eapply check_column_unit; eassumption.
      * eapply S2; eassumption.
Qed.

(** X11.  Units after a repair.  When the names of the schema are distinct
    and none starts with [NS_], a pass in repair mode that returns leaves
    every schema column of the table with the unit that the schema
    declares, whether or not the pass also cast columns. *)
Theorem verify_repairs_units (errors errs : list finding)
        (opt : string) (t t1 : table) :
  NoDup (map cd_name COLUMNS) ->
  (forall cd, In cd COLUMNS -> String.prefix "NS_" (cd_name cd) = false) ->
  reports_only opt = false ->
  _verify Column_array np_array get_nwaves COLUMNS class_name errors opt t
  = Ok (errs, t1) ->
  forall cd c, In cd COLUMNS -> find_column (cd_name cd) t1 = Some c ->
               col_unit c = cd_unit cd.
Proof.
  intros Hnd Hpre Hopt. unfold _verify. intros H.
  inv_bind H. rename a into s1, Ha into H1.
  inv_bind H. rename a into s2, Ha into H2.
  inv_bind H. rename a into s3, Ha into H3.
  inv_bind H. rename a into s4, Ha into H4.
  inversion H; subst; clear H.
  unfold _get_oi_columns in H2.
  destruct (@columns_units opt COLUMNS Hopt Hnd s1 s2 H2) as [_ S2].
  destruct (@check_names_repair COLUMNS opt s2 s3 Hopt H3) as [_ T3].
  assert (S3 : forall cd c, In cd COLUMNS ->
                 find_column (cd_name cd) (vs_table s3) = Some c ->
                 col_unit c = cd_unit cd).
  { intros cd c Hcd Hc. rewrite T3 in Hc.
    rewrite find_column_renamed in Hc
      by (auto using schema_name_not_flagged).
    eapply S2; eassumption. }
  intros cd c Hcd Hc. unfold apply_casts in H4.
  destruct (vs_column_casts s3).
  { inversion H4; subst. eapply S3; eassumption. }
  inv_bind H4. inversion H4; subst; clear H4. cbn [vs_table] in Hc.
  apply ColumnFacts.cast_columns_cast_of in Ha.
  destruct (@find_column_Forall2 (ColumnFacts.cast_of Column_array COLUMNS)
              (vs_table s3) a (cd_name cd) c
              (@ColumnFacts.cast_of_name Column_array COLUMNS) Ha Hc)
    as [c0 [Hc0 Hcast]].
  destruct Hcast as [->|[cd' [fmt [F [_ [_ [_ [_ [U _]]]]]]]]].
  - eapply S3; eassumption.
  - rewrite U. f_equal. unfold find_coldesc in F. apply find_some in F.
    destruct F as [Hin' E]. apply String.eqb_eq in E.
    apply (NoDup_map_inj cd_name COLUMNS cd' cd Hnd Hin' Hcd).
    rewrite E. eapply find_column_name; eassumption.
Qed.

Lemma names_renamed (t : table) :
  names (map (fun c => if VerifyClaims.flagged COLUMNS (col_name c)
                       then set_name ("NS_" ++ col_name c)%string c
                       else c) t)
  = map (fun n => if VerifyClaims.flagged COLUMNS n
                  then ("NS_" ++ n)%string else n) (names t).
Proof.
  unfold names. rewrite !map_map. apply map_ext. intros c.
  destruct (VerifyClaims.flagged COLUMNS (col_name c)); reflexivity.
Qed.

(** X12.  A pass keeps the columns.  When a pass returns, the table has
    the columns it had, in the same order: in the modes that only report,
    under the same names; in repair mode, under the same names but for the
    names that the naming check flags, which get the prefix [NS_]. *)
Theorem verify_keeps_columns (errors errs : list finding)
        (opt : string) (t t1 : table) :
  _verify Column_array np_array get_nwaves COLUMNS class_name errors opt t
  = Ok (errs, t1) ->
  names t1
  = if reports_only opt then names t
    else map (fun n => if VerifyClaims.flagged COLUMNS n
                       then ("NS_" ++ n)%string else n) (names t).
Proof.
  unfold _verify. rewrite required_fold. cbn [bind vs_table].
  intros H. inv_bind H. rename a into s2, Ha into H2.
  inv_bind H. rename a into s3, Ha into H3.
  inv_bind H. rename a into s4, Ha into H4.
  inversion H; subst; clear H.
  destruct (columns_touch _ _ _ H2) as [N2 _]. cbn [vs_table] in N2.
  assert (N4 : names (vs_table s4) = names (vs_table s3)).
  { unfold apply_casts in H4. destruct (vs_column_casts s3).
    - inversion H4; reflexivity.
    - inv_bind H4. inversion H4; subst. cbn [vs_table].
      apply (ColumnFacts.cast_columns_names _ _ _ Ha). }
  rewrite N4. destruct (reports_only opt) eqn:Hopt.
  - pose proof (@check_names_report opt s2 s3 Hopt H3) as [T3 _].
    rewrite T3. assumption.
  - destruct (@check_names_repair COLUMNS opt s2 s3 Hopt H3) as [_ T3].
    rewrite T3, names_renamed, N2. reflexivity.
Qed.

End Checks.

Import VerifyExamples.

(** The entry [('RAEP0', True, '>f8', (), None, None, "deg")] of
    [_TargetHDU._COLUMNS], and a column of that name in a table without
    rows. *)
Definition RAEP0 : coldesc :=
  {| cd_name := "RAEP0"; cd_required := true; cd_type := ">f8";
     cd_shape := []; cd_test := None; cd_default := None;
     cd_unit := Some "deg"; cd_comment := "" |}.

Definition raep0_column (unit : option string) : fcolumn :=
  {| col_name := "RAEP0"; col_format := "1D"; col_unit := unit;
     col_null := None; col_dim := None;
     col_array := Some {| arr_dtype := ">f8"; arr_shape := [0];
                          arr_values := [] |} |}.

Lemma verify_reports_missing_columns_witness :
  _verify NumpyModel.Column_array NumpyModel.np_array 0 [CATEGORY; RAEP0]
          "TargetHDU2" [] "fix" [category_column 3 [CStr "SCI"]]
  = Ok ([(false,
          "Unfixable error: Missing column 'RAEP0' in TargetHDU2 object")],
        [category_column 3 [CStr "SCI"]]) /\
  exists rest,
    [(false, "Unfixable error: Missing column 'RAEP0' in TargetHDU2 object")]
    = [] ++ map (missing_column "TargetHDU2" "fix")
                (filter (fun c =>
                           negb (has_name
                                   c (names [category_column 3 [CStr "SCI"]])))
                        (_get_oi_colnames [CATEGORY; RAEP0] true))
         ++ rest.
Proof.
  split; [reflexivity|].
  exact (@verify_reports_missing_columns
           NumpyModel.Column_array NumpyModel.np_array 0 [CATEGORY; RAEP0]
           "TargetHDU2" [] _ "fix" [category_column 3 [CStr "SCI"]] _
           eq_refl).
Defined.

Lemma verify_report_only_reads_witness :
  verify "warn" [category_column 3 [CStr "XYZ"]; extra_column "SNR"]
  = Ok ([(false, "Column name(s) should start with prefix_ :''SNR''.")],
        [category_column 3 [CStr "XYZ"]; extra_column "SNR"]) /\
  exists added,
    [(false, "Column name(s) should start with prefix_ :''SNR''.")]
    = [] ++ added /\
    Forall (fun e : finding => fst e = false) added.
Proof.
  split; [reflexivity|].
  apply (@verify_report_only_reads
           NumpyModel.Column_array NumpyModel.np_array 0 [CATEGORY]
           "TargetHDU2" []
           [(false, "Column name(s) should start with prefix_ :''SNR''.")]
           "warn" [category_column 3 [CStr "XYZ"]; extra_column "SNR"]
           [category_column 3 [CStr "XYZ"]; extra_column "SNR"]).
  - reflexivity.
  - intros cd a [<-|[]] Hdf. vm_compute in Hdf. inversion Hdf. reflexivity.
  - reflexivity.
Defined.

Lemma verify_repairs_units_witness :
  _verify NumpyModel.Column_array NumpyModel.np_array 0 [RAEP0]
          "TargetHDU2" [] "fix" [raep0_column (Some "rad")]
  = Ok ([(true, "Column RAEP0: unit must be deg but is rad.  Fixed.")],
        [raep0_column (Some "deg")]) /\
  col_unit (raep0_column (Some "deg")) = cd_unit RAEP0.
Proof.
  split; [reflexivity|].
  apply (@verify_repairs_units
           NumpyModel.Column_array NumpyModel.np_array 0 [RAEP0]
           "TargetHDU2" []
           [(true, "Column RAEP0: unit must be deg but is rad.  Fixed.")]
           "fix" [raep0_column (Some "rad")] [raep0_column (Some "deg")]).
  - simpl. constructor; [simpl; tauto | constructor].
  - intros cd [<-|[]]. reflexivity.
  - reflexivity.
  - reflexivity.
  - left. reflexivity.
  - reflexivity.
Defined.

Lemma verify_keeps_columns_witness :
  verify "fix" [category_column 3 [CStr "XYZ"]; extra_column "SNR"]
  = Ok ([(true, "Column name(s) should start with prefix_ :''SNR''.  NS_ has been prefixed to column name(s)")],
        [category_column 3 [CStr "SCI"]; extra_column "NS_SNR"]) /\
  names [category_column 3 [CStr "SCI"]; extra_column "NS_SNR"]
  = map (fun n => if VerifyClaims.flagged [CATEGORY] n
                  then ("NS_" ++ n)%string else n)
        (names [category_column 3 [CStr "XYZ"]; extra_column "SNR"]).
Proof.
  split; [reflexivity|].
  exact (@verify_keeps_columns
           NumpyModel.Column_array NumpyModel.np_array 0 [CATEGORY]
           "TargetHDU2" [] _ "fix"
           [category_column 3 [CStr "XYZ"]; extra_column "SNR"]
           [category_column 3 [CStr "SCI"]; extra_column "NS_SNR"] eq_refl).
Defined.

End VerifyFacts.

(** ** Attribute access and cross-matching *)

Module XMatchFacts.

Import XMatch.

Lemma has_name_filter (s : string) (p : string -> bool) (l : list string) :
  has_name s (filter p l) = has_name s l && p s.
Proof.
  unfold has_name. induction l as [|x l IH]; simpl; [reflexivity|].
  destruct (p x) eqn:Px; simpl; rewrite IH;
    destruct (String.eqb s x) eqn:E; simpl; try reflexivity;
    apply String.eqb_eq in E; subst x; rewrite Px;
    destruct (existsb (String.eqb s) l); reflexivity.
Qed.

Lemma assoc_get_has_name {V : Type} (s : string) (d : list (string * V)) :
  has_name s (map fst d)
  = match assoc_get String.eqb s d with Some _ => true | None => false end.
Proof.
  unfold has_name. induction d as [|[k v] d IH]; simpl; [reflexivity|].
  destruct (String.eqb s k); simpl; [reflexivity | exact IH].
Qed.

(** X13.  Attribute access to columns.  [hdu.NAME] yields the data of the
    first field called [NAME] when the schema declares that name and the
    table holds it; every other access raises [AttributeError], also for a
    column that the table holds under a name that the schema does not
    declare. *)
Theorem getattr_schema_columns (h : hdu) (s : string) :
  getattr h s
  = if has_name s (_get_oi_colnames (hdu_COLUMNS h) false)
    then match assoc_get String.eqb s (hdu_fields h) with
         | Some a => Ok a
         | None => Raise AttributeError
         end
    else Raise AttributeError.
Proof.
  unfold getattr. rewrite has_name_filter, assoc_get_has_name.
  destruct (assoc_get String.eqb s (hdu_fields h)); simpl.
  - destruct (has_name s (_get_oi_colnames (hdu_COLUMNS h) false));
      reflexivity.
  - destruct (has_name s (_get_oi_colnames (hdu_COLUMNS h) false));
      reflexivity.
Qed.

(** X14.  The last reference row wins.  When a resolution returns, the
    result has the shape of the foreign-key column followed by the shape
    of one reference value, and holds, for each foreign key in order, the
    value of the last row of the reference table that has this key. *)
Theorem xmatch_last_reference_row
        (str_array : list nat -> list cell -> string)
        (self : hdu) (name : string) (refhdu : hdu) (refname : string)
        (ref_values ref_indices indices values : ndarray)
        (keys : list cell) :
  getattr refhdu name = Ok ref_values ->
  getattr refhdu refname = Ok ref_indices ->
  keys_of ref_indices = Ok keys ->
  getattr self refname = Ok indices ->
  _xmatch str_array self name refhdu refname false = Ok (Values values) ->
  arr_shape values = arr_shape indices ++ tl (arr_shape ref_values) /\
  exists found,
    arr_values values = concat found /\
    Forall2 (fun i v =>
               option_map snd
                 (find (fun kv => cell_eqb i (fst kv))
                       (rev (combine keys (elements ref_values))))
               = Some v)
            (arr_values indices) found.
Proof.
  intros H1 H2 H3 H4. unfold _xmatch. rewrite H1, H2. cbn [bind].
  rewrite H3. cbn [bind]. rewrite H4. cbn [bind].
  destruct (elements ref_values) as [|e es] eqn:He; [discriminate|].
  cbn [bind]. intros H. inv_bind H. rename a into found.
  inversion H; subst; clear H. cbn [arr_shape arr_values].
  split; [reflexivity|]. exists found. split; [reflexivity|].
  unfold lookup_all in Ha. apply mapM_Forall2 in Ha.
  eapply Forall2_impl; [|exact Ha]. intros i v Hi. cbn beta in Hi.
  rewrite <- (@assoc_of_pairs_last _ _ cell_eqb cell_eqb_eq).
  destruct (assoc_get cell_eqb i (assoc_of_pairs cell_eqb (combine keys (e :: es))));
    [inversion Hi; reflexivity | discriminate].
Qed.

Import XMatchClaims.

(** A reference table that holds the identifier 1 twice. *)
Definition repeated_hdu : hdu :=
  {| hdu_COLUMNS := [desc "TARGET_ID" ">i2"; desc "TARGET" "<U16"];
     hdu_fields := [("TARGET_ID", ids_array [1; 1]%Z);
                    ("TARGET", names_array)] |}.

Lemma xmatch_last_reference_row_witness :
  _xmatch no_str (data_hdu [1]%Z) "TARGET" repeated_hdu "TARGET_ID" false
  = Ok (Values {| arr_dtype := "<U16"; arr_shape := [1];
                  arr_values := [CStr "Y"] |}) /\
  exists found,
    [CStr "Y"] = concat found /\
    Forall2 (fun i v =>
               option_map snd
                 (find (fun kv => cell_eqb i (fst kv))
                       (rev (combine [CInt 1; CInt 1]
                                     (elements names_array))))
               = Some v)
            [CInt 1] found.
Proof.
  split; [reflexivity|].
  exact (proj2 (@xmatch_last_reference_row
                  no_str (data_hdu [1]%Z) "TARGET" repeated_hdu "TARGET_ID"
                  names_array (ids_array [1; 1]%Z) (ids_array [1]%Z)
                  {| arr_dtype := "<U16"; arr_shape := [1];
                     arr_values := [CStr "Y"] |}
                  [CInt 1; CInt 1] eq_refl eq_refl eq_refl eq_refl eq_refl)).
Defined.

End XMatchFacts.

(** ** The merge engine *)

Module MergeHelperFacts.

Import MergeRows MergeHelper.

(** [_np.argmax] points at a largest element. *)
Lemma argmax_from_max (l pre : list nat) (best_i best : nat) :
  best_i < length pre ->
  nth best_i (pre ++ l) 0 = best ->
  list_max pre = best ->
  let r := argmax_from best_i best (length pre) l in
  r < length (pre ++ l) /\ nth r (pre ++ l) 0 = list_max (pre ++ l).
Proof.
  revert pre best_i best. induction l as [|x l IH]; intros pre bi b Hlt Hn Hm.
  - simpl. rewrite app_nil_r in *. split; [assumption | congruence].
  - simpl. replace (pre ++ x :: l) with ((pre ++ [x]) ++ l) in *
      by (rewrite <- app_assoc; reflexivity).
    replace (S (length pre)) with (length (pre ++ [x]))
      by (rewrite length_app; simpl; lia).
    destruct (b <? x) eqn:E.
    + apply Nat.ltb_lt in E. apply IH.
      * rewrite length_app; simpl; lia.
      * rewrite app_nth1 by (rewrite length_app; simpl; lia).
        rewrite app_nth2 by lia. rewrite Nat.sub_diag. reflexivity.
      * rewrite list_max_app. simpl. lia.
    + apply Nat.ltb_ge in E. apply IH.
      * rewrite length_app; simpl; lia.
      * assumption.
      * rewrite list_max_app. simpl. lia.
Qed.

Lemma argmax_max (x : nat) (l : list nat) :
  argmax (x :: l) < length (x :: l) /\
  nth (argmax (x :: l)) (x :: l) 0 = list_max (x :: l).
Proof.
  unfold argmax. apply (@argmax_from_max l [x] 0 x).
  - simpl; lia.
  - reflexivity.
  - simpl. lia.
Qed.

(** With [o != n] applied to one value after the other. *)
Definition rewrite_cell (map_ : dict) (v : cell) : cell :=
  fold_left (fun v on => if cell_eqb v (fst on) then snd on else v) map_ v.

Lemma rewrite_field_cells (map_ : dict) (field_ : list cell) :
  rewrite_field map_ field_ = map (rewrite_cell map_) field_.
Proof.
  revert field_. induction map_ as [|on m IH]; intros f; simpl.
  - symmetry. apply map_id.
  - unfold rewrite_field in *. simpl. rewrite IH. unfold replace_old.
    rewrite map_map. reflexivity.
Qed.

Lemma rewrite_cell_fixed (map_ : dict) (v : cell) :
  ~ In v (map fst map_) -> rewrite_cell map_ v = v.
Proof.
  unfold rewrite_cell. induction map_ as [|[o n] m IH]; simpl;
    [reflexivity|].
  intros H. destruct (cell_eqb v o) eqn:E.
  - apply cell_eqb_eq in E. subst o. tauto.
  - apply IH. tauto.
Qed.

(** X15.  The cascade without chains.  When no new identifier of a map is
    itself an old identifier of the map, the cascade, which applies the
    entries one after the other, rewrites a column as the row assembly
    does with [map.get(i, i)]. *)
Theorem cascade_agrees_without_chain (map_ : dict) (field_ : list cell) :
  (forall o n, In (o, n) map_ -> ~ In n (map fst map_)) ->
  rewrite_field map_ field_ = map (dict_get_default map_) field_.
Proof.
  intros H. rewrite rewrite_field_cells. apply map_ext. intros v.
  induction map_ as [|[o n] m IH]; [reflexivity|].
  unfold rewrite_cell, dict_get_default. simpl.
  destruct (cell_eqb v o) eqn:E.
  - apply rewrite_cell_fixed. intros Hin.
    apply (H o n (or_introl eq_refl)). simpl. right. assumption.
  - apply IH. intros o' n' Hin Hk.
    apply (H o' n' (or_intror Hin)). simpl. right. assumption.
Qed.

Lemma cascade_agrees_without_chain_witness :
  rewrite_field [(CInt 1, CInt 3); (CInt 2, CInt 4)] [CInt 1; CInt 2; CInt 5]
  = map (dict_get_default [(CInt 1, CInt 3); (CInt 2, CInt 4)])
        [CInt 1; CInt 2; CInt 5].
Proof.
  apply cascade_agrees_without_chain.
  intros o n [H|[H|[]]]; inversion H; subst; simpl;
    intuition discriminate.
Defined.

Section HelperFacts.

Variable header : Type.
Variable header_EXTNAME : header -> result string.
Variable merge_fits_headers : list header -> list string -> result header.
Variable np_ndarray : list nat -> string -> result ndarray.
Variable fits_Column :
  string -> string -> option (list nat) -> option string -> result fcolumn.
Variable Column_array : string -> ndarray -> result ndarray.
Variable BinTable_from_columns :
  list fcolumn -> header -> nat -> result fits_rec.
Variable refers_to : hdu header -> hdu header -> bool.
Variable equality : row -> row -> bool.

Local Abbreviation merge_helper :=
  (@_merge_helper header header_EXTNAME merge_fits_headers np_ndarray
                  fits_Column Column_array BinTable_from_columns refers_to
                  equality).

(** X16.  The class of the merged table.  When a merge returns, the
    merged table has the largest revision number of the inputs, and the
    schema and required keywords of an input of that revision. *)
Theorem merge_helper_latest_revision (self : hdu header)
        (others : list (hdu header)) (id_name : option string)
        (s s' : store header) (merged : hdu header) :
  merge_helper self others id_name s = Ok (merged, s') ->
  hdu_OI_REVN merged = list_max (map (@hdu_OI_REVN header) (self :: others)) /\
  exists h, In h (self :: others) /\
            hdu_OI_REVN h = hdu_OI_REVN merged /\
            hdu_COLUMNS merged = hdu_COLUMNS h /\
            hdu_req_keys merged = hdu_req_keys h.
Proof.
  unfold _merge_helper. intros H.
  apply bind_Ok in H. destruct H as [ext1 [Hext H]].
  apply bind_Ok in H. destruct H as [units [Hunits H]].
  apply bind_Ok in H. destruct H as [columns [Hcolumns H]].
  apply bind_Ok in H. destruct H as [[rows maps] [Hrows H]].
  apply bind_Ok in H. destruct H as [header_ [Hheader H]].
  apply bind_Ok in H. destruct H as [columns' [Hcast H]].
  apply bind_Ok in H. destruct H as [data0 [Hdata0 H]].
  apply bind_Ok in H. destruct H as [data [Hdata H]].
  apply bind_Ok in H. destruct H as [s1 [Hstore H]].
  inversion H; subst; clear H. cbn [hdu_OI_REVN hdu_COLUMNS hdu_req_keys].
  set (hdus := self :: others).
  set (i := argmax (map (@hdu_OI_REVN header) hdus)).
  destruct (argmax_max (hdu_OI_REVN self) (map (@hdu_OI_REVN header) others))
    as [Hlt Hmax].
  change (hdu_OI_REVN self :: map (@hdu_OI_REVN header) others)
    with (map (@hdu_OI_REVN header) hdus) in Hlt, Hmax.
  fold i in Hlt, Hmax. rewrite length_map in Hlt.
  assert (E : hdu_OI_REVN (nth i hdus self)
              = list_max (map (@hdu_OI_REVN header) hdus)).
  { rewrite <- Hmax.
    rewrite (nth_indep (map (@hdu_OI_REVN header) hdus) 0
                       (hdu_OI_REVN self))
      by (rewrite length_map; assumption).
    symmetry. apply map_nth. }
  split; [exact E|]. exists (nth i hdus self).
  split; [apply nth_In; assumption|]. auto.
Qed.

(** X17.  Tables of another kind.  When the headers of all the tables
    have an [EXTNAME] and one of [others] has another one than [self], the
    merge raises [TypeError]. *)
Theorem merge_helper_rejects_other_kind (self : hdu header)
        (others : list (hdu header)) (id_name : option string)
        (s : store header) (ext1 : string) :
  header_EXTNAME (hdu_header self) = Ok ext1 ->
  (forall o, In o others ->
             exists e, header_EXTNAME (hdu_header o) = Ok e) ->
  (exists o, In o others /\ header_EXTNAME (hdu_header o) <> Ok ext1) ->
  merge_helper self others id_name s = Raise TypeError.
Proof.
  intros H1 Hall Hex. unfold _merge_helper.
  rewrite H1. cbn [bind].
  assert (G : mapM (check_extname header_EXTNAME ext1) others
              = Raise TypeError).
  { clear - Hall Hex. induction others as [|o os IH].
    - destruct Hex as [o [[] _]].
    - simpl. unfold check_extname at 1.
      destruct (Hall o (or_introl eq_refl)) as [e He]. rewrite He.
      cbn [bind]. destruct (String.eqb ext1 e) eqn:E; cbn [negb bind];
        [|reflexivity].
      apply String.eqb_eq in E. subst e.
      rewrite IH; [reflexivity | |].
      + intros x Hx. apply Hall. right. assumption.
      + destruct Hex as [x [[<-|Hx] Hne]]; [congruence|].
        exists x. auto. }
  rewrite G. reflexivity.
Qed.

(** X18.  A merge without identifier column has no side effect: the
    tables of the data sets of the inputs are left as they are. *)
Theorem merge_helper_default_leaves_store (self : hdu header)
        (others : list (hdu header)) (s s' : store header)
        (merged : hdu header) :
  merge_helper self others None s = Ok (merged, s') -> s' = s.
Proof.
  unfold _merge_helper. intros H.
  apply bind_Ok in H. destruct H as [ext1 [Hext H]].
  apply bind_Ok in H. destruct H as [units [Hunits H]].
  apply bind_Ok in H. destruct H as [columns [Hcolumns H]].
  apply bind_Ok in H. destruct H as [[rows maps] [Hrows H]].
  apply bind_Ok in H. destruct H as [header_ [Hheader H]].
  apply bind_Ok in H. destruct H as [columns' [Hcast H]].
  apply bind_Ok in H. destruct H as [data0 [Hdata0 H]].
  apply bind_Ok in H. destruct H as [data [Hdata H]].
  apply bind_Ok in H. destruct H as [s1 [Hstore H]].
  inversion H; subst; clear H.
  unfold _merge_fits_rows in Hrows. inversion Hrows; subst; clear Hrows.
  simpl in Hstore. rewrite combine_nil in Hstore. simpl in Hstore.
  inversion Hstore; reflexivity.
Qed.

(** [h'] is [h] with other values in the column [idn], and nothing else
    changed. *)
Definition rewrites_ids (idn : string) (h h' : hdu header) : Prop :=
  with_data h (hdu_data h') = h' /\
  rec_names (hdu_data h') = rec_names (hdu_data h) /\
  Forall2 (fun r r' => map fst r' = map fst r /\
                       forall n, n <> idn -> field n r' = field n r)
          (rec_rows (hdu_data h)) (rec_rows (hdu_data h')).

Lemma rewrites_ids_refl (idn : string) (h : hdu header) :
  rewrites_ids idn h h.
Proof.
  split; [destruct h; reflexivity|]. split; [reflexivity|].
  induction (rec_rows (hdu_data h)); constructor; auto.
Qed.

Lemma Forall2_trans {A : Type} (R : A -> A -> Prop) :
  (forall a b c, R a b -> R b c -> R a c) ->
  forall l1 l2 l3, Forall2 R l1 l2 -> Forall2 R l2 l3 -> Forall2 R l1 l3.
Proof.
  intros HR l1 l2 l3 H12. revert l3.
  induction H12 as [|a b l1 l2 Hab _ IH]; intros l3 H23;
    inversion H23; subst; constructor; eauto.
Qed.

Lemma Forall2_refl {A : Type} (R : A -> A -> Prop) :
  (forall a, R a a) -> forall l, Forall2 R l l.
Proof. intros HR l. induction l; constructor; auto. Qed.

Lemma rewrites_ids_trans (idn : string) (a b c : hdu header) :
  rewrites_ids idn a b -> rewrites_ids idn b c -> rewrites_ids idn a c.
Proof.
  intros [W1 [N1 R1]] [W2 [N2 R2]]. split; [|split].
  - rewrite <- W2, <- W1. reflexivity.
  - congruence.
  - eapply Forall2_trans; [|exact R1|exact R2].
    intros x y z [F1 G1] [F2 G2]. split; [congruence|].
    intros n Hn. rewrite G2, G1 by assumption. reflexivity.
Qed.

Lemma set_column_rewrites (idn : string) (values : list cell)
      (rows : list row) :
  Forall2 (fun r r' => map fst r' = map fst r /\
                       forall n, n <> idn -> field n r' = field n r)
          rows (set_column idn values rows).
Proof.
  revert values. induction rows as [|r rows IH]; intros [|v vs]; simpl.
  - constructor.
  - constructor.
  - apply Forall2_refl. auto.
  - constructor; [|apply IH]. split.
    + apply FillFacts.map_fst_set_field.
    + intros n Hn. apply FillFacts.field_set_field_other. assumption.
Qed.

Lemma update_referrer_rewrites (idn : string) (hdu_ : hdu header)
      (map_ : dict) (h h' : hdu header) :
  update_referrer refers_to (Some idn) hdu_ map_ h = Ok h' ->
  rewrites_ids idn h h'.
Proof.
  unfold update_referrer. destruct (refers_to h hdu_).
  - intros H. inv_bind H. inversion H; subst; clear H.
    split; [reflexivity|]. split; [reflexivity|].
    cbn. apply set_column_rewrites.
  - intros H; inversion H; subst. apply rewrites_ids_refl.
Qed.

Lemma set_nth_Forall2 {A : Type} (R : A -> A -> Prop) (l : list A)
      (k : nat) (a a' : A) :
  (forall x, R x x) -> nth_error l k = Some a -> R a a' ->
  Forall2 R l (set_nth k a' l).
Proof.
  intros HR. revert k. induction l as [|x l IH]; intros [|k]; simpl;
    try discriminate.
  - intros H Ha. inversion H; subst. constructor;
      [assumption | apply Forall2_refl; assumption].
  - intros H Ha. constructor; [apply HR | apply IH; assumption].
Qed.

(** X19.  What the cascade may change.  When a merge on an identifier
    column returns, the data sets of the inputs hold the tables they held,
    in the same order; each table has its class, header, columns and
    container, the field names and the number of rows it had, and in each
    row every field but the identifier column as it was. *)
Theorem merge_helper_cascade_rewrites_ids_only (self : hdu header)
        (others : list (hdu header)) (idn : string) (s s' : store header)
        (merged : hdu header) :
  merge_helper self others (Some idn) s = Ok (merged, s') ->
  Forall2 (Forall2 (rewrites_ids idn)) s s'.
Proof.
  unfold _merge_helper. intros H.
  apply bind_Ok in H. destruct H as [ext1 [Hext H]].
  apply bind_Ok in H. destruct H as [units [Hunits H]].
  apply bind_Ok in H. destruct H as [columns [Hcolumns H]].
  apply bind_Ok in H. destruct H as [[rows maps] [Hrows H]].
  apply bind_Ok in H. destruct H as [header_ [Hheader H]].
  apply bind_Ok in H. destruct H as [columns' [Hcast H]].
  apply bind_Ok in H. destruct H as [data0 [Hdata0 H]].
  apply bind_Ok in H. destruct H as [data [Hdata H]].
  apply bind_Ok in H. destruct H as [s1 [Hstore H]].
  inversion H; subst; clear H.
  revert Hstore. generalize (combine (self :: others) maps).
  clear. intros hm. revert s.
  induction hm as [|[hdu_ map_] hm IH]; simpl; intros s H.
  - inversion H; subst.
    apply Forall2_refl. intros c. apply Forall2_refl.
    apply rewrites_ids_refl.
  - inv_bind H. rename a into s1.
    eapply Forall2_trans; [| |apply (IH s1 H)].
    { intros x y z. apply Forall2_trans. apply rewrites_ids_trans. }
    clear IH H. destruct (nonempty map_);
      [|inversion Ha; subst; apply Forall2_refl; intros c;
        apply Forall2_refl; apply rewrites_ids_refl].
    destruct (hdu_container hdu_) as [k|];
      [|inversion Ha; subst; apply Forall2_refl; intros c;
        apply Forall2_refl; apply rewrites_ids_refl].
    destruct (nth_error s k) as [cont|] eqn:Hk;
      [|inversion Ha; subst; apply Forall2_refl; intros c;
        apply Forall2_refl; apply rewrites_ids_refl].
    inv_bind Ha. inversion Ha; subst; clear Ha.
    apply (@set_nth_Forall2 _ (Forall2 (rewrites_ids idn)) s k cont a);
      [|exact Hk|].
    + intros c. apply Forall2_refl. apply rewrites_ids_refl.
    + apply mapM_Forall2 in Ha0.
      eapply Forall2_impl; [|exact Ha0].
      intros h h'. apply update_referrer_rewrites.
Qed.

End HelperFacts.

(** The merge of the examples: tables of targets of a given revision,
    with headers that all hold the same [EXTNAME], and a table allocation
    that gives blank rows. *)
Definition table_hdu (revn : nat) (data : fits_rec) : hdu string :=
  {| hdu_OI_REVN := revn; hdu_COLUMNS := []; hdu_req_keys := [];
     hdu_header := "OI_TARGET"; hdu_columns := []; hdu_data := data;
     hdu_container := Some 0 |}.

Definition example_merge (self : hdu string) (others : list (hdu string))
           (id_name : option string) (s : store string)
  : result (hdu string * store string) :=
  @_merge_helper string (fun h => Ok h) (fun hs _ => Ok (hd "" hs))
                 NumpyModel.np_ndarray NumpyModel.fits_Column
                 NumpyModel.Column_array
                 (fun _ _ n => Ok (Examples.blank n)) (fun _ _ => true)
                 Examples.same_name self others id_name s.

Definition merged_example (revn : nat) (rows : list row) : hdu string :=
  {| hdu_OI_REVN := revn; hdu_COLUMNS := []; hdu_req_keys := [];
     hdu_header := "OI_TARGET"; hdu_columns := [];
     hdu_data := Examples.targets rows; hdu_container := None |}.

Lemma merge_helper_latest_revision_witness :
  hdu_OI_REVN
    (merged_example 2 [Examples.target 1 "X"; Examples.target 2 "Y";
                       Examples.target 3 "Z"])
  = list_max (map (@hdu_OI_REVN string)
                  [table_hdu 1 Examples.A2; table_hdu 2 Examples.B2]).
Proof.
  exact (proj1 (@merge_helper_latest_revision
                  string (fun h => Ok h) (fun hs _ => Ok (hd "" hs))
                  NumpyModel.np_ndarray NumpyModel.fits_Column
                  NumpyModel.Column_array
                  (fun _ _ n => Ok (Examples.blank n)) (fun _ _ => true)
                  Examples.same_name
                  (table_hdu 1 Examples.A2) [table_hdu 2 Examples.B2]
                  (Some "TARGET_ID") [] []
                  (merged_example 2 [Examples.target 1 "X";
                                     Examples.target 2 "Y";
                                     Examples.target 3 "Z"])
                  eq_refl)).
Defined.

Lemma merge_helper_rejects_other_kind_witness :
  example_merge (table_hdu 2 Examples.A2)
    [{| hdu_OI_REVN := 2; hdu_COLUMNS := []; hdu_req_keys := [];
        hdu_header := "OI_VIS2"; hdu_columns := [];
        hdu_data := CascadeClaims.vis; hdu_container := None |}]
    (Some "TARGET_ID") []
  = Raise TypeError.
Proof.
  apply (@merge_helper_rejects_other_kind
           string (fun h => Ok h) (fun hs _ => Ok (hd "" hs))
           NumpyModel.np_ndarray NumpyModel.fits_Column
           NumpyModel.Column_array
           (fun _ _ n => Ok (Examples.blank n)) (fun _ _ => true)
           Examples.same_name _ _ _ _ "OI_TARGET").
  - reflexivity.
  - intros o [<-|[]]. eexists. reflexivity.
  - eexists. split; [left; reflexivity|]. discriminate.
Defined.

Lemma merge_helper_default_leaves_store_witness :
  example_merge (table_hdu 2 Examples.A2) [table_hdu 2 Examples.B2] None
                [[table_hdu 2 CascadeClaims.vis]]
  = Ok (merged_example 2 [Examples.target 1 "X"; Examples.target 2 "Y";
                          Examples.target 0 ""; Examples.target 0 ""],
        [[table_hdu 2 CascadeClaims.vis]]) /\
  [[table_hdu 2 CascadeClaims.vis]] = [[table_hdu 2 CascadeClaims.vis]].
Proof.
  split; [reflexivity|].
  exact (@merge_helper_default_leaves_store
           string (fun h => Ok h) (fun hs _ => Ok (hd "" hs))
           NumpyModel.np_ndarray NumpyModel.fits_Column
           NumpyModel.Column_array
           (fun _ _ n => Ok (Examples.blank n)) (fun _ _ => true)
           Examples.same_name
           (table_hdu 2 Examples.A2) [table_hdu 2 Examples.B2]
           [[table_hdu 2 CascadeClaims.vis]]
           [[table_hdu 2 CascadeClaims.vis]]
           (merged_example 2 [Examples.target 1 "X"; Examples.target 2 "Y";
                              Examples.target 0 ""; Examples.target 0 ""])
           eq_refl).
Defined.

Lemma merge_helper_cascade_rewrites_ids_only_witness :
  Forall2 (Forall2 (rewrites_ids "TARGET_ID"))
          [[table_hdu 2 CascadeClaims.vis]]
          [[table_hdu 2 {| rec_names := ["TARGET_ID"; "VIS"];
                           rec_rows := [CascadeClaims.vis_row 3 "on Y";
                                        CascadeClaims.vis_row 3 "on Z"] |}]].
Proof.
  exact (@merge_helper_cascade_rewrites_ids_only
           string (fun h => Ok h) (fun hs _ => Ok (hd "" hs))
           NumpyModel.np_ndarray NumpyModel.fits_Column
           NumpyModel.Column_array
           (fun _ _ n => Ok (Examples.blank n)) (fun _ _ => true)
           Examples.same_name
           (table_hdu 2 Examples.A2) [table_hdu 2 Examples.B2] "TARGET_ID"
           [[table_hdu 2 CascadeClaims.vis]] _
           (merged_example 2 [Examples.target 1 "X"; Examples.target 2 "Y";
                              Examples.target 3 "Z"])
           eq_refl).
Defined.

End MergeHelperFacts.

(** ** Construction from raw columns *)

Module FromDataFacts.

Import FromData.

Lemma upper_char_idem (c : ascii) : upper_char (upper_char c) = upper_char c.
Proof.
  destruct c as [[] [] [] [] [] [] [] []]; reflexivity.
Qed.

(** [k.upper().upper() == k.upper()] *)
Lemma upper_idem (s : string) : upper (upper s) = upper s.
Proof.
  unfold upper. rewrite list_ascii_of_string_of_list_ascii, map_map.
  f_equal. apply map_ext. intros c. apply upper_char_idem.
Qed.

Lemma assoc_get_del_other {V : Type} (k n : string) (d : list (string * V)) :
  n <> k ->
  assoc_get String.eqb n (assoc_del String.eqb k d)
  = assoc_get String.eqb n d.
Proof.
  intros Hne. induction d as [|[k' v] d IH]; simpl; [reflexivity|].
  destruct (String.eqb k k') eqn:E.
  - apply String.eqb_eq in E. subst k'.
    destruct (String.eqb n k) eqn:E'; [|reflexivity].
    apply String.eqb_eq in E'. contradiction.
  - simpl. destruct (String.eqb n k'); [reflexivity | exact IH].
Qed.

Lemma has_name_same (n : string) (l1 l2 : list string) :
  (In n l1 <-> In n l2) -> has_name n l1 = has_name n l2.
Proof.
  intros H. destruct (has_name n l1) eqn:E1, (has_name n l2) eqn:E2;
    try reflexivity.
  - apply has_name_In, H, has_name_In in E1. congruence.
  - apply has_name_In, H, has_name_In in E2. congruence.
Qed.

Section BuildFacts.

Variable pyvalue : Type.
Variable is_None : pyvalue -> bool.
Variable value_of_default : option cell -> pyvalue.
Variable len_atleast_1d : pyvalue -> nat.
Variable reshape_to_rows : pyvalue -> nat -> ndarray.
Variable header : Type.
Variable build_header :
  list carddesc -> list (string * pyvalue) -> result header.
Variable fits_Column :
  string -> option string -> ndarray -> string -> result fcolumn.
Variable table : Type.
Variable from_columns : list fcolumn -> header -> result table.

Local Abbreviation from_data_ :=
  (@from_data pyvalue is_None value_of_default len_atleast_1d
              reshape_to_rows header build_header fits_Column table
              from_columns).

Local Abbreviation official_part_ :=
  (@official_part pyvalue is_None value_of_default len_atleast_1d
                  reshape_to_rows header build_header fits_Column).

(** A name with its upper case. *)
Definition upper_key (kv : string * pyvalue) : string * pyvalue :=
  (upper (fst kv), snd kv).

Lemma upper_keys_upper (d : list (string * pyvalue)) :
  upper_keys (map upper_key d) = upper_keys d.
Proof.
  unfold upper_keys. rewrite map_map. f_equal. apply map_ext.
  intros [k v]. unfold upper_key. simpl. rewrite upper_idem. reflexivity.
Qed.

Lemma filter_upper_key (p : pyvalue -> bool) (d : list (string * pyvalue)) :
  filter (fun kv => p (snd kv)) (map upper_key d)
  = map upper_key (filter (fun kv => p (snd kv)) d).
Proof.
  induction d as [|[k v] d IH]; simpl; [reflexivity|].
  destruct (p v); simpl; rewrite IH; reflexivity.
Qed.

(** X20.  Names in any case.  [from_data] reads the names of the columns
    and of the keywords without regard to case: called with the names in
    upper case it does what it does with the names as given. *)
Theorem from_data_ignores_case (CARDS : list carddesc)
        (COLUMNS : list coldesc)
        (fits_keywords columns : list (string * pyvalue)) :
  from_data_ CARDS COLUMNS (map upper_key fits_keywords)
             (map upper_key columns)
  = from_data_ CARDS COLUMNS fits_keywords columns.
Proof.
  unfold from_data, official_part, nrows_of.
  rewrite (filter_upper_key (fun v => negb (is_None v))).
  rewrite !upper_keys_upper. reflexivity.
Qed.

(** X21.  No column at all.  Called without any column, [from_data]
    raises: the number of rows is the maximum of an empty sequence. *)
Theorem from_data_without_columns (CARDS : list carddesc)
        (COLUMNS : list coldesc) (fits_keywords : list (string * pyvalue)) :
  exists e, from_data_ CARDS COLUMNS fits_keywords [] = Raise e /\
            (forall h, build_header
                         CARDS
                         (upper_keys
                            (filter (fun kv => negb (is_None (snd kv)))
                                    fits_keywords)) = Ok h ->
                       e = ValueError).
Proof.
  unfold from_data, official_part. cbn [upper_keys map assoc_of_pairs fold_left].
  destruct (build_header CARDS _) as [h|e] eqn:E.
  - exists ValueError. split; [reflexivity | auto].
  - exists e. split; [reflexivity|]. intros h H. discriminate.
Qed.

Definition supplied (columns : list (string * pyvalue)) (name : string)
  : bool :=
  match assoc_get String.eqb name columns with
  | Some _ => true
  | None => false
  end.

Lemma official_column_step (nrows : nat)
      (columns columns' : list (string * pyvalue))
      (fcols fcols' : list fcolumn) (col : coldesc) :
  (forall fmt unit array name c,
      fits_Column fmt unit array name = Ok c -> col_name c = name) ->
  official_column value_of_default reshape_to_rows fits_Column nrows
                  (columns, fcols) col = Ok (columns', fcols') ->
  (forall n, n <> cd_name col ->
             assoc_get String.eqb n columns'
             = assoc_get String.eqb n columns) /\
  map col_name fcols'
  = map col_name fcols
    ++ (if supplied columns (cd_name col) || cd_required col
        then [cd_name col] else []).
Proof.
  intros Hname. unfold official_column, supplied.
  destruct (assoc_get String.eqb (cd_name col) columns) as [x|] eqn:G.
  - cbn [negb andb orb]. rewrite G. intros H. inv_bind H. inv_bind H.
    inversion H; subst; clear H. split.
    + intros n Hn. apply assoc_get_del_other. assumption.
    + rewrite map_app. simpl. rewrite (Hname _ _ _ _ _ Ha0). reflexivity.
  - cbn [negb andb orb]. destruct (cd_required col); cbn [negb].
    + rewrite (@assoc_get_set_same _ _ String.eqb String.eqb_eq).
      intros H. inv_bind H. inv_bind H. inversion H; subst; clear H. split.
      * intros n Hn. rewrite assoc_get_del_other by assumption.
        apply (@assoc_get_set_other _ _ String.eqb String.eqb_eq).
        assumption.
      * rewrite map_app. simpl. rewrite (Hname _ _ _ _ _ Ha0). reflexivity.
    + intros H; inversion H; subst. split; [reflexivity|].
      rewrite app_nil_r. reflexivity.
Qed.

Lemma official_columns_names (nrows : nat) (l : list coldesc) :
  (forall fmt unit array name c,
      fits_Column fmt unit array name = Ok c -> col_name c = name) ->
  NoDup (map cd_name l) ->
  forall columns fcols acc',
    foldM (official_column value_of_default reshape_to_rows fits_Column
                           nrows) l (columns, fcols) = Ok acc' ->
    map col_name (snd acc')
    = map col_name fcols
      ++ map cd_name
           (filter (fun cd => supplied columns (cd_name cd) || cd_required cd)
                   l).
Proof.
  intros Hname. induction l as [|col l IH]; intros Hnd columns fcols acc' H.
  - simpl in H. inversion H; subst. simpl. rewrite app_nil_r. reflexivity.
  - cbn [foldM] in H. inv_bind H. destruct a as [columns1 fcols1].
    inversion Hnd as [|x xs Hnotin Hnd']; subst.
    destruct (@official_column_step nrows columns columns1 fcols fcols1 col
                Hname Ha) as [O1 N1].
    rewrite (IH Hnd' columns1 fcols1 acc' H), N1, <- app_assoc.
    f_equal. simpl.
    assert (F : filter (fun cd => supplied columns1 (cd_name cd)
                                  || cd_required cd) l
                = filter (fun cd => supplied columns (cd_name cd)
                                    || cd_required cd) l).
    { apply filter_ext_in. intros cd Hcd. unfold supplied.
      rewrite O1; [reflexivity|]. intros E. apply Hnotin. rewrite <- E.
      apply in_map. assumption. }
    rewrite F.
    destruct (supplied columns (cd_name col) || cd_required col);
      reflexivity.
Qed.

(** X22.  The columns of the schema, in the order of the schema.  When
    the names of the schema are distinct and the part of [from_data] that
    builds the columns of the schema returns, the columns it built are
    named, in the order of the schema and whatever the order of the
    arguments, after the schema entries that are required or whose name
    was supplied in some case; an optional entry that was not supplied
    gets no column. *)
Theorem from_data_columns_in_schema_order (CARDS : list carddesc)
        (COLUMNS : list coldesc)
        (fits_keywords columns rest : list (string * pyvalue))
        (fcols : list fcolumn) (header_ : header) :
  (forall fmt unit array name c,
      fits_Column fmt unit array name = Ok c -> col_name c = name) ->
  NoDup (map cd_name COLUMNS) ->
  official_part_ CARDS COLUMNS fits_keywords columns
  = Ok (rest, fcols, header_) ->
  map col_name fcols
  = map cd_name
        (filter (fun cd => has_name (cd_name cd)
                                    (map (fun kv => upper (fst kv)) columns)
                           || cd_required cd)
                COLUMNS).
Proof.
  intros Hname Hnd. unfold official_part. intros H.
  inv_bind H. inv_bind H. inv_bind H. inversion H; subst; clear H.
  rewrite (@official_columns_names a0 COLUMNS Hname Hnd _ _ _ Ha1). simpl. f_equal.
  apply filter_ext. intros cd. f_equal. unfold supplied.
  rewrite <- XMatchFacts.assoc_get_has_name. apply has_name_same.
  unfold upper_keys.
  rewrite (@XMatchClaims.assoc_of_pairs_keys _ _ String.eqb String.eqb_eq).
  rewrite map_map. reflexivity.
Qed.

End BuildFacts.

Import FromDataHelper.

(** X23.  One row per table row.  [reshape_to_rows] always yields an array
    whose first axis has [nrows] elements, of the type of its argument and,
    when the argument holds as many values as its shape tells, with as
    many values as its own shape tells; an argument that has [nrows]
    elements along its first axis is returned as it is, any other one is
    repeated for every row, also when it is a shorter column; applying the
    helper twice changes nothing more. *)
Theorem reshape_to_rows_first_axis (x : ndarray) (nrows : nat) :
  hd_error (arr_shape (reshape_to_rows x nrows)) = Some nrows /\
  arr_dtype (reshape_to_rows x nrows) = arr_dtype x /\
  (length (arr_values x) = fold_left Nat.mul (arr_shape x) 1 ->
   length (arr_values (reshape_to_rows x nrows))
   = fold_left Nat.mul (arr_shape (reshape_to_rows x nrows)) 1) /\
  (hd_error (arr_shape x) = Some nrows -> reshape_to_rows x nrows = x) /\
  (hd_error (arr_shape x) <> Some nrows ->
   arr_shape (reshape_to_rows x nrows) = nrows :: arr_shape x /\
   arr_values (reshape_to_rows x nrows)
   = concat (repeat (arr_values x) nrows)) /\
  reshape_to_rows (reshape_to_rows x nrows) nrows = reshape_to_rows x nrows.
Proof.
  assert (L : forall (v : list cell) n,
             length (concat (repeat v n)) = n * length v).
  { intros v n. induction n; simpl; [reflexivity|].
    rewrite length_app, IHn. reflexivity. }
  assert (M : forall l a b, fold_left Nat.mul l (a * b)
                            = a * fold_left Nat.mul l b).
  { induction l as [|y l IH]; intros a b; simpl; [reflexivity|].
    rewrite <- Nat.mul_assoc. apply IH. }
  unfold reshape_to_rows.
  destruct (arr_shape x) as [|d ds] eqn:S;
    [|destruct (Nat.eqb d nrows) eqn:E];
    cbn [negb arr_shape arr_dtype arr_values hd_error];
    rewrite ?S, ?E, ?Nat.eqb_refl;
    cbn [negb arr_shape arr_dtype arr_values hd_error].
  - split; [reflexivity|]. split; [reflexivity|]. split.
    { intros H. rewrite L, H. cbn [fold_left]. lia. }
    split; [discriminate|]. split; [|reflexivity]. auto.
  - apply Nat.eqb_eq in E. subst d.
    split; [reflexivity|]. split; [reflexivity|]. split; [auto|].
    split; [reflexivity|]. split; [|reflexivity].
    intros H. exfalso. apply H. reflexivity.
  - apply Nat.eqb_neq in E.
    split; [reflexivity|]. split; [reflexivity|]. split.
    { intros H. rewrite L, H. cbn [fold_left].
      rewrite <- !M. f_equal. lia. }
    split. { intros H. inversion H. contradiction. }
    split; [|reflexivity]. auto.
Qed.

Lemma from_data_columns_in_schema_order_witness :
  map col_name
      [{| col_name := "CATEGORY"; col_format := "3A"; col_unit := None;
          col_null := None; col_dim := None;
          col_array := Some (FromDataClaims.rows_of [CStr "SCI"] 1) |};
       {| col_name := "TARGET"; col_format := "16A"; col_unit := None;
          col_null := None; col_dim := None;
          col_array := Some (FromDataClaims.rows_of [CStr "HD 1"] 1) |}]
  = map cd_name
        (filter (fun cd =>
                   has_name (cd_name cd)
                            (map (fun kv : string * list cell =>
                                    upper (fst kv))
                                 [("target", [CStr "HD 1"]);
                                  ("category", [CStr "SCI"])])
                   || cd_required cd)
                [VerifyExamples.CATEGORY; XMatchClaims.desc "TARGET" "<U16"]).
Proof.
  apply (@from_data_columns_in_schema_order
           (list cell) (fun _ => false)
           (fun d => match d with Some c => [c] | None => [] end)
           (@length cell) FromDataClaims.rows_of unit (fun _ _ => Ok tt)
           FromDataClaims.make_column
           [] [VerifyExamples.CATEGORY; XMatchClaims.desc "TARGET" "<U16"]
           [] [("target", [CStr "HD 1"]); ("category", [CStr "SCI"])]
           [] _ tt).
  - intros fmt unit array name c H. inversion H. reflexivity.
  - simpl. constructor; [simpl; intuition discriminate|].
    constructor; [simpl; tauto | constructor].
  - reflexivity.
Defined.

End FromDataFacts.

(** ** Target tables *)

Module TargetFacts.

Import Verify Target.

Lemma insert_unique_In (x v : Z) (l : list Z) :
  In v (insert_unique x l) <-> v = x \/ In v l.
Proof.
  induction l as [|y l IH]; simpl; [intuition|].
  destruct (x <? y)%Z; [simpl; intuition|].
  destruct (x =? y)%Z eqn:E.
  - apply Z.eqb_eq in E. subst y. simpl. intuition.
  - simpl. rewrite IH. intuition.
Qed.

Lemma insert_unique_sorted (x : Z) (l : list Z) :
  Sorted.StronglySorted Z.lt l ->
  Sorted.StronglySorted Z.lt (insert_unique x l).
Proof.
  induction 1 as [|y l Hs IH Hy]; simpl.
  - repeat constructor.
  - destruct (x <? y)%Z eqn:L.
    + apply Z.ltb_lt in L. constructor; [constructor; assumption|].
      constructor; [assumption|].
      rewrite Forall_forall in *. intros z Hz. specialize (Hy z Hz). lia.
    + destruct (x =? y)%Z eqn:E; [constructor; assumption|].
      apply Z.ltb_ge in L. apply Z.eqb_neq in E.
      constructor; [assumption|].
      rewrite Forall_forall in *. intros z Hz.
      apply insert_unique_In in Hz. destruct Hz as [->|Hz]; [lia | auto].
Qed.

(** [_np.unique] returns the values of its argument, each once, in
    increasing order. *)
Lemma np_unique_spec (l : list Z) :
  Sorted.StronglySorted Z.lt (np_unique l) /\
  (forall v, In v (np_unique l) <-> In v l).
Proof.
  unfold np_unique. induction l as [|x l [IH1 IH2]]; simpl.
  - split; [constructor | tauto].
  - split; [apply insert_unique_sorted; assumption|].
    intros v. rewrite insert_unique_In, IH2. intuition.
Qed.

Lemma forallb_same {A : Type} (p : A -> bool) (l1 l2 : list A) :
  (forall v, In v l1 <-> In v l2) -> forallb p l1 = forallb p l2.
Proof.
  intros H. destruct (forallb p l1) eqn:E1, (forallb p l2) eqn:E2;
    try reflexivity.
  - rewrite forallb_forall in E1.
    assert (forallb p l2 = true)
      by (apply forallb_forall; intros v Hv; apply E1, H; assumption).
    congruence.
  - rewrite forallb_forall in E2.
    assert (forallb p l1 = true)
      by (apply forallb_forall; intros v Hv; apply E2, H; assumption).
    congruence.
Qed.

Lemma distinct_length (l : list cell) : length (distinct l) <= length l.
Proof.
  induction l as [|x l IH]; simpl; [lia|].
  destruct (mem x l); simpl; lia.
Qed.

(** [len(np.unique(a)) == len(a)] tells whether the values are distinct. *)
Lemma distinct_NoDup (l : list cell) :
  length (distinct l) = length l <-> NoDup l.
Proof.
  induction l as [|x l IH]; simpl.
  - split; [constructor | reflexivity].
  - destruct (mem x l) eqn:M.
    + split.
      * intros H. pose proof (distinct_length l). lia.
      * intros H. inversion H; subst. apply mem_In in M. contradiction.
    + simpl. split.
      * intros H. constructor; [apply mem_not_In; assumption|].
        apply IH. lia.
      * intros H. inversion H; subst. f_equal. apply IH. assumption.
Qed.

Section Checks.

Variable super_verify : string -> table -> result (list finding * table).
Variable COLUMNS : list coldesc.
Variable class_name : string.

(** The finding for an identifier that the target table does not hold. *)
Definition not_referred (opt : string) (v : Z) : finding :=
  (false,
   VerifyFacts.unfixable_text
     opt ("'TARGET_ID' not refered in TargetHDU: " ++ show_int v)).

Lemma check_referred_fold (opt : string) (tids : list Z) (val : list Z)
      (errors : list finding) (self : table) :
  foldM (MustHaveTargetHDU.check_referred opt (Ok tids)) val (errors, self)
  = Ok (errors
        ++ map (not_referred opt)
               (filter (fun v => negb (existsb (Z.eqb v) tids)) val),
        self).
Proof.
  revert errors. induction val as [|v val IH]; intros errors; simpl.
  - rewrite app_nil_r. reflexivity.
  - destruct (negb (existsb (Z.eqb v) tids)); simpl.
    + rewrite VerifyFacts.run_option_unfixable_text. simpl.
      rewrite IH, <- app_assoc. reflexivity.
    + apply IH.
Qed.

(** X24.  Dangling target identifiers.  After the inherited checks, a
    table with integer identifiers gets one finding, not fixable, when
    some identifier is below 1, and then, when the target table is another
    table, one finding, not fixable, for each distinct identifier that the
    target table does not hold, in increasing order; when the table is
    its own target table, no identifier is looked up.  The table is left
    as the inherited checks left it. *)
Theorem must_have_target_reports_dangling_ids
        (opt : string) (self self' : table) (errors : list finding)
        (a : ndarray) (ids tids : list Z) :
  super_verify opt self = Ok (errors, self') ->
  getattr COLUMNS self' "TARGET_ID" = Ok a ->
  ints_of a = Ok ids ->
  let below_one :=
    if forallb (fun v => (1 <=? v)%Z) ids then []
    else [(false,
           VerifyFacts.unfixable_text opt "'TARGET_ID' should be ≥ 1")] in
  MustHaveTargetHDU._verify super_verify COLUMNS opt self (OtherTable (Ok tids))
  = Ok (errors ++ below_one
        ++ map (not_referred opt)
               (filter (fun v => negb (existsb (Z.eqb v) tids))
                       (np_unique ids)),
        self') /\
  MustHaveTargetHDU._verify super_verify COLUMNS opt self ThisTable
  = Ok (errors ++ below_one, self') /\
  Sorted.StronglySorted Z.lt (np_unique ids) /\
  (forall v, In v (np_unique ids) <-> In v ids).
Proof.
  intros Hs Hg Hi below_one.
  destruct (np_unique_spec ids) as [U1 U2].
  unfold MustHaveTargetHDU._verify. rewrite Hs. cbn [bind]. rewrite Hg. cbn [bind].
  rewrite Hi. cbn [bind].
  rewrite (@forallb_same _ (fun v => (1 <=? v)%Z) _ _ U2). subst below_one.
  destruct (forallb (fun v => (1 <=? v)%Z) ids); cbn [negb bind].
  - rewrite check_referred_fold, app_nil_r. simpl. auto.
  - rewrite VerifyFacts.run_option_unfixable_text. cbn [bind].
    rewrite check_referred_fold, <- app_assoc. auto.
Qed.

(** X25.  Repeated target identifiers.  After the inherited checks, a
    target table whose [TARGET_ID] column has one axis gets the finding
    [Repeated TARGET_ID], not fixable, exactly when the column holds a
    value twice; the table is left as the inherited checks left it. *)
Theorem target_verify_repeated_ids
        (opt : string) (self self' : table) (errors : list finding)
        (a : ndarray) :
  super_verify opt self = Ok (errors, self') ->
  getattr COLUMNS self' "TARGET_ID" = Ok a ->
  arr_shape a = [length (arr_values a)] ->
  (NoDup (arr_values a) ->
   TargetHDU._verify super_verify COLUMNS class_name opt self
   = Ok (errors, self')) /\
  (~ NoDup (arr_values a) ->
   TargetHDU._verify super_verify COLUMNS class_name opt self
   = Ok (errors
         ++ [(false,
              VerifyFacts.unfixable_text
                opt ("Repeated TARGET_ID in " ++ class_name))],
         self')).
Proof.
  intros Hs Hg Hshape. unfold TargetHDU._verify, TargetHDU.len.
  rewrite Hs. cbn [bind]. rewrite Hg. cbn [bind]. rewrite Hshape.
  cbn [bind]. split; intros H.
  - apply distinct_NoDup in H. rewrite H, Nat.eqb_refl. reflexivity.
  - destruct (Nat.eqb (length (distinct (arr_values a)))
                      (length (arr_values a))) eqn:E.
    + apply Nat.eqb_eq, distinct_NoDup in E. contradiction.
    + rewrite VerifyFacts.run_option_unfixable_text. reflexivity.
Qed.

End Checks.

(** A table with the column [TARGET_ID] only, of a class that declares
    it, and inherited checks that find nothing. *)
Definition ids_table (ids : list Z) : table :=
  [{| col_name := "TARGET_ID"; col_format := "1I"; col_unit := None;
      col_null := None; col_dim := None;
      col_array := Some (XMatchClaims.ids_array ids) |}].

Definition no_finding (opt : string) (t : table)
  : result (list finding * table) := Ok ([], t).

Lemma must_have_target_reports_dangling_ids_witness :
  MustHaveTargetHDU._verify no_finding
          [XMatchClaims.desc "TARGET_ID" ">i2"] "warn"
          (ids_table [3; 0; 3; 1]%Z) (OtherTable (Ok [1; 2]%Z))
  = Ok ([(false, "'TARGET_ID' should be ≥ 1");
         (false, "'TARGET_ID' not refered in TargetHDU: 0");
         (false, "'TARGET_ID' not refered in TargetHDU: 3")],
        ids_table [3; 0; 3; 1]%Z) /\
  Sorted.StronglySorted Z.lt (np_unique [3; 0; 3; 1]%Z).
Proof.
  destruct (@must_have_target_reports_dangling_ids
              no_finding [XMatchClaims.desc "TARGET_ID" ">i2"] "warn"
              (ids_table [3; 0; 3; 1]%Z) (ids_table [3; 0; 3; 1]%Z) []
              (XMatchClaims.ids_array [3; 0; 3; 1]%Z) [3; 0; 3; 1]%Z
              [1; 2]%Z eq_refl eq_refl eq_refl) as [H1 [_ [H3 _]]].
  split; [exact H1 | exact H3].
Defined.

Lemma target_verify_repeated_ids_witness :
  ~ NoDup [CInt 3; CInt 0; CInt 3; CInt 1] /\
  TargetHDU._verify no_finding [XMatchClaims.desc "TARGET_ID" ">i2"]
              "TargetHDU2"
              "warn" (ids_table [3; 0; 3; 1]%Z)
  = Ok ([(false, "Repeated TARGET_ID in TargetHDU2")],
        ids_table [3; 0; 3; 1]%Z).
Proof.
  assert (H : ~ NoDup [CInt 3; CInt 0; CInt 3; CInt 1]).
  { intros N. inversion N as [|x l Hx _]; subst. apply Hx. simpl. tauto. }
  split; [exact H|].
  exact (proj2 (@target_verify_repeated_ids
                  no_finding [XMatchClaims.desc "TARGET_ID" ">i2"]
                  "TargetHDU2" "warn" (ids_table [3; 0; 3; 1]%Z)
                  (ids_table [3; 0; 3; 1]%Z) []
                  (XMatchClaims.ids_array [3; 0; 3; 1]%Z)
                  eq_refl eq_refl eq_refl) H).
Defined.

End TargetFacts.

(** ** Names of spectral columns *)

Module SpecNamesFacts.

Import SpecNames.

(** X26.  Errors and observables.  Every spectral column other than
    [FLAG] is an error column or an observable, and none is both; [FLAG]
    is neither. *)
Theorem error_and_observable_names (_get_spec_colnames : bool -> list string)
        (required : bool) (c : string) :
  (In c (get_error_names _get_spec_colnames required)
   \/ In c (get_observable_names _get_spec_colnames required)
   <-> In c (_get_spec_colnames required) /\ c <> "FLAG") /\
  ~ (In c (get_error_names _get_spec_colnames required)
     /\ In c (get_observable_names _get_spec_colnames required)).
Proof.
  unfold get_error_names, get_observable_names. rewrite !filter_In.
  destruct (String.eqb (last3 c) "ERR") eqn:E;
    destruct (String.eqb c "FLAG") eqn:F; simpl.
  - apply String.eqb_eq in F. subst c. discriminate E.
  - apply String.eqb_neq in F. intuition discriminate.
  - apply String.eqb_eq in F. intuition discriminate.
  - apply String.eqb_neq in F. intuition discriminate.
Qed.

End SpecNamesFacts.

(** ** Rows of one input *)

Module MergeRowsWithin.

Import MergeRows.

Lemma select_all_from {A : Type} (suf pre : list A) :
  flat_map (fun j => match nth_error (pre ++ suf) j with
                     | Some r => [r]
                     | None => []
                     end)
           (seq (length pre) (length suf))
  = suf.
Proof.
  revert pre. induction suf as [|x suf IH]; intros pre; simpl;
    [reflexivity|].
  rewrite nth_error_app2 by lia. rewrite Nat.sub_diag. simpl. f_equal.
  specialize (IH (pre ++ [x])).
  rewrite <- app_assoc, length_app in IH. simpl in IH.
  rewrite Nat.add_1_r in IH. exact IH.
Qed.

Lemma select_rows_all (rows : list row) :
  select_rows rows (seq 0 (length rows)) = rows.
Proof. exact (select_all_from rows []). Qed.

Section Within.

Variable equality : row -> row -> bool.

Lemma loop_keeps_all (kept : list fits_rec) (l : list (cell * row)) :
  (forall i2 row2 row1, In (i2, row2) l ->
                        In row1 (flat_map rec_rows kept) ->
                        equality row2 row1 = false) ->
  forall start st st',
    foldM (row_step equality kept) (enumerate_from start l) st = Ok st' ->
    st_kept_lines st' = st_kept_lines st ++ seq start (length l).
Proof.
  induction l as [|[i2 row2] l IH]; intros Hne start st st' H.
  - simpl in H. inversion H; subst. simpl. rewrite app_nil_r. reflexivity.
  - cbn [enumerate_from foldM] in H. inv_bind H. rename a into s1.
    assert (E : st_kept_lines s1 = st_kept_lines st ++ [start]).
    { unfold row_step in Ha.
      assert (F : first_true (map (equality row2) (flat_map rec_rows kept))
                  = None).
      { apply MergeRowsFacts.first_true_None. intros x Hx.
        apply (Hne i2 row2 x); [left; reflexivity | assumption]. }
      rewrite F in Ha. destruct (mem i2 (st_id1 st)).
      - destruct (st_candidate_id2 st); [discriminate|].
        inversion Ha; subst. reflexivity.
      - inversion Ha; subst. reflexivity. }
    rewrite (IH (fun i r r1 Hi => Hne i r r1 (or_intror Hi)) (S start) s1 st' H).
    rewrite E, <- app_assoc. reflexivity.
Qed.

(** X27.  Rows are compared with earlier inputs only.  When no row of an
    input equals, for the caller's equality, a row kept from the inputs
    before it, and the loop over the input returns, the input is kept
    whole: its rows are never compared with each other, so rows that are
    equal within one input all stay. *)
Theorem input_rows_compared_with_earlier_only (id_name : string)
        (ms ms' : merge_state) (rows2 : fits_rec) :
  (forall row2 row1, In row2 (rec_rows rows2) ->
                     In row1 (flat_map rec_rows (ms_kept ms)) ->
                     equality row2 row1 = false) ->
  input_step equality id_name ms rows2 = Ok ms' ->
  ms_kept ms' = ms_kept ms ++ [rows2].
Proof.
  intros Hne H. unfold input_step in H. inv_bind H. rename a into id2.
  inv_bind H. rename a into st. inversion H; subst; clear H.
  cbn [ms_kept]. f_equal. f_equal.
  pose proof (column_length _ _ Ha) as Hlen.
  unfold enumerate in Ha0.
  rewrite (@loop_keeps_all (ms_kept ms) (combine id2 (rec_rows rows2))) with
    (start := 0) (st := {| st_id1 := ms_id1 ms;
                           st_candidate_id2 := candidate_ids (ms_id1 ms) id2;
                           st_index_map := []; st_kept_lines := [] |})
    (st' := st); [| |exact Ha0].
  - cbn [st_kept_lines app]. rewrite length_combine, Hlen, Nat.min_id.
    rewrite select_rows_all. destruct rows2; reflexivity.
  - intros i2 row2 row1 Hin. apply Hne. eapply in_combine_r; eassumption.
Qed.

End Within.

Lemma input_rows_compared_with_earlier_only_witness :
  Examples.same_name (Examples.target 5 "Y") (Examples.target 6 "Y") = true /\
  input_step Examples.same_name "TARGET_ID"
             {| ms_id1 := [CInt 1]; ms_kept := [Examples.A1];
                ms_maps := [[]] |}
             (Examples.targets [Examples.target 5 "Y"; Examples.target 6 "Y"])
  = Ok {| ms_id1 := [CInt 1; CInt 5; CInt 6];
          ms_kept := [Examples.A1;
                      Examples.targets [Examples.target 5 "Y";
                                        Examples.target 6 "Y"]];
          ms_maps := [[]; []] |} /\
  [Examples.A1;
   Examples.targets [Examples.target 5 "Y"; Examples.target 6 "Y"]]
  = [Examples.A1]
    ++ [Examples.targets [Examples.target 5 "Y"; Examples.target 6 "Y"]].
Proof.
  split; [reflexivity|]. split; [reflexivity|].
  apply (@input_rows_compared_with_earlier_only
           Examples.same_name "TARGET_ID"
           {| ms_id1 := [CInt 1]; ms_kept := [Examples.A1];
              ms_maps := [[]] |}
           {| ms_id1 := [CInt 1; CInt 5; CInt 6];
              ms_kept := [Examples.A1;
                          Examples.targets [Examples.target 5 "Y";
                                            Examples.target 6 "Y"]];
              ms_maps := [[]; []] |}
           (Examples.targets [Examples.target 5 "Y"; Examples.target 6 "Y"])).
  - intros row2 row1 [<-|[<-|[]]] [<-|[]]; reflexivity.
  - reflexivity.
Defined.

End MergeRowsWithin.

(** ** Values after a repair *)

Module VerifyValues.

Import Verify Idempotence VerifyExamples.

Lemma replace_invalid_fixed (test : cell -> bool) (d : cell)
      (vs : list cell) :
  test d = true -> replace_invalid test d vs = vs ->
  Forall (fun v => test v = true) vs.
Proof.
  intros Hd. unfold replace_invalid.
  induction vs as [|v vs IH]; simpl; intros H; [constructor|].
  injection H as Hv Hvs. constructor.
  - destruct (test v) eqn:E; [reflexivity|]. rewrite <- Hv in E. congruence.
  - apply IH. assumption.
Qed.

(** X28.  Values after a repair.  On a table whose schema columns hold
    data of their declared types (the names of the schema distinct, none
    starting with [NS_]), a pass in repair mode that returns leaves, in
    every schema column that has a test and a default whose conversion to
    the type of the column passes the test, only values that pass the
    test. *)
Theorem verify_repairs_values
        (Column_array : string -> ndarray -> result ndarray)
        (np_array : cell -> string -> result cell) (get_nwaves : nat)
        (COLUMNS : list coldesc) (class_name : string)
        (errors errs : list finding) (opt : string) (t t1 : table) :
  NoDup (map cd_name COLUMNS) ->
  (forall cd, In cd COLUMNS -> String.prefix "NS_" (cd_name cd) = false) ->
  (forall cd a, In cd COLUMNS -> data_field (cd_name cd) t = Ok a ->
                DType._dtype_descr (cd_type cd)
                = DType._dtype_descr (arr_dtype a)) ->
  reports_only opt = false ->
  _verify Column_array np_array get_nwaves COLUMNS class_name errors opt t
  = Ok (errs, t1) ->
  forall cd c a test default default',
    In cd COLUMNS ->
    find_column (cd_name cd) t1 = Some c ->
    col_array c = Some a ->
    cd_test cd = Some test ->
    cd_default cd = Some default ->
    np_array default (arr_dtype a) = Ok default' ->
    test default' = true ->
    Forall (fun v => test v = true) (arr_values a).
Proof.
  intros Hnd Hpre HT Hopt H cd c a test default default' Hcd Hc Ha Ht Hd
         Hnp Hok.
  pose proof (@verify_repair_settles Column_array np_array get_nwaves COLUMNS
                class_name opt errors errs t t1 Hnd Hpre HT Hopt H)
    as [HS _].
  destruct (HS cd c Hcd Hc) as [a' [d [Ha' [_ [_ [_ Hst]]]]]].
  rewrite Ha in Ha'. inversion Ha'; subst a'.
  apply (@replace_invalid_fixed test default' (arr_values a) Hok).
  exact (Hst test default default' Ht Hd Hnp).
Qed.

Lemma verify_repairs_values_witness :
  verify "fix" [category_column 3 [CStr "XYZ"; CStr "CAL"]]
  = Ok ([], [category_column 3 [CStr "SCI"; CStr "CAL"]]) /\
  Forall (fun v => _is_category v = true) [CStr "SCI"; CStr "CAL"].
Proof.
  split; [reflexivity|].
  assert (Hnd : NoDup (map cd_name [CATEGORY]))
    by (simpl; constructor; [simpl; tauto | constructor]).
  assert (Hpre : forall cd, In cd [CATEGORY] ->
                            String.prefix "NS_" (cd_name cd) = false)
    by (intros cd [<-|[]]; reflexivity).
  assert (HT : forall cd a,
             In cd [CATEGORY] ->
             data_field (cd_name cd)
                        [category_column 3 [CStr "XYZ"; CStr "CAL"]] = Ok a ->
             DType._dtype_descr (cd_type cd)
             = DType._dtype_descr (arr_dtype a)).
  { intros cd a [<-|[]] Hdf. vm_compute in Hdf. inversion Hdf. reflexivity. }
  exact (@verify_repairs_values
           NumpyModel.Column_array NumpyModel.np_array 0 [CATEGORY]
           "TargetHDU2" [] [] "fix"
           [category_column 3 [CStr "XYZ"; CStr "CAL"]]
           [category_column 3 [CStr "SCI"; CStr "CAL"]]
           Hnd Hpre HT eq_refl eq_refl
           CATEGORY (category_column 3 [CStr "SCI"; CStr "CAL"])
           {| arr_dtype := "<U3"; arr_shape := [2];
              arr_values := [CStr "SCI"; CStr "CAL"] |}
           _is_category (CStr "SCI") (CStr "SCI")
           (or_introl eq_refl) eq_refl eq_refl eq_refl eq_refl eq_refl
           eq_refl).
Defined.

End VerifyValues.

(** ** The columns of a merged table *)

Module MergedColumns.

Import Columns MergeHelper.

Section Emitted.

Variable Column_array : string -> ndarray -> result ndarray.

(** How a merged table holds the column [c0] of an input.  The name, the
    null value and the [dim] are those of [c0].  A column that the schema
    does not declare is [c0] itself.  A column that the schema declares
    has the format of the declared type, computed for the shape of the
    data of [c0], unless astropy raised while it converted these data:
    then it is [c0] itself, in the format it had. *)
Definition emitted (COLUMNS : list coldesc) (c0 c : fcolumn) : Prop :=
  col_name c = col_name c0 /\ col_null c = col_null c0 /\
  col_dim c = col_dim c0 /\
  match find_coldesc (col_name c0) COLUMNS with
  | None => c = c0
  | Some cd =>
      exists fmt,
        DType._dtype_to_fits (cd_type cd) (array_shape (col_array c0))
        = Ok fmt /\
        ((col_format c = fmt /\ (c = c0 \/ col_unit c = cd_unit cd)) \/
         (c = c0 /\
          exists a e, col_array c0 = Some a /\ Column_array fmt a = Raise e))
  end.

Lemma cast_one_emitted (COLUMNS : list coldesc) (c0 c : fcolumn) :
  cast_one Column_array COLUMNS c0 = Ok c -> emitted COLUMNS c0 c.
Proof.
  unfold cast_one, emitted.
  destruct (find_coldesc (col_name c0) COLUMNS) as [cd|] eqn:F.
  2:{ intros H; inversion H; subst. auto. }
  intros H. inv_bind H. rename a into spec.
  destruct (String.eqb spec (col_format c0)) eqn:E; cbn [negb] in H.
  { inversion H; subst. apply String.eqb_eq in E.
    repeat split. exists spec. split; [assumption|]. left. auto. }
  unfold _cast_column in H. rewrite Ha in H. cbn [bind] in H.
  destruct (col_array c0) as [a0|] eqn:A.
  - destruct (Column_array spec a0) as [a'|e] eqn:CA; cbn [bind] in H.
    + inversion H; subst; cbn. repeat split.
      exists spec. split; [assumption|]. left. auto.
    + inversion H; subst. repeat split.
      exists spec. split; [assumption|]. right. split; [reflexivity|].
      exists a0, e. auto.
  - cbn [bind] in H. inversion H; subst; cbn. repeat split.
    exists spec. split; [assumption|]. left. auto.
Qed.

End Emitted.

Section Merged.

Variable header : Type.
Variable header_EXTNAME : header -> result string.
Variable merge_fits_headers : list header -> list string -> result header.
Variable np_ndarray : list nat -> string -> result ndarray.
Variable fits_Column :
  string -> string -> option (list nat) -> option string -> result fcolumn.
Variable Column_array : string -> ndarray -> result ndarray.
Variable BinTable_from_columns :
  list fcolumn -> header -> nat -> result fits_rec.
Variable refers_to : hdu header -> hdu header -> bool.
Variable equality : row -> row -> bool.


End Merged.

(** A table of targets whose schema declares [CATEGORY], stored with one
    character. *)
Definition category_hdu (v : string) : hdu string :=
  {| hdu_OI_REVN := 2; hdu_COLUMNS := [VerifyExamples.CATEGORY];
     hdu_req_keys := []; hdu_header := "OI_TARGET";
     hdu_columns := [VerifyExamples.category_column 1 [CStr v]];
     hdu_data := {| rec_names := ["CATEGORY"];
                    rec_rows := [[("CATEGORY", CStr v)]] |};
     hdu_container := None |}.

(** The entry [('TARGET_ID', True, '>i2', (), _u.is_strictpos, None, None)]
    of the schema of the table of targets. *)
Definition TARGET_ID : coldesc :=
  {| cd_name := "TARGET_ID"; cd_required := true; cd_type := ">i2";
     cd_shape := [];
     cd_test := Some (fun c => match c with
                               | CInt z => Z.ltb 0 z
                               | CStr _ => false
                               end);
     cd_default := None; cd_unit := None; cd_comment := "" |}.

(** A table whose column [TARGET_ID] holds texts of 8 characters. *)
Definition text_id_hdu (v : string) : hdu string :=
  {| hdu_OI_REVN := 2; hdu_COLUMNS := [TARGET_ID];
     hdu_req_keys := []; hdu_header := "OI_TARGET";
     hdu_columns :=
       [{| col_name := "TARGET_ID"; col_format := "8A"; col_unit := None;
           col_null := None; col_dim := None;
           col_array := Some {| arr_dtype := "<U8"; arr_shape := [1];
                                arr_values := [CStr v] |} |}];
     hdu_data := {| rec_names := ["TARGET_ID"];
                    rec_rows := [[("TARGET_ID", CStr v)]] |};
     hdu_container := None |}.

(** The merge of the examples: headers that hold their [EXTNAME], and the
    conversions and the allocation of [NumpyModel]. *)
Definition astropy_merge (self : hdu string) (others : list (hdu string))
           (id_name : option string) (s : store string)
  : result (hdu string * store string) :=
  @_merge_helper string (fun h => Ok h) (fun hs _ => Ok (hd "" hs))
                 NumpyModel.np_ndarray NumpyModel.fits_Column
                 NumpyModel.Column_array
                 (fun columns _ nrows =>
                    Ok (NumpyModel.from_columns columns nrows))
                 (fun _ _ => true)
                 Examples.never_equal self others id_name s.



End MergedColumns.

(** ** The merge without identifier column *)

Module DefaultMerge.

Import MergeRows MergeHelper FillFacts.

Lemma assign_slice_names (name : string) (rowmin : nat) (values : list cell)
      (merged merged' : fits_rec) :
  assign_slice name rowmin values merged = Ok merged' ->
  In name (rec_names merged) /\ rec_names merged' = rec_names merged.
Proof.
  unfold assign_slice.
  destruct (has_name name (rec_names merged)) eqn:E; [|discriminate].
  destruct (rowmin + length values <=? length (rec_rows merged));
    [|discriminate].
  intros H. inversion H; subst. split; [|reflexivity].
  apply has_name_In. assumption.
Qed.

(** A block that was copied has its fields among those of the table. *)
Lemma copy_rows_names (id_name : option string) (rowmin : nat)
      (merged : fits_rec) (data : fits_rec) (map_ : dict)
      (acc : nat * fits_rec) :
  copy_rows id_name (rowmin, merged) (data, map_) = Ok acc ->
  incl (rec_names data) (rec_names merged).
Proof.
  unfold copy_rows. intros H. inv_bind H. clear H. revert merged a Ha.
  induction (rec_names data) as [|n ns IH]; intros merged merged' H.
  - intros x [].
  - cbn [foldM] in H. inv_bind H. inv_bind Ha.
    apply assign_slice_names in Ha. destruct Ha as [Hin Hn].
    intros x [<-|Hx]; [assumption|].
    rewrite <- Hn. apply (IH _ _ H). assumption.
Qed.

Lemma from_columns_fields (columns : list fcolumn) (nrows : nat) :
  Forall (fun r => map fst r
                   = rec_names (NumpyModel.from_columns columns nrows))
         (rec_rows (NumpyModel.from_columns columns nrows)).
Proof.
  unfold NumpyModel.from_columns. cbn [rec_names rec_rows].
  apply Forall_forall. intros r Hr. apply in_map_iff in Hr.
  destruct Hr as [i [<- _]]. rewrite map_map. reflexivity.
Qed.

Lemma from_columns_length (columns : list fcolumn) (nrows : nat) :
  nrows <= length (rec_rows (NumpyModel.from_columns columns nrows)).
Proof.
  unfold NumpyModel.from_columns. cbn [rec_rows].
  rewrite length_map, length_seq.
  destruct (nrows =? 0) eqn:E; [apply Nat.eqb_eq in E; lia | lia].
Qed.

Lemma from_columns_row (columns : list fcolumn) (nrows i : nat) (r : row) :
  nth_error (rec_rows (NumpyModel.from_columns columns nrows)) i = Some r ->
  r = map (fun c => (col_name c, NumpyModel.allocated_cell c i)) columns.
Proof.
  unfold NumpyModel.from_columns. cbn [rec_rows]. intros H.
  rewrite nth_error_map in H.
  destruct (nth_error (seq 0 _) i) as [j|] eqn:E; [|discriminate].
  cbn in H. inversion H; subst.
  assert (Hlt : i < length (seq 0 (if nrows =? 0
                                   then list_max (map NumpyModel.column_rows
                                                      columns)
                                   else nrows))).
  { apply nth_error_Some. congruence. }
  rewrite length_seq in Hlt.
  apply (nth_error_nth _ _ 0) in E. rewrite seq_nth in E by assumption.
  simpl in E. subst j. reflexivity.
Qed.

Lemma field_of_columns (f : fcolumn -> cell) (columns : list fcolumn)
      (c : fcolumn) :
  NoDup (map col_name columns) -> In c columns ->
  field (col_name c) (map (fun c => (col_name c, f c)) columns)
  = Some (f c).
Proof.
  induction columns as [|x xs IH]; intros Hn Hin; [destruct Hin|].
  inversion Hn as [|? ? Hx Hxs]; subst. cbn [map field].
  destruct Hin as [->|Hin].
  - rewrite String.eqb_refl. reflexivity.
  - destruct (String.eqb (col_name x) (col_name c)) eqn:E.
    + apply String.eqb_eq in E. exfalso. apply Hx. rewrite E.
      apply in_map. assumption.
    + apply IH; assumption.
Qed.

Lemma Forall2_In_r {A B : Type} (R : A -> B -> Prop) (l : list A)
      (l' : list B) (b : B) :
  Forall2 R l l' -> In b l' -> exists a, In a l /\ R a b.
Proof.
  induction 1 as [|x y l l' Hxy _ IH]; intros Hin; [destruct Hin|].
  destruct Hin as [<-|Hin].
  - exists x. split; [left; reflexivity | assumption].
  - destruct (IH Hin) as [a [Ha Hr]]. exists a. split; [right|]; assumption.
Qed.

(** The first column of a name that a table has is a column of the
    table. *)
Lemma find_name_In (name : string) (l rest : list fcolumn) (c : fcolumn) :
  In name (map col_name l) ->
  find (fun x => String.eqb (col_name x) name) (l ++ rest) = Some c ->
  In c l.
Proof.
  intros Hin Hf. apply in_map_iff in Hin. destruct Hin as [x [Hx Hxl]].
  destruct (find (fun x => String.eqb (col_name x) name) l) as [y|] eqn:E.
  - rewrite (find_app_Some _ _ rest E) in Hf. inversion Hf; subst.
    apply find_some in E. apply E.
  - apply (find_none _ _ E) in Hxl. rewrite Hx, String.eqb_refl in Hxl.
    discriminate.
Qed.

Section Default.

Variable header : Type.
Variable header_EXTNAME : header -> result string.
Variable merge_fits_headers : list header -> list string -> result header.
Variable np_ndarray : list nat -> string -> result ndarray.
Variable fits_Column :
  string -> string -> option (list nat) -> option string -> result fcolumn.
Variable Column_array : string -> ndarray -> result ndarray.
Variable BinTable_from_columns :
  list fcolumn -> header -> nat -> result fits_rec.
Variable refers_to : hdu header -> hdu header -> bool.
Variable equality : row -> row -> bool.


End Default.

(** The entry of [TARGET_ID] and a column of identifiers. *)
Definition id_column (values : list Z) : fcolumn :=
  {| col_name := "TARGET_ID"; col_format := "1I"; col_unit := None;
     col_null := None; col_dim := None;
     col_array := Some {| arr_dtype := ">i2";
                          arr_shape := [length values];
                          arr_values := map CInt values |} |}.

(** A table of targets of the first revision, which has no [CATEGORY],
    with one row. *)
Definition targets1 : hdu string :=
  {| hdu_OI_REVN := 1; hdu_COLUMNS := [MergedColumns.TARGET_ID];
     hdu_req_keys := []; hdu_header := "OI_TARGET";
     hdu_columns := [id_column [1%Z]];
     hdu_data := {| rec_names := ["TARGET_ID"];
                    rec_rows := [[("TARGET_ID", CInt 1)]] |};
     hdu_container := None |}.

(** A table of targets of the second revision, with two rows. *)
Definition targets2 : hdu string :=
  {| hdu_OI_REVN := 2;
     hdu_COLUMNS := [MergedColumns.TARGET_ID; VerifyExamples.CATEGORY];
     hdu_req_keys := []; hdu_header := "OI_TARGET";
     hdu_columns := [id_column [1%Z; 2%Z];
                     VerifyExamples.category_column
                       3 [CStr "SCI"; CStr "CAL"]];
     hdu_data := {| rec_names := ["TARGET_ID"; "CATEGORY"];
                    rec_rows := [[("TARGET_ID", CInt 1);
                                  ("CATEGORY", CStr "SCI")];
                                 [("TARGET_ID", CInt 2);
                                  ("CATEGORY", CStr "CAL")]] |};
     hdu_container := None |}.

Definition merged12 : hdu string :=
  {| hdu_OI_REVN := 2;
     hdu_COLUMNS := [MergedColumns.TARGET_ID; VerifyExamples.CATEGORY];
     hdu_req_keys := []; hdu_header := "OI_TARGET";
     hdu_columns := [id_column [1%Z];
                     VerifyExamples.category_column
                       3 [CStr "SCI"; CStr "CAL"]];
     hdu_data := {| rec_names := ["TARGET_ID"; "CATEGORY"];
                    rec_rows := [[("TARGET_ID", CInt 1);
                                  ("CATEGORY", CStr "SCI")];
                                 [("TARGET_ID", CInt 0);
                                  ("CATEGORY", CStr "CAL")];
                                 [("TARGET_ID", CInt 0);
                                  ("CATEGORY", CStr "")]] |};
     hdu_container := None |}.

(** The conversions of [NumpyModel] keep the number of values. *)
Lemma Column_array_length (fmt : string) (a a' : ndarray) :
  NumpyModel.Column_array fmt a = Ok a' ->
  length (arr_values a') = length (arr_values a).
Proof.
  unfold NumpyModel.Column_array.
  destruct (Columns.last_char fmt) as [ch|]; [|discriminate].
  destruct (Ascii.eqb ch "A") eqn:EA.
  - apply Ascii.eqb_eq in EA. subst ch. intros H. inv_bind H.
    inversion H; subst; cbn. apply length_map.
  - destruct (Ascii.eqb ch "I") eqn:EI.
    + apply Ascii.eqb_eq in EI. subst ch. intros H. inv_bind H.
      inversion H; subst; cbn. eapply mapM_length; eassumption.
    + intros H. exfalso.
      destruct ch as [[] [] [] [] [] [] [] []]; try discriminate.
Qed.



End DefaultMerge.
